(** * picam_bench: runtime orchestration and telemetry

    A shallow embedding of [picam_bench.c] (device probing, pipeline
    construction, process supervision, CPU/memory sampling, progress-log
    parsing and status-file publishing) together with the properties of
    its specification.

    Conventions.
    - [unsigned long long] values are integers in [0, 2^64); every
      arithmetic operation on them is followed by [u64] (reduction modulo
      2^64), as the C operators do.
    - A [double] that the program computes from integers is represented by
      the exact rational the expression denotes ([Q]); the final IEEE
      rounding is not part of the model.
    - C strings are [string]s without the terminating NUL; a function that
      returns a pointer into its argument returns the suffix that starts
      at that pointer, and [NULL] is [None].
    - The outcome of a system call or of a read of [/proc] is an input of
      the model. *)

From Stdlib Require Import ZArith QArith Bool List Lia.
From Stdlib Require Import Ascii String DecimalString.
Import ListNotations.

Local Open Scope list_scope.
Local Open Scope string_scope.
Local Open Scope Z_scope.

(** ** The C library functions the program calls *)

Module CStr.

Definition NUL : ascii := "000"%char.
Definition LF : ascii := "010"%char.
Definition CR : ascii := "013"%char.

(** The C string held by a buffer: the bytes before the first NUL. *)
Fixpoint c_str (buf : string) : string :=
  match buf with
  | EmptyString => EmptyString
  | String c rest =>
      if Ascii.eqb c NUL then EmptyString else String c (c_str rest)
  end.

(** [strstr(h, n)]: the suffix of [h] at the first occurrence of [n]. *)
Fixpoint strstr (h n : string) : option string :=
  if String.prefix n h then Some h
  else
    match h with
    | EmptyString => None
    | String _ rest => strstr rest n
    end.

(** [strchr(s, c)] for a character [c] other than NUL. *)
Fixpoint strchr (s : string) (c : ascii) : option string :=
  match s with
  | EmptyString => None
  | String d rest => if Ascii.eqb d c then Some s else strchr rest c
  end.

(** [strcmp(a, b) == 0] *)
Definition streq (a b : string) : bool := String.eqb a b.

(** [strncmp(a, b, n) == 0] when [b] is a literal of [n] characters. *)
Definition has_prefix (b a : string) : bool := String.prefix b a.

(** What [snprintf(dst, size, "%s", s)] leaves in [dst]: at most
    [size - 1] characters of [s]. *)
Definition snprintf_s (size : nat) (s : string) : string :=
  String.substring 0 (size - 1) s.

(** [isspace] in the C locale. *)
Definition isspace (c : ascii) : bool :=
  let n := nat_of_ascii c in
  (Nat.eqb n 32 || (Nat.leb 9 n && Nat.leb n 13))%bool.

Fixpoint skip_space (s : string) : string :=
  match s with
  | EmptyString => EmptyString
  | String c rest => if isspace c then skip_space rest else s
  end.

(** The longest prefix of at most [width] characters that are not white
    space. *)
Fixpoint take_word (width : nat) (s : string) : string :=
  match width, s with
  | S w, String c rest =>
      if isspace c then EmptyString else String c (take_word w rest)
  | _, _ => EmptyString
  end.

(** [sscanf(s, "%63s", b)] into a zeroed [b]: leading white space is
    skipped and up to 63 characters are stored; at the end of input
    nothing is stored and [b] stays empty. *)
Definition scan_s63 (s : string) : string :=
  take_word 63 (skip_space s).

(** [printf("%d", z)] *)
Definition fmt_d (z : Z) : string :=
  NilZero.string_of_int (Z.to_int z).

Definition digit (z : Z) : ascii :=
  ascii_of_nat (48 + Z.to_nat z).

(** Round half to even of a non-negative rational [n / d]. *)
Definition round_half_even (n : Z) (d : positive) : Z :=
  let q := n / Zpos d in
  let r := n mod Zpos d in
  match 2 * r ?= Zpos d with
  | Lt => q
  | Gt => q + 1
  | Eq => if Z.even q then q else q + 1
  end.

(** [printf("%.1f", x)] for a finite [x], in the default rounding mode:
    the decimal with one fractional digit nearest to the exact value,
    ties to even, with a minus sign for a negative [x]. *)
Definition fmt_1f (x : Q) : string :=
  let tenths := round_half_even (Z.abs (Qnum x) * 10) (Qden x) in
  (if Qnum x <? 0 then "-" else "")
    ++ fmt_d (tenths / 10) ++ "." ++ String (digit (tenths mod 10)) "".

End CStr.

(** ** /proc helpers for CPU and memory *)

Module Proc.

Definition two64 : Z := 2 ^ 64.

(** Result of an [unsigned long long] operation. *)
Definition u64 (z : Z) : Z := z mod two64.

(** [cpu_tot_t] *)
Record cpu_tot_t := mk_cpu_tot
  { user : Z; nice : Z; sys : Z; idle : Z; iow : Z; irq : Z; sirq : Z }.

(** What [read_proc_pid_stat] stores through its three out-pointers when
    it returns 0. *)
Record pid_stat := mk_pid_stat { utime : Z; stime : Z; rss_kb : Z }.

(** The results of the two readers at one read point, as the sampler
    sees them.  [proc_stat] is what [read_proc_stat_total] delivers
    ([None]: it returns -1); [proc_pid] is what [read_proc_pid_stat]
    delivers for a pid ([None]: it returns -1 and stores nothing,
    because the file cannot be opened, has no closing parenthesis, or
    has fewer than twelve numeric fields where the function looks for
    them).  The readers themselves are [ProcFiles.read_proc_stat_total]
    and [ProcFiles.read_proc_pid_stat], and [ProcFiles.mount] gives the
    results they compute from the contents of the files. *)
Record procfs := mk_procfs
  { proc_stat : option cpu_tot_t;
    proc_pid : Z -> option pid_stat }.

Definition read_proc_stat_total (fs : procfs) : option cpu_tot_t :=
  proc_stat fs.

Definition read_proc_pid_stat (fs : procfs) (pid : Z) : option pid_stat :=
  proc_pid fs pid.

(** The pair [(u[i], s[i])] after one of the two read loops of
    [cpu_percent_for_pids]: the arrays are zero-initialised, the read is
    attempted only for [pids[i] > 0], and its return value is ignored. *)
Definition read_ticks (fs : procfs) (pid : Z) : Z * Z :=
  if 0 <? pid then
    match read_proc_pid_stat fs pid with
    | Some st => (utime st, stime st)
    | None => (0, 0)
    end
  else (0, 0).

(** [t.user + t.nice + t.sys + t.idle + t.iow + t.irq + t.sirq] *)
Definition cpu_total (t : cpu_tot_t) : Z :=
  u64 (u64 (u64 (u64 (u64 (u64 (user t + nice t) + sys t) + idle t)
                      + iow t) + irq t) + sirq t).

(** One iteration of the summing loop:
    [sum += (u1[i] - u0[i]) + (s1[i] - s0[i])]. *)
Definition add_delta (fs0 fs1 : procfs) (sum : Z) (pid : Z) : Z :=
  let '(u0, s0) := read_ticks fs0 pid in
  let '(u1, s1) := read_ticks fs1 pid in
  u64 (sum + u64 (u64 (u1 - u0) + u64 (s1 - s0))).

Definition sum_deltas (fs0 fs1 : procfs) (pids : list Z) : Z :=
  fold_left (add_delta fs0 fs1) pids 0.

(** [cpu_percent_for_pids(pids, npids, interval_ms)]; [fs0] is what is
    read before the sleep and [fs1] what is read after it.  [pids] holds
    the [npids <= 16] entries of the array. *)
Definition cpu_percent_for_pids (fs0 fs1 : procfs) (pids : list Z) : Q :=
  match read_proc_stat_total fs0 with
  | None => 0%Q
  | Some t0 =>
      match read_proc_stat_total fs1 with
      | None => 0%Q
      | Some t1 =>
          let tot0 := cpu_total t0 in
          let tot1 := cpu_total t1 in
          let tot_delta := u64 (tot1 - tot0) in
          if tot_delta <=? 0 then 0%Q
          else
            let sum := sum_deltas fs0 fs1 pids in
            ((100 * inject_Z sum) / inject_Z tot_delta)%Q
      end
  end.

(** One iteration of the loop of [rss_mb_for_pids]. *)
Definition add_rss (fs : procfs) (sumkb : Z) (pid : Z) : Z :=
  if pid <=? 0 then sumkb
  else
    match read_proc_pid_stat fs pid with
    | Some st => sumkb + rss_kb st
    | None => sumkb
    end.

(** [rss_mb_for_pids(pids, npids)]; the [long] sum of resident sizes in
    kB is far from overflowing. *)
Definition rss_mb_for_pids (fs : procfs) (pids : list Z) : Q :=
  (inject_Z (fold_left (add_rss fs) pids 0%Z) / 1024)%Q.

End Proc.
(** ** V4L2 helpers *)

Module V4L2.
Import CStr.

(** Constants of [linux/videodev2.h]. *)
Definition V4L2_CAP_VIDEO_CAPTURE : Z := 0x00000001.
Definition V4L2_CAP_VIDEO_CAPTURE_MPLANE : Z := 0x00001000.
Definition V4L2_CAP_DEVICE_CAPS : Z := 0x80000000.

Definition v4l2_fourcc (a b c d : ascii) : Z :=
  Z.lor (Z.lor (Z.of_nat (nat_of_ascii a))
               (Z.shiftl (Z.of_nat (nat_of_ascii b)) 8))
        (Z.lor (Z.shiftl (Z.of_nat (nat_of_ascii c)) 16)
               (Z.shiftl (Z.of_nat (nat_of_ascii d)) 24)).

Definition V4L2_PIX_FMT_H264 : Z := v4l2_fourcc "H" "2" "6" "4".
Definition V4L2_PIX_FMT_MJPEG : Z := v4l2_fourcc "M" "J" "P" "G".
Definition V4L2_PIX_FMT_YUYV : Z := v4l2_fourcc "Y" "U" "Y" "V".

(** The fields of [struct v4l2_capability] that the program reads. *)
Record v4l2_capability := mk_cap
  { driver : string; card : string; capabilities : Z; device_caps : Z }.

(** What the kernel answers for one device node: [dev_cap] is the result
    of opening the node and issuing [VIDIOC_QUERYCAP] ([None]: the open
    or the ioctl fails); [dev_fmts] and [dev_fmts_mplane] are the pixel
    formats that [VIDIOC_ENUM_FMT] enumerates on the two capture queues
    before it first fails ([dev_open] tells whether the second open
    succeeds). *)
Record device := mk_device
  { dev_cap : option v4l2_capability;
    dev_open : bool;
    dev_fmts : list Z;
    dev_fmts_mplane : list Z }.

Definition devices := string -> device.

(** [v4l2_querycap(node, &cap) >= 0] with the capability it stores. *)
Definition v4l2_querycap (devs : devices) (node : string)
  : option v4l2_capability :=
  dev_cap (devs node).

Definition found (r : option string) : bool :=
  match r with Some _ => true | None => false end.

Definition capture_bits : Z :=
  Z.lor V4L2_CAP_VIDEO_CAPTURE V4L2_CAP_VIDEO_CAPTURE_MPLANE.

(** [v4l2_supports_capture(node)] *)
Definition v4l2_supports_capture (devs : devices) (node : string) : bool :=
  match v4l2_querycap devs node with
  | None => false
  | Some cap =>
      if (found (strstr (driver cap) "bcm2835")
          || found (strstr (card cap) "bcm2835")
          || found (strstr (driver cap) "bcm2835-codec")
          || found (strstr (card cap) "bcm2835-codec"))%bool
      then false
      else if negb (found (strstr (driver cap) "uvcvideo")) then false
      else if (negb (Z.land (capabilities cap) V4L2_CAP_DEVICE_CAPS =? 0)
               && negb (Z.land (device_caps cap) capture_bits =? 0))%bool
      then true
      else if negb (Z.land (capabilities cap) capture_bits =? 0) then true
      else false
  end.

(** The filtering policy in the words of the specification: the
    driver or card names an internal image-signal-processor or codec
    node; the driver is the USB video class driver; the device path
    advertises single-plane or multi-plane video capture. *)
Definition isp_or_codec_node (cap : v4l2_capability) : bool :=
  (found (strstr (driver cap) "bcm2835")
   || found (strstr (card cap) "bcm2835")
   || found (strstr (driver cap) "bcm2835-codec")
   || found (strstr (card cap) "bcm2835-codec"))%bool.

Definition uvc_driver (cap : v4l2_capability) : bool :=
  found (strstr (driver cap) "uvcvideo").

(** What [VIDIOC_QUERYCAP] tells about the opened device path itself:
    [device_caps] when [V4L2_CAP_DEVICE_CAPS] marks that field as
    filled in; [capabilities], which describes the physical device
    with all its paths, only when it does not. *)
Definition node_caps (cap : v4l2_capability) : Z :=
  if Z.land (capabilities cap) V4L2_CAP_DEVICE_CAPS =? 0
  then capabilities cap
  else device_caps cap.

Definition advertises_capture (cap : v4l2_capability) : bool :=
  negb (Z.land (node_caps cap) capture_bits =? 0).

(** A device path the policy rejects. *)
Definition rejected (devs : devices) (node : string) : Prop :=
  match v4l2_querycap devs node with
  | None => True
  | Some cap =>
      isp_or_codec_node cap = true
      \/ uvc_driver cap = false
      \/ advertises_capture cap = false
  end.

(** [fmt_support_t] *)
Record fmt_support_t := mk_fmt { h264 : bool; mjpg : bool; yuyv : bool }.

Definition no_formats : fmt_support_t := mk_fmt false false false.

(** The body of either enumeration loop of [v4l2_enum_formats]. *)
Definition note_format (fs : fmt_support_t) (pix : Z) : fmt_support_t :=
  mk_fmt (if pix =? V4L2_PIX_FMT_H264 then true else h264 fs)
         (if pix =? V4L2_PIX_FMT_MJPEG then true else mjpg fs)
         (if pix =? V4L2_PIX_FMT_YUYV then true else yuyv fs).

(** [v4l2_enum_formats(node, fs)]: the value left in [*fs]; the return
    value is ignored by every caller. *)
Definition v4l2_enum_formats (devs : devices) (node : string)
  : fmt_support_t :=
  let d := devs node in
  if dev_open d then
    fold_left note_format (dev_fmts_mplane d)
      (fold_left note_format (dev_fmts d) no_formats)
  else no_formats.

(** The loop of [pick_usb_node] over [g.gl_pathv]. *)
Fixpoint first_capture_node (devs : devices) (outsz : nat)
  (pathv : list string) : option string :=
  match pathv with
  | [] => None
  | n :: rest =>
      if v4l2_supports_capture devs n then Some (snprintf_s outsz n)
      else first_capture_node devs outsz rest
  end.

(** [pick_usb_node(out, outsz)]: [Some out] when it returns 0.
    [glob_res] is the outcome of [glob("/dev/video*", ...)]: [None] when
    it returns non-zero, else the matched paths in the order of
    [gl_pathv]. *)
Definition pick_usb_node (devs : devices) (glob_res : option (list string))
  (outsz : nat) : option string :=
  match glob_res with
  | None => None
  | Some pathv => first_capture_node devs outsz pathv
  end.

(** [detect_usb(node_out, outsz, fs)] *)
Definition detect_usb (devs : devices) (glob_res : option (list string))
  (outsz : nat) : option (string * fmt_support_t) :=
  match pick_usb_node devs glob_res outsz with
  | None => None
  | Some node => Some (node, v4l2_enum_formats devs node)
  end.

End V4L2.

(** ** Configuration and run context *)

Module Config.

Inductive source_t := SRC_AUTO | SRC_CSI | SRC_USBNODE.
Inductive encode_t := ENC_AUTO | ENC_SOFTWARE | ENC_HARDWARE.

Definition DEFAULT_CORNER : string := "top-left".

(** [cfg_t], as [parse_cfg] leaves it. *)
Record cfg_t := mk_cfg
  { method : string;
    cfg_width : Z; cfg_height : Z;
    cfg_fps : Z;
    cfg_bitrate : Z;
    corner : string;
    source_mode : source_t;
    source_node : string;
    encode_mode : encode_t;
    skip_menu : Z }.

(** [ctx_t] *)
Record ctx_t := mk_ctx
  { tmpdir : string;
    fifo_path : string;
    stats_path : string;
    cam_pid : Z;
    prev_pid : Z;
    prev_stderr_fd : Z;
    running : bool;
    overlay_disabled : bool;
    width : Z; height : Z; fps : Z; bitrate : Z }.

End Config.

(** ** Overlay and statistics *)

Module Overlay.
Import CStr Config.

Definition nl : string := String LF "".

(** The part of [overlay_state_t] behind the mutex. *)
Record overlay_state_t := mk_ost
  { latest_fps : Q; latest_bitrate : string }.

(** [p + k] for a pointer [p] into a C string of at least [k]
    characters. *)
Fixpoint advance (k : nat) (p : string) : string :=
  match k, p with
  | S k', String _ rest => advance k' rest
  | _, _ => p
  end.

Section LogReader.

(** [sscanf(s, "%lf", &f) == 1] with the value stored: the conversion
    of the C library, as the exact value of the resulting double. *)
Variable scan_lf : string -> option Q.

(** What [ffmpeg_log_reader] does with one completed line. *)
Definition parse_line (st : overlay_state_t) (line : string)
  : overlay_state_t :=
  let fps := strstr line "fps=" in
  let br := strstr line "bitrate=" in
  let st1 :=
    match fps with
    | Some p =>
        let f := match scan_lf (advance 4 p) with
                 | Some v => v
                 | None => 0%Q
                 end in
        mk_ost f (latest_bitrate st)
    | None => st
    end in
  match br with
  | Some p =>
      let b := scan_s63 (advance 8 p) in
      mk_ost (latest_fps st1) (snprintf_s 64 b)
  | None => st1
  end.

(** The local buffer [line] (its first [len] characters) and the shared
    state. *)
Record reader := mk_reader { line : string; shared : overlay_state_t }.

(** The body of the inner [for] loop, for the byte [c]. *)
Definition feed_byte (r : reader) (c : ascii) : reader :=
  if (Ascii.eqb c CR || Ascii.eqb c LF)%bool then
    mk_reader "" (parse_line (shared r) (c_str (line r)))
  else if Z.of_nat (String.length (line r)) <? 8191 then
    mk_reader (line r ++ String c "") (shared r)
  else r.

Fixpoint feed_bytes (r : reader) (buf : string) : reader :=
  match buf with
  | EmptyString => r
  | String c rest => feed_bytes (feed_byte r c) rest
  end.

(** [ffmpeg_log_reader]: [reads] are the successive non-empty results
    of [read] on the preview's stderr while the session is running. *)
Definition ffmpeg_log_reader (reads : list string) (st : overlay_state_t)
  : overlay_state_t :=
  shared (fold_left feed_bytes reads (mk_reader "" st)).

End LogReader.

(** [overlay_coords(corner, &ox, &oy)] *)
Definition overlay_coords (corner : string) : string * string :=
  if streq corner "top-right" then ("w-tw-10", "10")
  else if streq corner "bottom-left" then ("10", "h-th-10")
  else if streq corner "bottom-right" then ("w-tw-10", "h-th-10")
  else ("10", "10").

(** The six [fprintf] calls of [stats_writer]. *)
Definition stats_text (fps : Q) (w h : Z) (br : string) (cpu mem : Q)
  : string :=
  "FPS: " ++ fmt_1f fps ++ nl
  ++ "RES: " ++ fmt_d w ++ "x" ++ fmt_d h ++ nl
  ++ "BitRate: " ++ br ++ nl
  ++ "CPU: " ++ fmt_1f cpu ++ "%" ++ nl
  ++ "MEM: " ++ fmt_1f 0 ++ "%" ++ nl
  ++ "MEM_MB: " ++ fmt_1f mem ++ nl.

(** The local [br] of [stats_writer]:
    [latest_bitrate[0] ? latest_bitrate : "N/A"]. *)
Definition shown_bitrate (st : overlay_state_t) : string :=
  snprintf_s 64
    (match latest_bitrate st with
     | EmptyString => "N/A"
     | String _ _ => latest_bitrate st
     end).

(** One iteration of the loop of [stats_writer]: the text it writes to
    the status file.  [fs0], [fs1] are the accounting data read by
    [cpu_percent_for_pids] and [fs2] those read by [rss_mb_for_pids]. *)
Definition stats_cycle (ctx : ctx_t) (st : overlay_state_t)
  (fs0 fs1 fs2 : Proc.procfs) : string :=
  let pids := [cam_pid ctx; prev_pid ctx] in
  let cpu := Proc.cpu_percent_for_pids fs0 fs1 pids in
  let mem := Proc.rss_mb_for_pids fs2 pids in
  stats_text (latest_fps st) (width ctx) (height ctx) (shown_bitrate st)
    cpu mem.

End Overlay.

(** ** Pipeline builders *)

Module Pipeline.
Import CStr Config V4L2 Overlay.

(** The argument vector that [start_preview] passes to [spawn_child]
    (without the terminating [NULL]). *)
Definition start_preview_argv (ctx : ctx_t) (title : string) : list string :=
  let '(ox, oy) := overlay_coords DEFAULT_CORNER in
  let draw :=
    "drawtext=fontfile=/usr/share/fonts/truetype/dejavu/DejaVuSans.ttf:"
    ++ "textfile=" ++ stats_path ctx ++ ":reload=1:x=" ++ ox ++ ":y=" ++ oy
    ++ ":fontcolor=white:fontsize=28:"
    ++ "box=1:boxcolor=0x000000AA:boxborderw=8:line_spacing=6" in
  [ "ffmpeg";
    "-hide_banner"; "-loglevel"; "info"; "-stats";
    "-fflags"; "+nobuffer"; "-flags"; "+low_delay";
    "-reorder_queue_size"; "0"; "-thread_queue_size"; "512";
    "-f"; "h264"; "-i"; fifo_path ctx;
    "-vf"; draw;
    "-an"; "-f"; "sdl"; title ].

(** The argument vector of [start_csi_camera]. *)
Definition start_csi_camera_argv (cmd : string) (width height fps bitrate : Z)
  : list string :=
  [ cmd;
    "--inline"; "--codec"; "h264"; "--timeout"; "0";
    "--width"; fmt_d width; "--height"; fmt_d height;
    "--framerate"; fmt_d fps;
    "--bitrate"; fmt_d bitrate;
    "-o"; "-" ].

(** The choice of [infmt] in [start_usb_ffmpeg]. *)
Definition input_format (fs : fmt_support_t) : string :=
  if h264 fs then "h264"
  else if mjpg fs then "mjpeg"
  else if yuyv fs then "yuyv422"
  else "mjpeg".

(** The arguments that [start_usb_ffmpeg] appends between the input and
    the output: the encoder branch. *)
Definition encoder_args (fs : fmt_support_t) (enc : encode_t) (br : string)
  : list string :=
  if h264 fs then [ "-c:v"; "copy" ]
  else
    match enc with
    | ENC_HARDWARE =>
        [ "-pix_fmt"; "nv12"; "-c:v"; "h264_v4l2m2m";
          "-b:v"; br; "-maxrate"; br; "-bufsize"; br ]
    | _ =>
        [ "-c:v"; "libx264"; "-preset"; "ultrafast";
          "-tune"; "zerolatency";
          "-b:v"; br; "-maxrate"; br; "-bufsize"; br ]
    end.

(** The argument vector of [start_usb_ffmpeg]. *)
Definition start_usb_ffmpeg_argv (ctx : ctx_t) (devnode : string)
  (fs : fmt_support_t) (enc : encode_t) : list string :=
  let infmt := input_format fs in
  let sz := fmt_d (width ctx) ++ "x" ++ fmt_d (height ctx) in
  let fr := fmt_d (fps ctx) in
  let br := fmt_d (bitrate ctx) in
  ([ "ffmpeg"; "-hide_banner"; "-loglevel"; "error";
     "-f"; "v4l2"; "-input_format"; infmt;
     "-video_size"; sz; "-framerate"; fr; "-i"; devnode ]
   ++ encoder_args fs enc br
   ++ [ "-f"; "h264"; fifo_path ctx ])%list.

End Pipeline.

(** ** Camera detection *)

Module Detect.
Import CStr.

(** The [while] loop of [detect_csi_available] from the pointer [pn];
    its result is [has_non_usb].  Every iteration moves [pn] forward, so
    [fuel] bounds the number of iterations; [None] means that the fuel
    ran out. *)
Fixpoint scan_index (fuel : nat) (pn : string) : option bool :=
  match fuel with
  | O => None
  | S fuel' =>
      match strstr pn "Index" with
      | None => Some false
      | Some p =>
          let line_end :=
            match strchr p LF with
            | Some e => e
            | None => EmptyString
            end in
          match strstr p "usb@" with
          | None => Some true
          | Some _ => scan_index fuel' line_end
          end
      end
  end.

(** [detect_csi_available()].  [cmd] is the result of [camera_cmd()],
    [pipe_ok] tells whether [pipe] succeeds and [rd] is what the single
    [read] of the helper's standard output delivers (empty when it
    returns a negative count); [None] only if the loop ran out of
    fuel. *)
Definition detect_csi_available (cmd : option string) (pipe_ok : bool)
  (rd : string) : option bool :=
  match cmd with
  | None => Some false
  | Some _ =>
      if negb pipe_ok then Some false
      else
        let buf := c_str (String.substring 0 (Z.to_nat 8191) rd) in
        match strstr buf "Available cameras" with
        | None => Some false
        | Some _ =>
            match strstr buf "usb@" with
            | Some _ => scan_index (S (String.length buf)) buf
            | None => Some true
            end
        end
  end.

End Detect.

(** ** The session: [main] after [parse_cfg] *)

Module Session.
Import CStr Config V4L2 Overlay Pipeline Detect.

Inductive thread_id := ThLog | ThStats.

(** The observable effects of a run, in the order in which they
    happen.  [EvSpawn] stands for a [fork] in [spawn_child], [EvKill]
    for a [kill] in [terminate_children] and [EvWait] for one of the
    two [waitpid] calls at the end of [main]; [EvRemoveDir] stands for
    the whole of [ensure_dir_remove] when [rm] does its work.  The
    helper processes that [command_exists] (through [system]),
    [detect_csi_available] and [ensure_dir_remove] start and wait for
    are no events: what they find out is an input of the run
    ([ffmpeg_exists], [camera_cmd], [csi_read], [rm_ok]). *)
Inductive event :=
| EvStdout (text : string)
| EvStderr (text : string)
| EvMkdtemp (dir : string)
| EvMkfifo (path : string)
| EvWriteFile (path content : string)
| EvSpawn (argv : list string) (pid : Z)
| EvThreadCreate (th : thread_id)
| EvSignal
| EvKill (pid : Z)
| EvWait (pid : Z)
| EvThreadJoin (th : thread_id)
| EvRemoveDir (dir : string).

(** What the two auxiliary threads do while [main] waits: the log reader
    receives bytes, the stats writer completes a cycle. *)
Inductive thread_step :=
| LogRead (bytes : string)
| StatsCycle (fs0 fs1 fs2 : Proc.procfs) (fopen_ok : bool).

(** When a termination signal is delivered, if at all: right after the
    handlers are installed (no child recorded yet) or while [main]
    waits for the children. *)
Inductive sig_point := SigStarting | SigRunning.

(** The outcomes of the system calls and external programs of one
    run. *)
Record env := mk_env
  { ffmpeg_exists : bool;
    camera_cmd : option string;
    csi_pipe_ok : bool;
    csi_read : string;
    devs : devices;
    glob_res : option (list string);
    mkdtemp_res : option string;
    mkfifo_ok : bool;
    fopen_stats_ok : bool;
    preview_pipe_ok : bool;
    preview_stderr_fd : Z;
    preview_fork : Z;
    fifo_open_ok : bool;
    cam_fork : Z;
    activity : list thread_step;
    signal : option sig_point;
    rm_ok : bool;
    scan_lf : string -> option Q }.

(** A computation either returns a value or leaves the process through
    [exit]; in both cases it has produced a trace. *)
Inductive result (A : Type) :=
| Ret (a : A)
| Exit (code : Z).
Arguments Ret {A} a.
Arguments Exit {A} code.

Definition M (A : Type) : Type := list event * result A.

Definition ret {A} (a : A) : M A := ([], Ret a).

Definition bind {A B} (m : M A) (f : A -> M B) : M B :=
  match m with
  | (t, Ret a) => let '(t', r) := f a in ((t ++ t')%list, r)
  | (t, Exit c) => (t, Exit c)
  end.

Definition emit (ev : event) : M unit := ([ev], Ret tt).

(** [die(fmt, ...)]: the message goes to stderr and the process exits
    with status 1.  Where the C message ends with [strerror(errno)], the
    model keeps the part before it. *)
Definition die {A} (msg : string) : M A :=
  ([EvStderr ("picam_bench: " ++ msg ++ nl)], Exit 1).

Definition when (b : bool) (m : M unit) : M unit :=
  if b then m else ret tt.

Notation "x <- m ;; k" := (bind m (fun x => k))
  (at level 61, m at next level, right associativity).
Notation "m ;;; k" := (bind m (fun _ => k))
  (at level 61, right associativity).

(** [child_t] *)
Record child_t := mk_child { pid : Z; stderr_fd : Z }.

(** [spawn_child], seen from the parent: [fork_res] is the value that
    [fork] returns to it. *)
Definition spawn_child (pipe_ok : bool) (pipe_fd : Z) (fork_res : Z)
  (argv : list string) (capture_stderr : bool) : M child_t :=
  if (capture_stderr && negb pipe_ok)%bool then die "pipe"
  else if fork_res <? 0 then die "fork"
  else
    emit (EvSpawn argv fork_res) ;;;
    ret (mk_child fork_res (if capture_stderr then pipe_fd else -1)).

Definition set_prev (ctx : ctx_t) (ch : child_t) : ctx_t :=
  mk_ctx (tmpdir ctx) (fifo_path ctx) (stats_path ctx) (cam_pid ctx)
    (pid ch) (stderr_fd ch) (running ctx) (overlay_disabled ctx)
    (width ctx) (height ctx) (fps ctx) (bitrate ctx).

Definition set_cam (ctx : ctx_t) (ch : child_t) : ctx_t :=
  mk_ctx (tmpdir ctx) (fifo_path ctx) (stats_path ctx) (pid ch)
    (prev_pid ctx) (prev_stderr_fd ctx) (running ctx) (overlay_disabled ctx)
    (width ctx) (height ctx) (fps ctx) (bitrate ctx).

Definition set_running (ctx : ctx_t) (b : bool) : ctx_t :=
  mk_ctx (tmpdir ctx) (fifo_path ctx) (stats_path ctx) (cam_pid ctx)
    (prev_pid ctx) (prev_stderr_fd ctx) b (overlay_disabled ctx)
    (width ctx) (height ctx) (fps ctx) (bitrate ctx).

Definition set_paths (ctx : ctx_t) (dir : string) : ctx_t :=
  mk_ctx dir (dir ++ "/video.h264") (dir ++ "/stats.txt") (cam_pid ctx)
    (prev_pid ctx) (prev_stderr_fd ctx) (running ctx) (overlay_disabled ctx)
    (width ctx) (height ctx) (fps ctx) (bitrate ctx).

(** [start_preview(ctx, title)] *)
Definition start_preview (e : env) (ctx : ctx_t) (title : string)
  : M ctx_t :=
  ch <- spawn_child (preview_pipe_ok e) (preview_stderr_fd e)
          (preview_fork e) (start_preview_argv ctx title) true ;;
  ret (set_prev ctx ch).

(** [start_csi_camera(ctx, width, height, fps, bitrate)] *)
Definition start_csi_camera (e : env) (ctx : ctx_t)
  (w h f b : Z) : M ctx_t :=
  match camera_cmd e with
  | None => die "libcamera-vid / rpicam-vid not found"
  | Some cmd =>
      if negb (fifo_open_ok e) then die "open fifo for write"
      else
        ch <- spawn_child true (-1) (cam_fork e)
                (start_csi_camera_argv cmd w h f b) false ;;
        ret (set_cam ctx ch)
  end.

(** [start_usb_ffmpeg(ctx, devnode, fs, enc)] *)
Definition start_usb_ffmpeg (e : env) (ctx : ctx_t) (devnode : string)
  (fs : fmt_support_t) (enc : encode_t) : M ctx_t :=
  ch <- spawn_child true (-1) (cam_fork e)
          (start_usb_ffmpeg_argv ctx devnode fs enc) false ;;
  ret (set_cam ctx ch).

(** [terminate_children], with [g_ctx] pointing to [ctx]. *)
Definition terminate_children (ctx : ctx_t) : M ctx_t :=
  emit EvSignal ;;;
  when (0 <? cam_pid ctx) (emit (EvKill (cam_pid ctx))) ;;;
  when (0 <? prev_pid ctx) (emit (EvKill (prev_pid ctx))) ;;;
  ret (set_running ctx false).

Definition deliver (e : env) (at_point : sig_point) (ctx : ctx_t)
  : M ctx_t :=
  match signal e, at_point with
  | Some SigStarting, SigStarting => terminate_children ctx
  | Some SigRunning, SigRunning => terminate_children ctx
  | _, _ => ret ctx
  end.

(** The two auxiliary threads, from their creation to the moment the
    session stops running: the log reader updates the shared state and
    the stats writer rewrites the status file from it.  The threads
    capture [ctx->cam_pid] and [ctx->prev_pid] as they are at creation. *)
Fixpoint run_threads (e : env) (ctx : ctx_t) (steps : list thread_step)
  (r : reader) : M unit :=
  match steps with
  | [] => ret tt
  | LogRead bytes :: rest =>
      run_threads e ctx rest (feed_bytes (scan_lf e) r bytes)
  | StatsCycle fs0 fs1 fs2 ok :: rest =>
      when ok (emit (EvWriteFile (stats_path ctx)
                       (stats_cycle ctx (shared r) fs0 fs1 fs2))) ;;;
      run_threads e ctx rest r
  end.

(** The text that [main] writes to the status file before any process
    is started. *)
Definition placeholder : string :=
  "FPS: 0.0" ++ nl ++ "RES: 0x0" ++ nl ++ "BitRate: 0" ++ nl
  ++ "CPU: 0%" ++ nl ++ "MEM: 0%" ++ nl.

(** [detect_csi_available()] in the environment [e]. *)
Definition csi_available (e : env) : bool :=
  match detect_csi_available (camera_cmd e) (csi_pipe_ok e) (csi_read e) with
  | Some b => b
  | None => false
  end.

(** The block "Decide source" of [main]: [(use_csi, usbnode, usbfmt)]. *)
Definition decide_source (e : env) (cfg : cfg_t)
  : M (bool * string * fmt_support_t) :=
  match source_mode cfg with
  | SRC_CSI =>
      if negb (csi_available e) then die "CSI camera not found"
      else ret (true, "", no_formats)
  | SRC_USBNODE =>
      if negb (v4l2_supports_capture (devs e) (source_node cfg))
      then die ("Invalid USB node: " ++ source_node cfg)
      else
        let usbnode := snprintf_s 128 (source_node cfg) in
        ret (false, usbnode, v4l2_enum_formats (devs e) usbnode)
  | SRC_AUTO =>
      if csi_available e then ret (true, "", no_formats)
      else
        match detect_usb (devs e) (glob_res e) 128 with
        | Some (node, fs) => ret (false, node, fs)
        | None =>
            die ("No supported camera found. "
                 ++ "Please connect a CSI module or USB camera.")
        end
  end.

(** The block "Decide encoding" of [main]. *)
Definition decide_encoding (cfg : cfg_t) : encode_t :=
  match encode_mode cfg with
  | ENC_AUTO => ENC_HARDWARE
  | m => m
  end.

(** The branch [if (list_only)] of [main]. *)
Definition list_cameras (e : env) : M Z :=
  emit (EvStdout ("=== Camera list ===" ++ nl)) ;;;
  emit (EvStdout ("CSI available: "
                  ++ (if csi_available e then "yes" else "no") ++ nl)) ;;;
  match detect_usb (devs e) (glob_res e) 128 with
  | Some (node, fs) =>
      emit (EvStdout ("USB capture: " ++ node ++ " (formats: "
                      ++ (if h264 fs then "H264 " else "")
                      ++ (if mjpg fs then "MJPG " else "")
                      ++ (if yuyv fs then "YUYV " else "") ++ ")" ++ nl))
  | None => emit (EvStdout ("USB capture: none" ++ nl))
  end ;;;
  ret 0.

(** [main] from the temporary directory on. *)
Definition session (e : env) (cfg : cfg_t) (have_cam_cmd use_csi : bool)
  (usbnode : string) (usbfmt : fmt_support_t) (enc : encode_t)
  (ctx0 : ctx_t) : M Z :=
  match mkdtemp_res e with
  | None => die "mkdtemp"
  | Some dir =>
      emit (EvMkdtemp dir) ;;;
      let ctx1 := set_paths ctx0 dir in
      (if mkfifo_ok e then emit (EvMkfifo (fifo_path ctx1))
       else die ("mkfifo(" ++ fifo_path ctx1 ++ ")")) ;;;
      when (fopen_stats_ok e)
        (emit (EvWriteFile (stats_path ctx1) placeholder)) ;;;
      ctx2 <- start_preview e ctx1
                (if use_csi then "PiCam Preview (CSI)"
                 else "USB Camera Preview") ;;
      ctx3 <- (if use_csi then
                 if negb have_cam_cmd
                 then die "rpicam-vid/libcamera-vid required for CSI"
                 else start_csi_camera e ctx2 (cfg_width cfg)
                        (cfg_height cfg) (cfg_fps cfg) (cfg_bitrate cfg)
               else
                 let node :=
                   match usbnode with
                   | EmptyString => snprintf_s 128 (source_node cfg)
                   | String _ _ => usbnode
                   end in
                 start_usb_ffmpeg e ctx2 node usbfmt enc) ;;
      let threads :=
        (negb (overlay_disabled ctx3) && (0 <=? prev_stderr_fd ctx3))%bool in
      when threads
        (emit (EvThreadCreate ThLog) ;;;
         emit (EvThreadCreate ThStats) ;;;
         if running ctx3
         then run_threads e ctx3 (activity e) (mk_reader "" (mk_ost 0 ""))
         else ret tt) ;;;
      ctx4 <- deliver e SigRunning ctx3 ;;
      when (0 <? cam_pid ctx4) (emit (EvWait (cam_pid ctx4))) ;;;
      when (0 <? prev_pid ctx4) (emit (EvWait (prev_pid ctx4))) ;;;
      when threads
        (emit (EvThreadJoin ThLog) ;;; emit (EvThreadJoin ThStats)) ;;;
      when (rm_ok e) (emit (EvRemoveDir (tmpdir ctx4))) ;;;
      ret 0
  end.

(** [main], after [parse_cfg] has produced [cfg], [list_only] and
    [no_overlay]. *)
Definition main (e : env) (cfg : cfg_t) (list_only no_overlay : bool)
  : M Z :=
  if negb (ffmpeg_exists e) then die "ffmpeg not found"
  else
    let have_cam_cmd :=
      match camera_cmd e with Some _ => true | None => false end in
    if list_only then list_cameras e
    else
      src <- decide_source e cfg ;;
      let '(use_csi, usbnode, usbfmt) := src in
      let enc := decide_encoding cfg in
      let ctx := mk_ctx "" "" "" 0 0 0 true no_overlay
                   (cfg_width cfg) (cfg_height cfg) (cfg_fps cfg)
                   (cfg_bitrate cfg) in
      ctx0 <- deliver e SigStarting ctx ;;
      session e cfg have_cam_cmd use_csi usbnode usbfmt enc ctx0.

Definition trace_of {A} (m : M A) : list event := fst m.

(** The exit status of the process. *)
Definition status_of (m : M Z) : Z :=
  match snd m with
  | Ret c => c
  | Exit c => c
  end.

(** *** The file system as the trace leaves it *)

Inductive node := Dir | Fifo | File (content : string).

Definition fsys := string -> option node.

Definition empty_fs : fsys := fun _ => None.

(** [p] is [dir] or lies below it. *)
Definition under (dir p : string) : bool :=
  (String.eqb dir p || String.prefix (dir ++ "/") p)%bool.

Definition put (f : fsys) (p : string) (n : node) : fsys :=
  fun q => if String.eqb p q then Some n else f q.

Definition apply_event (f : fsys) (ev : event) : fsys :=
  match ev with
  | EvMkdtemp d => put f d Dir
  | EvMkfifo p => put f p Fifo
  | EvWriteFile p c => put f p (File c)
  | EvRemoveDir d => fun q => if under d q then None else f q
  | _ => f
  end.

Definition fs_after (f : fsys) (t : list event) : fsys :=
  fold_left apply_event t f.

(** *** Predicates on computations *)

(** Every event of [m] satisfies [P], and if [m] returns, its value
    satisfies [Q]. *)
Definition holds {A} (P : event -> Prop) (Q : A -> Prop) (m : M A) : Prop :=
  Forall P (fst m)
  /\ match snd m with
     | Ret a => Q a
     | Exit _ => True
     end.

(** If [m] returns, the last thing it did was to remove [d]. *)
Definition ends_removed {A} (d : string) (m : M A) : Prop :=
  match snd m with
  | Ret _ => exists t, fst m = (t ++ [EvRemoveDir d])%list
  | Exit _ => True
  end.

(** An event that neither creates a thread nor changes the status file
    [sp], except by writing the placeholder into it. *)
Definition benign (sp : string) (ev : event) : Prop :=
  match ev with
  | EvWriteFile p c => p = sp /\ c = placeholder
  | EvThreadCreate _ => False
  | EvMkdtemp d => d <> sp
  | EvMkfifo p => p <> sp
  | _ => True
  end.






(** [ctx'] belongs to the same session as [ctx]: same paths, same
    overlay switch. *)
Definition same_session (ctx ctx' : ctx_t) : Prop :=
  tmpdir ctx' = tmpdir ctx
  /\ stats_path ctx' = stats_path ctx
  /\ overlay_disabled ctx' = overlay_disabled ctx.

End Session.

(** ** Reading the status file back *)

Module StatusFile.
Import CStr Overlay.

(** Every character of [s] satisfies [P]. *)
Fixpoint all_chars (P : ascii -> bool) (s : string) : bool :=
  match s with
  | EmptyString => true
  | String c rest => (P c && all_chars P rest)%bool
  end.

Definition not_space (c : ascii) : bool := negb (isspace c).

Definition no_lf (c : ascii) : bool := negb (Ascii.eqb c LF).

(** A decimal digit, a minus sign or a decimal point. *)
Definition numeric_char (c : ascii) : bool :=
  let n := nat_of_ascii c in
  ((Nat.leb 48 n && Nat.leb n 57) || Nat.eqb n 45 || Nat.eqb n 46)%bool.


(** The lines of a text: the pieces between line feeds; a line feed at
    the very end does not start a further line. *)
Fixpoint lines (s : string) : list string :=
  match s with
  | EmptyString => []
  | String c rest =>
      if Ascii.eqb c LF then EmptyString :: lines rest
      else
        match lines rest with
        | [] => [String c EmptyString]
        | l :: ls => String c l :: ls
        end
  end.

(** [Some v] when [s] is [pre] followed by [v]. *)
Fixpoint strip_prefix (pre s : string) : option string :=
  match pre, s with
  | EmptyString, _ => Some s
  | String a pre', String b s' =>
      if Ascii.eqb a b then strip_prefix pre' s' else None
  | String _ _, EmptyString => None
  end.

(** The value of the first line that carries [label]: the rest of the
    line after the label and the blank that follows it. *)
Fixpoint field (label : string) (ls : list string) : option string :=
  match ls with
  | [] => None
  | l :: rest =>
      match strip_prefix (label ++ " ") l with
      | Some v => Some v
      | None => field label rest
      end
  end.

(** The labeled values of a status file. *)
Record labeled := mk_labeled
  { l_fps : option string;
    l_res : option string;
    l_bitrate : option string;
    l_cpu : option string;
    l_mem_mb : option string }.

(** Parsing a status file by its fixed line labels, as the
    specification words the round trip. *)
Definition parse_status (text : string) : labeled :=
  let ls := lines text in
  mk_labeled (field "FPS:" ls) (field "RES:" ls) (field "BitRate:" ls)
    (field "CPU:" ls) (field "MEM_MB:" ls).

(** The five labeled lines the specification names, for given values. *)
Definition five_labeled_lines (fps : Q) (w h : Z) (br : string)
  (cpu mem : Q) : list string :=
  [ "FPS: " ++ fmt_1f fps;
    "RES: " ++ fmt_d w ++ "x" ++ fmt_d h;
    "BitRate: " ++ br;
    "CPU: " ++ fmt_1f cpu ++ "%";
    "MEM_MB: " ++ fmt_1f mem ].

End StatusFile.

(** ** Concrete inputs used in the statements below *)

Module Examples.
Import CStr Config V4L2 Overlay Pipeline Detect Session.

Definition ticks (u s r : Z) : option Proc.pid_stat :=
  Some (Proc.mk_pid_stat u s r).

Definition only_user (u : Z) : option Proc.cpu_tot_t :=
  Some (Proc.mk_cpu_tot u 0 0 0 0 0 0).

(** Listings of the camera helper. *)
Definition listing_csi_then_usb : string :=
  "Available cameras" ++ nl
  ++ "Index 0 : imx219 (/base/soc/i2c0mux/i2c@1/imx219@10)" ++ nl
  ++ "Index 1 : HD Webcam (/base/scb/pcie/usb@0,0-1:1.0-046d:0825)" ++ nl.
Definition listing_usb_then_csi : string :=
  "Available cameras" ++ nl
  ++ "Index 0 : HD Webcam (/base/scb/pcie/usb@0,0-1:1.0-046d:0825)" ++ nl
  ++ "Index 1 : imx219 (/base/soc/i2c0mux/i2c@1/imx219@10)" ++ nl.
Definition listing_usb_only : string :=
  "Available cameras" ++ nl
  ++ "Index 0 : HD Webcam (/base/scb/pcie/usb@0,0-1:1.0-046d:0825)" ++ nl
  ++ "Index 1 : C920 (/base/scb/pcie/usb@0,0-2:1.0-046d:082d)" ++ nl.

(** A running session: camera process 11 and preview process 12 each
    use 10 of 100 elapsed ticks and hold 2 MB and 1 MB. *)
Definition sample_ctx : ctx_t :=
  mk_ctx "/tmp/picamc.a1b2c3" "/tmp/picamc.a1b2c3/video.h264"
    "/tmp/picamc.a1b2c3/stats.txt" 11 12 5 true false 1280 720 30 4000000.
Definition busy0 : Proc.procfs :=
  Proc.mk_procfs (only_user 100)
    (fun p => if p =? 11 then ticks 50 0 2048
              else if p =? 12 then ticks 10 0 1024 else None).
Definition busy1 : Proc.procfs :=
  Proc.mk_procfs (only_user 200)
    (fun p => if p =? 11 then ticks 60 0 2048
              else if p =? 12 then ticks 20 0 1024 else None).
Definition sample_state : overlay_state_t :=
  mk_ost (25 # 1) "12.5kbits/s".

(** One USB camera at [/dev/video0] that offers MJPEG and YUYV. *)
Definition webcam : device :=
  mk_device (Some (mk_cap "uvcvideo" "HD Webcam" 0x84a00001 0x04200001))
    true [V4L2_PIX_FMT_MJPEG; V4L2_PIX_FMT_YUYV] [].
Definition absent : device := mk_device None false [] [].
Definition one_webcam : devices :=
  fun n => if String.eqb n "/dev/video0" then webcam else absent.

(** A board with the codec node [/dev/video10], the image-signal-
    processor node [/dev/video13] and a webcam at [/dev/video0]. *)
Definition codec_node : device :=
  mk_device (Some (mk_cap "bcm2835-codec" "bcm2835-codec-decode"
                     0x84204000 0x04204000)) true [] [].
Definition isp_node : device :=
  mk_device (Some (mk_cap "bcm2835-isp" "bcm2835-isp" 0x84200001
                     0x04200001)) true [] [].
Definition pi_devices : devices :=
  fun n => if String.eqb n "/dev/video0" then webcam
           else if String.eqb n "/dev/video10" then codec_node
           else if String.eqb n "/dev/video13" then isp_node
           else absent.

(** The second device path of the same webcam, which delivers metadata
    and no pictures: the capabilities of the physical device include
    video capture, those of the path itself do not.  The webcam has
    got the numbers 9 and 10, and [glob] returns the paths sorted as
    strings. *)
Definition uvc_meta : device :=
  mk_device (Some (mk_cap "uvcvideo" "HD Webcam" 0x84a00001 0x04a00000))
    true [] [].
Definition webcam_9_10 : devices :=
  fun n => if String.eqb n "/dev/video9" then webcam
           else if String.eqb n "/dev/video10" then uvc_meta
           else absent.
Definition glob_9_10 : list string := [ "/dev/video10"; "/dev/video9" ].

(** A configuration that asks for the overlay in the top-right corner. *)
Definition cfg_top_right : cfg_t :=
  mk_cfg "h264_sdl_preview" 1280 720 30 4000000 "top-right" SRC_AUTO ""
    ENC_AUTO 1.

(** A system with ffmpeg, no onboard camera helper and one webcam, on
    which every call succeeds; the preview reports one progress line
    and the stats writer completes one cycle. *)
Definition env_ok : env :=
  mk_env true None true "" one_webcam (Some ["/dev/video0"])
    (Some "/tmp/picamc.a1b2c3") true true true 5 12 true 11
    [ LogRead ("frame= 10 fps= 25 q=1.0 bitrate= 12.5kbits/s"
               ++ String CR "");
      StatsCycle busy0 busy1 busy1 true ]
    None true (fun _ => Some (25 # 1)).

(** The same system when [mkfifo] fails. *)
Definition env_mkfifo_fails : env :=
  mk_env true None true "" one_webcam (Some ["/dev/video0"])
    (Some "/tmp/picamc.a1b2c3") false true true 5 12 true 11
    [] None true (fun _ => None).

End Examples.

From Stdlib Require DecimalPos DecimalZ.

(** ** Numeric conversions of [scanf], [atoi] and friends *)

Module Scan.
Import CStr.

(** The integer types the program converts text into. *)
Inductive ctype := TInt | TLong | TULLong.

(** What the C library stores when a numeral does not fit the target
    type.  The C standard leaves this open, so it is a parameter of
    every conversion: [policy t v] is the value stored for the
    mathematical value [v] that [t] cannot hold. *)
Definition overflow_policy := ctype -> Z -> Z.

Definition is_digit (c : ascii) : bool :=
  let n := nat_of_ascii c in (Nat.leb 48 n && Nat.leb n 57)%bool.

Definition digit_value (c : ascii) : Z := Z.of_nat (nat_of_ascii c) - 48.

(** The longest run of decimal digits at the start of [s], read as a
    number on top of [acc]; with the rest of the text. *)
Fixpoint scan_digits (acc : Z) (s : string) : Z * string :=
  match s with
  | EmptyString => (acc, s)
  | String c rest =>
      if is_digit c then scan_digits (10 * acc + digit_value c) rest
      else (acc, s)
  end.

(** The number a digit sequence denotes on top of [acc], read from the
    most significant digit. *)
Fixpoint accum (d : Decimal.uint) (acc : Z) : Z :=
  match d with
  | Decimal.Nil => acc
  | Decimal.D0 d => accum d (10 * acc + 0)
  | Decimal.D1 d => accum d (10 * acc + 1)
  | Decimal.D2 d => accum d (10 * acc + 2)
  | Decimal.D3 d => accum d (10 * acc + 3)
  | Decimal.D4 d => accum d (10 * acc + 4)
  | Decimal.D5 d => accum d (10 * acc + 5)
  | Decimal.D6 d => accum d (10 * acc + 6)
  | Decimal.D7 d => accum d (10 * acc + 7)
  | Decimal.D8 d => accum d (10 * acc + 8)
  | Decimal.D9 d => accum d (10 * acc + 9)
  end.

(** The text starts with a digit. *)
Definition starts_numeral (s : string) : bool :=
  match s with
  | EmptyString => false
  | String c _ => is_digit c
  end.

(** The text does not go on with a digit. *)
Definition ends_numeral (s : string) : bool :=
  match s with
  | EmptyString => true
  | String c _ => negb (is_digit c)
  end.

(** An optionally signed decimal numeral after optional white space, as
    [%d], [%ld], [%llu] and [strtol] read it: [Some (negative, magnitude,
    rest)], or [None] when no digit follows the optional sign. *)
Definition scan_numeral (s : string) : option (bool * Z * string) :=
  let s1 := skip_space s in
  let '(neg, s2) :=
    match s1 with
    | String c rest =>
        if Ascii.eqb c "-" then (true, rest)
        else if Ascii.eqb c "+" then (false, rest)
        else (false, s1)
    | EmptyString => (false, s1)
    end in
  match s2 with
  | String c _ =>
      if is_digit c then
        let '(v, rest) := scan_digits 0 s2 in Some (neg, v, rest)
      else None
  | EmptyString => None
  end.

Definition INT_MAX : Z := 2147483647.
Definition INT_MIN : Z := -2147483648.

(** Storing a signed value: [int], and [long] within the range every
    platform gives it. *)
Definition store_signed (pol : overflow_policy) (t : ctype) (v : Z) : Z :=
  if ((INT_MIN <=? v) && (v <=? INT_MAX))%bool then v else pol t v.

(** Storing into an [unsigned long long]: a magnitude below 2^64 is
    negated modulo 2^64 when the numeral has a minus sign. *)
Definition store_ull (pol : overflow_policy) (neg : bool) (v : Z) : Z :=
  if v <? Proc.two64 then
    (if neg then Proc.u64 (- v) else v)
  else pol TULLong (if neg then - v else v).

(** One [%d] (or [%ld]) conversion: the value stored and the rest of the
    input. *)
Definition scan_d (pol : overflow_policy) (t : ctype) (s : string)
  : option (Z * string) :=
  match scan_numeral s with
  | Some (neg, v, rest) =>
      Some (store_signed pol t (if neg then - v else v), rest)
  | None => None
  end.

(** One [%llu] conversion. *)
Definition scan_llu (pol : overflow_policy) (s : string)
  : option (Z * string) :=
  match scan_numeral s with
  | Some (neg, v, rest) => Some (store_ull pol neg v, rest)
  | None => None
  end.

(** [atoi(s)]: 0 when no number can be read. *)
Definition atoi (pol : overflow_policy) (s : string) : Z :=
  match scan_d pol TInt s with
  | Some (v, _) => v
  | None => 0
  end.

(** The values that a format of [n] conversions [%llu], separated by
    blanks, stores before the first conversion that fails. *)
Fixpoint scan_llus (pol : overflow_policy) (n : nat) (s : string) : list Z :=
  match n with
  | O => []
  | S n' =>
      match scan_llu pol s with
      | Some (v, rest) => v :: scan_llus pol n' rest
      | None => []
      end
  end.

End Scan.

(** ** Reading the accounting files *)

Module ProcFiles.
Import CStr Scan Overlay.

(** [fgets(buf, size, f)] on the remaining input: the characters stored
    and what is left; [None] at the end of the input.  [room] is
    [size - 1]. *)
Fixpoint fgets_from (room : nat) (input : string) : string * string :=
  match room, input with
  | S room', String c rest =>
      if Ascii.eqb c LF then (String c EmptyString, rest)
      else let '(l, r) := fgets_from room' rest in (String c l, r)
  | _, _ => (EmptyString, input)
  end.

Definition fgets (size : nat) (input : string) : option (string * string) :=
  match input with
  | EmptyString => None
  | String _ _ => Some (fgets_from (size - 1) input)
  end.

(** [read_proc_stat_total(t)].  [file] is the content of [/proc/stat]
    ([None]: it cannot be opened) and [t] what the caller's structure
    holds before the call; [sscanf] overwrites the leading fields it can
    convert and its result is not looked at. *)
Definition read_proc_stat_total (pol : overflow_policy)
  (file : option string) (t : Proc.cpu_tot_t) : option Proc.cpu_tot_t :=
  match file with
  | None => None
  | Some content =>
      match fgets (Z.to_nat 512) content with
      | None => None
      | Some (buf, _) =>
          let line := c_str buf in
          let vals :=
            match StatusFile.strip_prefix "cpu" line with
            | Some rest => scan_llus pol 7 rest
            | None => []
            end in
          let field (k : nat) (old : Z) := nth k vals old in
          Some (Proc.mk_cpu_tot
                  (field 0%nat (Proc.user t)) (field 1%nat (Proc.nice t))
                  (field 2%nat (Proc.sys t)) (field 3%nat (Proc.idle t))
                  (field 4%nat (Proc.iow t)) (field 5%nat (Proc.irq t))
                  (field 6%nat (Proc.sirq t)))
      end
  end.

(** [strrchr(buf, c)] for a character other than NUL, as a pointer into
    the whole buffer: the last occurrence before the first NUL. *)
Fixpoint strrchr (buf : string) (c : ascii) : option string :=
  match buf with
  | EmptyString => None
  | String d rest =>
      if Ascii.eqb d NUL then None
      else
        match strrchr rest c with
        | Some r => Some r
        | None => if Ascii.eqb d c then Some buf else None
        end
  end.

(** The successive results of [fgets(sb, 512, sf)] until it fails. *)
Fixpoint fgets_all (room left : nat) (input : string) : list string :=
  match input with
  | EmptyString => []
  | String c rest =>
      if (Ascii.eqb c LF || Nat.eqb left 1)%bool
      then String c EmptyString :: fgets_all room room rest
      else
        match fgets_all room (Nat.pred left) rest with
        | [] => [String c EmptyString]
        | l :: ls => String c l :: ls
        end
  end.

(** The loop over [/proc/<pid>/status]: the value of the first chunk
    that starts with [VmRSS:], 0 when there is none or no number
    follows. *)
Fixpoint find_vmrss (pol : overflow_policy) (chunks : list string) : Z :=
  match chunks with
  | [] => 0
  | sb :: rest =>
      if String.prefix "VmRSS:" sb then
        match scan_d pol TLong (c_str (advance 6 sb)) with
        | Some (kb, _) => kb
        | None => 0
        end
      else find_vmrss pol rest
  end.

Definition vmrss (pol : overflow_policy) (status : option string) : Z :=
  match status with
  | None => 0
  | Some content =>
      find_vmrss pol (fgets_all (Z.to_nat 511) (Z.to_nat 511) content)
  end.

(** [read_proc_pid_stat(pid, &utime, &stime, &rss_kb)] on the contents
    of the two files of the process.  [stat] is the content of
    [/proc/<pid>/stat] and [status] that of [/proc/<pid>/status] ([None]:
    the file cannot be opened); [tail] is what the local array [line]
    holds behind the terminator that the function stores after the
    bytes it has read. *)
Definition read_proc_pid_stat (pol : overflow_policy)
  (stat : option string) (tail : string) (status : option string)
  : option Proc.pid_stat :=
  match stat with
  | None => None
  | Some content =>
      let text := String.substring 0 (Z.to_nat 4095) content in
      let line := text ++ String NUL tail in
      match strrchr line ")" with
      | None => None
      | Some rp =>
          let p := advance 2 rp in
          let vals := scan_llus pol 12 (c_str p) in
          if (List.length vals <? 12)%nat then None
          else
            Some (Proc.mk_pid_stat (nth 10 vals 0) (nth 11 vals 0)
                    (vmrss pol status))
      end
  end.

(** The user and system ticks of a process as proc(5) documents the
    [stat] file, and as the comments of [read_proc_pid_stat] intend
    ("skip space and state", "14=utime, 15=stime"): after the closing
    parenthesis of the command name come a blank, the state letter and
    a blank, then the fields 4 to 13, and [utime] and [stime]. *)
Definition documented_ticks (pol : overflow_policy) (text : string)
  : option (Z * Z) :=
  match strrchr text ")" with
  | None => None
  | Some rp =>
      let vals := scan_llus pol 12 (c_str (advance 4 rp)) in
      if (List.length vals <? 12)%nat then None
      else Some (nth 10 vals 0, nth 11 vals 0)
  end.

Definition is_letter (c : ascii) : bool :=
  let n := nat_of_ascii c in
  ((Nat.leb 65 n && Nat.leb n 90) || (Nat.leb 97 n && Nat.leb n 122))%bool.

Definition not_nul (c : ascii) : bool := negb (Ascii.eqb c NUL).
Definition not_rparen (c : ascii) : bool := negb (Ascii.eqb c ")").

(** The layout the kernel gives [/proc/<pid>/stat]: the process id and
    the command name in parentheses, a blank, the one-letter process
    state, and the numeric fields; only the command name can contain a
    closing parenthesis. *)
Definition kernel_stat (text : string) : Prop :=
  exists head st rest,
    text = head ++ ") " ++ String st rest
    /\ StatusFile.all_chars not_nul head = true
    /\ is_letter st = true
    /\ StatusFile.all_chars not_rparen rest = true
    /\ (String.length text <= Z.to_nat 4095)%nat.

(** The first line of [/proc/stat] as the kernel prints it, for given
    counters; [rest] stands for the further counters of the line. *)
Definition cpu_line (u n s i w q sq : Z) (rest : string) : string :=
  "cpu  " ++ fmt_d u ++ " " ++ fmt_d n ++ " " ++ fmt_d s ++ " "
  ++ fmt_d i ++ " " ++ fmt_d w ++ " " ++ fmt_d q ++ " " ++ fmt_d sq ++ rest.

(** The accounting files of one process at one read point. *)
Record pid_files := mk_pid_files
  { f_stat : option string; f_tail : string; f_status : option string }.

(** The accounting data that the two readers get out of the files at
    one read point. *)
Definition mount (pol : overflow_policy) (proc_stat : option string)
  (t : Proc.cpu_tot_t) (files : Z -> pid_files) : Proc.procfs :=
  Proc.mk_procfs (read_proc_stat_total pol proc_stat t)
    (fun pid =>
       let f := files pid in
       read_proc_pid_stat pol (f_stat f) (f_tail f) (f_status f)).

(** Files as a Linux kernel presents them: the [stat] file is missing
    (no such process) or has the kernel's layout. *)
Definition kernel_files (f : pid_files) : Prop :=
  match f_stat f with
  | None => True
  | Some text => kernel_stat text
  end.

End ProcFiles.

(** ** Command line *)

Module Cli.
Import CStr Scan Config V4L2 Overlay Session.

Definition DEFAULT_METHOD : string := "h264_sdl_preview".
Definition DEFAULT_RESOLUTION_W : Z := 1280.
Definition DEFAULT_RESOLUTION_H : Z := 720.
Definition DEFAULT_FPS : Z := 30.
Definition DEFAULT_BITRATE : Z := 4000000.
Definition DEFAULT_SOURCE : string := "auto".
Definition DEFAULT_ENCODE : string := "auto".

(** The text that [usage(prog)] prints to stderr. *)
Definition usage_text (prog : string) : string :=
  "Usage: " ++ prog ++ " [options]" ++ nl
  ++ "  -m, --method <name>          (default " ++ DEFAULT_METHOD ++ ")" ++ nl
  ++ "  -r, --resolution WxH         (default "
  ++ fmt_d DEFAULT_RESOLUTION_W ++ "x" ++ fmt_d DEFAULT_RESOLUTION_H
  ++ ")" ++ nl
  ++ "  -f, --fps <num>              (default " ++ fmt_d DEFAULT_FPS
  ++ ")" ++ nl
  ++ "  -b, --bitrate <bits>         (default " ++ fmt_d DEFAULT_BITRATE
  ++ ")" ++ nl
  ++ "  -c, --corner <pos>           "
  ++ "top-left|top-right|bottom-left|bottom-right" ++ nl
  ++ "  -s, --source <auto|csi|/dev/videoN> (default " ++ DEFAULT_SOURCE
  ++ ")" ++ nl
  ++ "  -e, --encode <auto|software|hardware> (default " ++ DEFAULT_ENCODE
  ++ ")" ++ nl
  ++ "      --list-cameras" ++ nl
  ++ "      --no-menu                (ignored; for compatibility)" ++ nl
  ++ "      --no-overlay             (skip drawtext + stats thread)" ++ nl
  ++ "  -h, --help" ++ nl.

(** [parse_res(s, &w, &h)]: the pair stored when it returns. *)
Definition parse_res (pol : overflow_policy) (s : string) : M (Z * Z) :=
  let invalid := die ("Invalid resolution '" ++ s ++ "'") in
  match scan_d pol TInt s with
  | Some (w, String c r) =>
      if Ascii.eqb c "x" then
        match scan_d pol TInt r with
        | Some (h, _) =>
            if ((w <=? 0) || (h <=? 0))%bool then invalid else ret (w, h)
        | None => invalid
        end
      else invalid
  | _ => invalid
  end.

(** What [parse_cfg] fills in: [cfg], [list_only] and [no_overlay]. *)
Record parsed := mk_parsed
  { p_cfg : cfg_t; p_list_only : bool; p_no_overlay : bool }.

Definition defaults : parsed :=
  mk_parsed
    (mk_cfg (snprintf_s 64 DEFAULT_METHOD) DEFAULT_RESOLUTION_W
       DEFAULT_RESOLUTION_H DEFAULT_FPS DEFAULT_BITRATE
       (snprintf_s 32 DEFAULT_CORNER) SRC_AUTO "" ENC_AUTO 1)
    false false.

Definition set_method (c : cfg_t) (v : string) : cfg_t :=
  mk_cfg v (cfg_width c) (cfg_height c) (cfg_fps c) (cfg_bitrate c)
    (corner c) (source_mode c) (source_node c) (encode_mode c) (skip_menu c).

Definition set_res (c : cfg_t) (w h : Z) : cfg_t :=
  mk_cfg (method c) w h (cfg_fps c) (cfg_bitrate c)
    (corner c) (source_mode c) (source_node c) (encode_mode c) (skip_menu c).

Definition set_fps (c : cfg_t) (v : Z) : cfg_t :=
  mk_cfg (method c) (cfg_width c) (cfg_height c) v (cfg_bitrate c)
    (corner c) (source_mode c) (source_node c) (encode_mode c) (skip_menu c).

Definition set_bitrate (c : cfg_t) (v : Z) : cfg_t :=
  mk_cfg (method c) (cfg_width c) (cfg_height c) (cfg_fps c) v
    (corner c) (source_mode c) (source_node c) (encode_mode c) (skip_menu c).

Definition set_corner (c : cfg_t) (v : string) : cfg_t :=
  mk_cfg (method c) (cfg_width c) (cfg_height c) (cfg_fps c) (cfg_bitrate c)
    v (source_mode c) (source_node c) (encode_mode c) (skip_menu c).

Definition set_source (c : cfg_t) (m : source_t) : cfg_t :=
  mk_cfg (method c) (cfg_width c) (cfg_height c) (cfg_fps c) (cfg_bitrate c)
    (corner c) m (source_node c) (encode_mode c) (skip_menu c).

Definition set_source_node (c : cfg_t) (v : string) : cfg_t :=
  mk_cfg (method c) (cfg_width c) (cfg_height c) (cfg_fps c) (cfg_bitrate c)
    (corner c) SRC_USBNODE v (encode_mode c) (skip_menu c).

Definition set_encode (c : cfg_t) (m : encode_t) : cfg_t :=
  mk_cfg (method c) (cfg_width c) (cfg_height c) (cfg_fps c) (cfg_bitrate c)
    (corner c) (source_mode c) (source_node c) m (skip_menu c).

Definition on_cfg (f : cfg_t -> cfg_t) (st : parsed) : parsed :=
  mk_parsed (f (p_cfg st)) (p_list_only st) (p_no_overlay st).

Definition is_one_of (a x y : string) : bool :=
  (streq a x || streq a y)%bool.

(** The branches of the loop of [parse_cfg] that read a value after
    the option: what they do with the value [v]. *)
Definition with_value (pol : overflow_policy) (a v : string) (st : parsed)
  : option (M parsed) :=
  if is_one_of a "-m" "--method" then
    Some (ret (on_cfg (fun c => set_method c (snprintf_s 64 v)) st))
  else if is_one_of a "-r" "--resolution" then
    Some (wh <- parse_res pol v ;;
          ret (on_cfg (fun c => set_res c (fst wh) (snd wh)) st))
  else if is_one_of a "-f" "--fps" then
    Some (ret (on_cfg (fun c => set_fps c (atoi pol v)) st))
  else if is_one_of a "-b" "--bitrate" then
    Some (ret (on_cfg (fun c => set_bitrate c (atoi pol v)) st))
  else if is_one_of a "-c" "--corner" then
    Some (ret (on_cfg (fun c => set_corner c (snprintf_s 32 v)) st))
  else if is_one_of a "-s" "--source" then
    Some (if streq v "auto" then ret (on_cfg (fun c => set_source c SRC_AUTO) st)
          else if streq v "csi"
          then ret (on_cfg (fun c => set_source c SRC_CSI) st)
          else if has_prefix "/dev/video" v
          then ret (on_cfg (fun c => set_source_node c (snprintf_s 128 v)) st)
          else die ("invalid --source '" ++ v ++ "'"))
  else if is_one_of a "-e" "--encode" then
    Some (if streq v "auto" then ret (on_cfg (fun c => set_encode c ENC_AUTO) st)
          else if streq v "software"
          then ret (on_cfg (fun c => set_encode c ENC_SOFTWARE) st)
          else if streq v "hardware"
          then ret (on_cfg (fun c => set_encode c ENC_HARDWARE) st)
          else die ("invalid --encode '" ++ v ++ "'"))
  else None.

(** The option reads a value. *)
Definition takes_value (a : string) : bool :=
  (is_one_of a "-m" "--method" || is_one_of a "-r" "--resolution"
   || is_one_of a "-f" "--fps" || is_one_of a "-b" "--bitrate"
   || is_one_of a "-c" "--corner" || is_one_of a "-s" "--source"
   || is_one_of a "-e" "--encode")%bool.

(** The loop of [parse_cfg] over [argv[1]], [argv[2]], ... *)
Fixpoint parse_args (pol : overflow_policy) (prog : string) (st : parsed)
  (args : list string) : M parsed :=
  match args with
  | [] => ret st
  | a :: rest =>
      if is_one_of a "-h" "--help" then
        ([EvStderr (usage_text prog)], Exit 0)
      else if takes_value a then
        match rest with
        | [] => die "missing value"
        | v :: rest' =>
            match with_value pol a v st with
            | Some step => st' <- step ;; parse_args pol prog st' rest'
            | None => die ("unknown arg: " ++ a)
            end
        end
      else if streq a "--list-cameras" then
        parse_args pol prog (mk_parsed (p_cfg st) true (p_no_overlay st)) rest
      else if streq a "--no-menu" then parse_args pol prog st rest
      else if streq a "--no-overlay" then
        parse_args pol prog (mk_parsed (p_cfg st) (p_list_only st) true) rest
      else die ("unknown arg: " ++ a)
  end.

(** [parse_cfg(argc, argv, &cfg, &list_only, &no_overlay)] *)
Definition parse_cfg (pol : overflow_policy) (argv : list string) : M parsed :=
  match argv with
  | [] => ret defaults
  | prog :: args => parse_args pol prog defaults args
  end.

(** The program: [main(argc, argv)]. *)
Definition picam_bench (e : env) (pol : overflow_policy)
  (argv : list string) : M Z :=
  st <- parse_cfg pol argv ;;
  main e (p_cfg st) (p_list_only st) (p_no_overlay st).

(** The invariants of a configuration that [parse_cfg] returns. *)
Definition well_formed (c : cfg_t) : Prop :=
  0 < cfg_width c
  /\ 0 < cfg_height c
  /\ (String.length (method c) < 64)%nat
  /\ (String.length (corner c) < 32)%nat
  /\ (String.length (source_node c) < 128)%nat
  /\ (source_mode c = SRC_USBNODE ->
      has_prefix "/dev/video" (source_node c) = true).

End Cli.

(** ** Lines of the progress stream *)

Module LogLines.
Import CStr Overlay.

(** Neither a carriage return nor a line feed. *)
Definition not_eol (c : ascii) : bool :=
  negb (Ascii.eqb c CR || Ascii.eqb c LF)%bool.

(** The capacity of the local buffer [line] of the log reader. *)
Definition LINE_MAX : nat := Z.to_nat 8191.

(** What the log reader has in [line] when a line of the stream is
    complete: at most [LINE_MAX] characters, up to the first NUL. *)
Definition kept (l : string) : string :=
  c_str (String.substring 0 LINE_MAX l).

(** A stream made of the given lines, each closed by the terminator
    paired with it. *)
Fixpoint stream (ls : list (string * ascii)) : string :=
  match ls with
  | [] => EmptyString
  | (l, term) :: rest => l ++ String term (stream rest)
  end.

(** Every line is free of terminators and is closed by one. *)
Fixpoint proper (ls : list (string * ascii)) : bool :=
  match ls with
  | [] => true
  | (l, term) :: rest =>
      (StatusFile.all_chars not_eol l && negb (not_eol term)
       && proper rest)%bool
  end.

End LogLines.

(** ** The order of the effects of a run *)

Module Protocol.
Import Session.

(** What a run has done so far, as far as the order of its effects is
    concerned: the temporary directory it made, whether the named pipe
    exists, the process ids [spawn_child] has returned, those [main]
    has called [waitpid] for, and whether the directory has been
    removed. *)
Record mstate := mk_mstate
  { m_dir : option string;
    m_fifo : bool;
    m_children : list Z;
    m_waited : list Z;
    m_removed : bool }.

Definition initial : mstate := mk_mstate None false [] [] false.

Definition is_child (s : mstate) (p : Z) : bool :=
  existsb (Z.eqb p) (m_children s).

(** Every child with a positive process id has been waited for. *)
Definition all_waited (s : mstate) : bool :=
  forallb (fun p => ((p <=? 0) || existsb (Z.eqb p) (m_waited s))%bool)
    (m_children s).

(** The effect [ev] is in order after what has happened so far; the
    state after it.
    - The directory is made once; pipe and status file lie in it.
    - [spawn_child] starts a process only while the pipe exists, and
      at most two.
    - Threads are created only after both processes were started.
    - [kill] and the [waitpid] of [main] go to a positive process id
      that [spawn_child] has returned.
    - The directory is removed once, after [waitpid] was called for
      every child, and nothing is written or started afterwards. *)
Definition step (s : mstate) (ev : event) : option mstate :=
  match ev with
  | EvStdout _ | EvStderr _ | EvSignal | EvThreadJoin _ => Some s
  | EvMkdtemp d =>
      match m_dir s with
      | None =>
          Some (mk_mstate (Some d) (m_fifo s) (m_children s) (m_waited s)
                  (m_removed s))
      | Some _ => None
      end
  | EvMkfifo p =>
      match m_dir s with
      | Some d =>
          if (String.eqb p (d ++ "/video.h264") && negb (m_removed s))%bool
          then Some (mk_mstate (m_dir s) true (m_children s) (m_waited s)
                       (m_removed s))
          else None
      | None => None
      end
  | EvWriteFile p _ =>
      match m_dir s with
      | Some d =>
          if (String.eqb p (d ++ "/stats.txt") && negb (m_removed s))%bool
          then Some s else None
      | None => None
      end
  | EvSpawn _ p =>
      if (m_fifo s && negb (m_removed s)
          && (List.length (m_children s) <? 2)%nat)%bool
      then Some (mk_mstate (m_dir s) (m_fifo s) (p :: m_children s)
                   (m_waited s) (m_removed s))
      else None
  | EvThreadCreate _ =>
      if (negb (m_removed s) && (List.length (m_children s) =? 2)%nat)%bool
      then Some s else None
  | EvKill p =>
      if ((0 <? p) && is_child s p)%bool then Some s else None
  | EvWait p =>
      if ((0 <? p) && is_child s p)%bool
      then Some (mk_mstate (m_dir s) (m_fifo s) (m_children s)
                   (p :: m_waited s) (m_removed s))
      else None
  | EvRemoveDir d =>
      match m_dir s with
      | Some d' =>
          if (String.eqb d d' && negb (m_removed s) && all_waited s)%bool
          then Some (mk_mstate (m_dir s) (m_fifo s) (m_children s)
                       (m_waited s) true)
          else None
      | None => None
      end
  end.

(** The trace [t] is in order from the state [s] on. *)
Fixpoint accepts (s : mstate) (t : list event) : option mstate :=
  match t with
  | [] => Some s
  | ev :: rest =>
      match step s ev with
      | Some s' => accepts s' rest
      | None => None
      end
  end.

(** From a state that satisfies [P] the trace of [m] is in order, and
    if [m] returns [a], the state reached satisfies [Q a]. *)
Definition triple {A} (P : mstate -> Prop) (m : M A)
  (Q : mstate -> A -> Prop) : Prop :=
  forall s, P s ->
    exists s', accepts s (fst m) = Some s'
               /\ match snd m with
                  | Ret a => Q s' a
                  | Exit _ => True
                  end.

(** The state of a session that has its directory [dir] and its pipe,
    has started the processes [ch], and has removed nothing. *)
Definition running_with (dir : string) (ch : list Z) (s : mstate) : Prop :=
  m_dir s = Some dir /\ m_fifo s = true /\ m_children s = ch
  /\ m_removed s = false.

Definition is_spawn (ev : event) : bool :=
  match ev with
  | EvSpawn _ _ => true
  | _ => false
  end.

(** The state [s] is backed by the events [h] that led to it. *)
Definition backed (s : mstate) (h : list event) : Prop :=
  (forall d, m_dir s = Some d -> In (EvMkdtemp d) h)
  /\ (m_fifo s = true ->
      exists d, m_dir s = Some d /\ In (EvMkfifo (d ++ "/video.h264")) h)
  /\ (forall p, In p (m_children s) -> exists a, In (EvSpawn a p) h)
  /\ (m_removed s = false -> forall d, ~ In (EvRemoveDir d) h).

(** The state [s] has missed no [fork] of [h] and no [waitpid] it
    records is made up. *)
Definition reaped (s : mstate) (h : list event) : Prop :=
  (forall a p, In (EvSpawn a p) h -> In p (m_children s))
  /\ (forall p, In p (m_waited s) -> In (EvWait p) h)
  /\ List.length (filter is_spawn h) = List.length (m_children s).

(** Effects that need the temporary directory. *)
Definition uses_dir (ev : event) : bool :=
  match ev with
  | EvMkfifo _ | EvWriteFile _ _ | EvSpawn _ _ | EvThreadCreate _
  | EvRemoveDir _ => true
  | _ => false
  end.

End Protocol.

(** ** The menu launcher ([picam_menu.c]) *)

Module Menu.
Import CStr Scan ProcFiles Overlay.

Definition MAX_COMMANDS : nat := 50.
Definition MAX_NAME_LEN : nat := 128.
Definition MAX_CMD_LEN : nat := 512.

(** [menu_entry_t] *)
Record menu_entry_t := mk_entry { name : string; command : string }.

(** What the launcher does to the outside. *)
Inductive mevent :=
| MStdout (text : string)
| MStderr (text : string)
| MFlush
| MLogAppend (file text : string)
| MSystem (cmd : string).

(** What the system answers.  Every answer may depend on the number of
    answers given before, so that no two calls need agree.  [system]
    gives the status and the number of characters of the launcher's
    unread input that the command has consumed. *)
Record menv := mk_menv
  { getcwd : nat -> option string;
    getenv_LOG_FILE : option string;
    fopen_log : nat -> bool;
    strftime : nat -> string;
    access_picam : nat -> bool;
    access_picam_sh : nat -> bool;
    system : nat -> string -> Z * nat }.

(** The unread rest of standard input, which ends after finitely many
    characters, and the number of answers the system has given. *)
Record world := mk_world { stdin : string; calls : nat }.

Definition W (A : Type) : Type := world -> list mevent * A * world.

Definition ret {A} (a : A) : W A := fun w => ([], a, w).

Definition bind {A B} (m : W A) (f : A -> W B) : W B :=
  fun w =>
    let '(t1, a, w1) := m w in
    let '(t2, b, w2) := f a w1 in
    ((t1 ++ t2)%list, b, w2).

#[local] Notation "x <- m ;; k" := (bind m (fun x => k))
  (at level 61, m at next level, right associativity).
#[local] Notation "m ;;; k" := (bind m (fun _ => k))
  (at level 61, right associativity).

Definition emit (ev : mevent) : W unit := fun w => ([ev], tt, w).

Definition printf (text : string) : W unit := emit (MStdout text).

(** The next answer of the system. *)
Definition ask {A} (f : nat -> A) : W A :=
  fun w => ([], f (calls w), mk_world (stdin w) (S (calls w))).

Definition when (b : bool) (m : W unit) : W unit :=
  if b then m else ret tt.

(** [strncpy(dst, src, size - 1); dst[size - 1] = 0] *)
Definition strncpy_z (size : nat) (src : string) : string :=
  String.substring 0 (size - 1) src.

(** [add_entry(name, command)]; the table is [menu_entries] up to
    [entry_count]. *)
Definition add_entry (name command : string) (table : list menu_entry_t)
  : list mevent * list menu_entry_t :=
  if (MAX_COMMANDS <=? List.length table)%nat
  then ([MStderr ("Error: Too many menu entries" ++ nl)], table)
  else ([], (table ++ [mk_entry (strncpy_z MAX_NAME_LEN name)
                         (strncpy_z MAX_CMD_LEN command)])%list).

(** What [add_entry] stores for a name and a command. *)
Definition stored (nc : string * string) : menu_entry_t :=
  mk_entry (strncpy_z MAX_NAME_LEN (fst nc)) (strncpy_z MAX_CMD_LEN (snd nc)).

(** The calls of [add_entry] one after the other. *)
Definition add_next (acc : list mevent * list menu_entry_t)
  (nc : string * string) : list mevent * list menu_entry_t :=
  let '(t, tb) := add_entry (fst nc) (snd nc) (snd acc) in
  ((fst acc ++ t)%list, tb).

Definition add_entries (l : list (string * string))
  (table : list menu_entry_t) : list mevent * list menu_entry_t :=
  fold_left add_next l ([], table).

(** The arguments of the calls in [init_menu_entries]. *)
Definition builtin : list (string * string) :=
  [
    ("Build C implementation",
     "./build.sh");
    ("Debug camera detection (bash)",
     "./picam.sh --debug-cameras");
    ("List cameras (C version)",
     "./picam --list-cameras");
    ("Test USB camera (bash)",
     "./picam.sh --test-usb");
    ("Bash: 640x480 30fps auto-detect",
     "./picam.sh --no-menu --resolution 640x480 --fps 30 --duration 10");
    ("Bash: 1280x720 30fps auto-detect",
     "./picam.sh --no-menu --resolution 1280x720 --fps 30 --duration 15");
    ("Bash: 1920x1080 25fps high quality",
     "./picam.sh --no-menu --resolution 1920x1080 --fps 25 --duration 10");
    ("Bash: 1280x720 60fps performance test",
     "./picam.sh --no-menu --resolution 1280x720 --fps 60 --duration 8");
    ("Bash: 800x600 25fps test",
     "./picam.sh --no-menu --resolution 800x600 --fps 25 --duration 15");
    ("Bash: 1920x1080 15fps test",
     "./picam.sh --no-menu --resolution 1920x1080 --fps 15 --duration 20");
    ("Bash: 1280x720 30fps KMS display",
     "./picam.sh --no-menu --resolution 1280x720 --fps 30 --display kms --duration 10");
    ("Bash: 640x480 15fps infinite test",
     "./picam.sh --no-menu --resolution 640x480 --fps 15");
    ("Bash: 1600x1200 20fps test",
     "./picam.sh --no-menu --resolution 1600x1200 --fps 20 --duration 12");
    ("Bash: USB camera /dev/video0",
     "./picam.sh --no-menu --source /dev/video0 --resolution 640x480 --fps 30 --duration 10");
    ("C: 640x480 30fps USB /dev/video0",
     "./picam --source /dev/video0 --resolution 640x480 --fps 30 --bitrate 1000000 --duration 10");
    ("C: 1280x720 30fps auto-detect",
     "./picam --source auto --resolution 1280x720 --fps 30 --bitrate 4000000 --duration 15");
    ("C: 1920x1080 25fps CSI camera",
     "./picam --source csi --resolution 1920x1080 --fps 25 --bitrate 8000000 --duration 10");
    ("C: 1920x1080 30fps USB hardware encode",
     "./picam --source /dev/video0 --encode hardware --resolution 1920x1080 --fps 30 --bitrate 6000000 --duration 12");
    ("C: 1280x720 60fps software encode",
     "./picam --source auto --encode software --resolution 1280x720 --fps 60 --bitrate 5000000 --duration 8");
    ("C: 800x600 25fps low bitrate",
     "./picam --source auto --resolution 800x600 --fps 25 --bitrate 2000000 --duration 15");
    ("C: 1920x1080 15fps high bitrate CSI",
     "./picam --source csi --resolution 1920x1080 --fps 15 --bitrate 10000000 --duration 20");
    ("C: 1280x720 30fps framebuffer out",
     "./picam --source auto --resolution 1280x720 --fps 30 --bitrate 4000000 --framebuffer --duration 10");
    ("C: 640x480 15fps USB infinite",
     "./picam --source /dev/video0 --resolution 640x480 --fps 15 --bitrate 1500000");
    ("C: 1600x1200 20fps auto-detect",
     "./picam --source auto --resolution 1600x1200 --fps 20 --bitrate 7000000 --duration 12");
    ("Bash: Interactive menu wizard",
     "./picam.sh");
    ("Bash: Verbose mode test",
     "./picam.sh --no-menu --resolution 1280x720 --fps 30 --duration 5 --verbose");
    ("Bash: Quiet mode test",
     "./picam.sh --no-menu --resolution 1280x720 --fps 30 --duration 5 --quiet");
    ("Bash: Framebuffer display",
     "./picam.sh --no-menu --resolution 1280x720 --fps 30 --duration 10 --display fb");
    ("Bash: Dry run (show pipeline)",
     "./picam.sh --no-menu --resolution 1280x720 --fps 30 --dry-run");
    ("C: No overlay performance test",
     "./picam --no-overlay --source auto --resolution 1920x1080 --fps 30 --bitrate 6000000 --duration 10");
    ("C: Verbose logging test",
     "./picam --source auto --resolution 1280x720 --fps 30 --bitrate 4000000 --duration 5 --verbose");
    ("C: Quiet mode test",
     "./picam --source auto --resolution 1280x720 --fps 30 --bitrate 4000000 --duration 5 --quiet");
    ("Stress Test: 4K 30fps (if supported)",
     "./picam --source auto --resolution 3840x2160 --fps 30 --bitrate 20000000 --duration 5");
    ("Quick Test: 480p 15fps low impact",
     "./picam --source auto --resolution 640x480 --fps 15 --bitrate 800000 --duration 5")
  ].

(** [init_menu_entries()] *)
Definition init_menu_entries : list mevent * list menu_entry_t :=
  add_entries builtin [].

(** [get_timestamp(buffer, size)] *)
Definition get_timestamp (e : menv) : W string := ask (strftime e).

(** [log_to_file(message)] *)
Definition log_to_file (e : menv) (message : string) : W unit :=
  match getenv_LOG_FILE e with
  | None => ret tt
  | Some EmptyString => ret tt
  | Some log_file =>
      opened <- ask (fopen_log e) ;;
      if opened : bool then
        timestamp <- get_timestamp e ;;
        emit (MLogAppend log_file
                ("[" ++ timestamp ++ "] " ++ message ++ nl))
      else ret tt
  end.

(** [getcwd(cwd, sizeof(cwd))], with [unknown] when it fails. *)
Definition cwd_or_unknown (e : menv) : W string :=
  r <- ask (getcwd e) ;;
  ret match r with Some d => d | None => "unknown" end.

Definition menu_line (i : nat) (en : menu_entry_t) : mevent :=
  MStdout ("  " ++ fmt_d (Z.of_nat i + 1) ++ ") " ++ name en ++ nl).

Fixpoint menu_lines (i : nat) (table : list menu_entry_t) : list mevent :=
  match table with
  | [] => []
  | en :: rest => menu_line i en :: menu_lines (S i) rest
  end.

(** [print_menu()] *)
Definition print_menu (e : menv) (table : list menu_entry_t) : W unit :=
  cwd <- cwd_or_unknown e ;;
  printf nl ;;;
  printf ("PiCam Benchmarking Menu (C Version) - " ++ cwd ++ nl) ;;;
  printf ("Select an action:" ++ nl) ;;;
  (fun w => (menu_lines 0 table, tt, w)) ;;;
  printf ("  c) Custom command" ++ nl) ;;;
  printf ("  q) Quit" ++ nl) ;;;
  printf nl.

(** [WEXITSTATUS(status)] *)
Definition WEXITSTATUS (status : Z) : Z :=
  Z.shiftr (Z.land status 65280) 8.

Definition rule : string := "========================================".

(** [strstr(command, needle) && access(path, X_OK) != 0]: [access] is
    called only when the needle is found. *)
Definition missing (command needle : string) (access : nat -> bool)
  : W bool :=
  match strstr command needle with
  | Some _ => ok <- ask access ;; ret (negb ok)
  | None => ret false
  end.

(** [run_command(command)] *)
Definition run_command (e : menv) (command : string) : W Z :=
  cwd <- cwd_or_unknown e ;;
  timestamp <- get_timestamp e ;;
  printf nl ;;;
  printf (rule ++ nl) ;;;
  printf ("[" ++ timestamp ++ "] Executing: " ++ command ++ nl) ;;;
  printf ("Working Directory: " ++ cwd ++ nl) ;;;
  printf (rule ++ nl) ;;;
  printf nl ;;;
  log_to_file e (snprintf_s 1024 ("Menu executed: " ++ command)) ;;;
  no_picam <- missing command "./picam " (access_picam e) ;;
  if no_picam : bool then
    printf ("ERROR: ./picam executable not found or not executable. "
            ++ "Run './build.sh' first." ++ nl) ;;;
    ret 127
  else
    no_script <- missing command "./picam.sh" (access_picam_sh e) ;;
    if no_script : bool then
      printf ("ERROR: ./picam.sh script not found or not executable."
              ++ nl) ;;;
      ret 127
    else
      emit (MSystem command) ;;;
      r <- ask (fun k => system e k command) ;;
      (fun w => ([], tt,
                 mk_world (advance (snd r) (stdin w)) (calls w))) ;;;
      exit_code <-
        (if fst r =? -1
         then printf ("Error: Failed to execute command" ++ nl) ;;;
              ret 127
         else ret (WEXITSTATUS (fst r))) ;;
      timestamp <- get_timestamp e ;;
      printf nl ;;;
      printf (rule ++ nl) ;;;
      printf ("[" ++ timestamp ++ "] Command completed with exit code: "
              ++ fmt_d exit_code ++ nl) ;;;
      printf (rule ++ nl) ;;;
      log_to_file e
        (snprintf_s 1024
           ("Command completed with exit code: " ++ fmt_d exit_code)) ;;;
      ret exit_code.

(** What is left of a buffer when a line feed at its end is
    overwritten with NUL. *)
Fixpoint chomp (s : string) : string :=
  match s with
  | EmptyString => EmptyString
  | String c EmptyString =>
      if Ascii.eqb c LF then EmptyString else s
  | String c rest => String c (chomp rest)
  end.

(** [get_user_input(buffer, size)]: [None] for -1, else the string in
    the buffer. *)
Definition get_user_input (size : nat) : W (option string) :=
  fun w =>
    match fgets size (stdin w) with
    | None => ([], None, w)
    | Some (got, rest) =>
        ([], Some (chomp (c_str got)), mk_world rest (calls w))
    end.

(** [tolower] in the C locale. *)
Definition tolower (c : ascii) : ascii :=
  let n := nat_of_ascii c in
  if (Nat.leb 65 n && Nat.leb n 90)%bool then ascii_of_nat (n + 32) else c.

(** [strcasecmp(a, b) == 0] *)
Fixpoint strcasecmp_eq (a b : string) : bool :=
  match a, b with
  | EmptyString, EmptyString => true
  | String c a', String d b' =>
      (Ascii.eqb (tolower c) (tolower d) && strcasecmp_eq a' b')%bool
  | _, _ => false
  end.

Definition is_quit (input : string) : bool :=
  (strcasecmp_eq input "q" || strcasecmp_eq input "quit"
   || strcasecmp_eq input "exit")%bool.

(** The entry a numeric choice stands for:
    [choice >= 1 && choice <= entry_count], then
    [menu_entries[choice - 1]]. *)
Definition chosen (pol : overflow_policy) (table : list menu_entry_t)
  (input : string) : option menu_entry_t :=
  let choice := atoi pol input in
  if ((1 <=? choice) && (choice <=? Z.of_nat (List.length table)))%bool
  then nth_error table (Z.to_nat (choice - 1))
  else None.

(** How one round of the loop ends. *)
Inductive round := Break | Continue.

(** The end of a round in which a command was run. *)
Definition press_enter : W round :=
  printf (nl ++ "Press Enter to return to menu...") ;;;
  emit MFlush ;;;
  get_user_input 256 ;;;
  printf nl ;;;
  ret Continue.

(** The body of [while (1)] in [main]. *)
Definition menu_round (e : menv) (pol : overflow_policy)
  (table : list menu_entry_t) : W round :=
  print_menu e table ;;;
  printf "Enter choice: " ;;;
  emit MFlush ;;;
  r <- get_user_input 256 ;;
  match r with
  | None => ret Break
  | Some input =>
      if (String.length input =? 0)%nat then ret Continue
      else if is_quit input then printf ("Bye!" ++ nl) ;;; ret Break
      else if strcasecmp_eq input "c" then
        printf "Enter custom command: " ;;;
        emit MFlush ;;;
        r2 <- get_user_input 512 ;;
        match r2 with
        | None => ret Continue
        | Some custom_command =>
            if (String.length custom_command =? 0)%nat then ret Continue
            else run_command e custom_command ;;; press_enter
        end
      else
        match chosen pol table input with
        | Some en => run_command e (command en) ;;; press_enter
        | None =>
            printf ("Invalid choice: " ++ input ++ nl) ;;; ret Continue
        end
  end.

(** [while (1) { ... }], for at most [fuel] rounds; [None] when the
    rounds do not suffice. *)
Fixpoint menu_loop (fuel : nat) (e : menv) (pol : overflow_policy)
  (table : list menu_entry_t) (w : world)
  : option (list mevent * world) :=
  match fuel with
  | O => None
  | S fuel' =>
      let '(t, r, w1) := menu_round e pol table w in
      match r with
      | Break => Some (t, w1)
      | Continue =>
          match menu_loop fuel' e pol table w1 with
          | Some (t', w2) => Some ((t ++ t')%list, w2)
          | None => None
          end
      end
  end.

(** What [main] prints before the loop. *)
Definition banner (e : menv) : W unit :=
  printf ("=====================================" ++ nl) ;;;
  printf ("PiCam Benchmarking Menu (C Version)" ++ nl) ;;;
  printf ("====================================" ++ nl) ;;;
  cwd <- cwd_or_unknown e ;;
  printf ("Working Directory: " ++ cwd ++ nl) ;;;
  match getenv_LOG_FILE e with
  | Some f => printf ("Logging to: " ++ f ++ nl)
  | None => ret tt
  end ;;;
  printf nl.

(** [main()]: the trace and the exit status. *)
Definition main (fuel : nat) (e : menv) (pol : overflow_policy)
  (input : string) : option (list mevent * Z) :=
  let '(t0, table) := init_menu_entries in
  let '(t1, _, w1) := banner e (mk_world input 0) in
  match menu_loop fuel e pol table w1 with
  | Some (t2, _) => Some ((t0 ++ t1 ++ t2)%list, 0)
  | None => None
  end.

(** Every entry fits the arrays of [menu_entry_t] and the table has
    room for it. *)
Definition table_ok (table : list menu_entry_t) : Prop :=
  (List.length table <= MAX_COMMANDS)%nat
  /\ Forall (fun en =>
               (String.length (name en) < MAX_NAME_LEN)%nat
               /\ (String.length (command en) < MAX_CMD_LEN)%nat) table.

(** [c] occurs in [s]. *)
Definition occurs_in (c s : string) : Prop :=
  exists pre post, s = pre ++ c ++ post.

Definition is_system (ev : mevent) : bool :=
  match ev with
  | MSystem _ => true
  | _ => false
  end.

(** The three parts of what a computation gives in a world. *)
Definition run_of {A} (m : W A) (w : world) : list mevent := fst (fst (m w)).
Definition val_of {A} (m : W A) (w : world) : A := snd (fst (m w)).
Definition end_of {A} (m : W A) (w : world) : world := snd (m w).

(** [s] is what is left of [s0] after some characters. *)
Definition rest_of (s s0 : string) : Prop := exists n, s = advance n s0.

(** From a world whose unread input is a rest of [input], [m] leaves a
    rest of its unread input, runs only commands in [P] and gives a
    value in [V]. *)
Definition sound {A} (input : string) (P : string -> Prop) (V : A -> Prop)
  (m : W A) : Prop :=
  forall w,
    rest_of (stdin w) input ->
    rest_of (stdin (end_of m w)) (stdin w)
    /\ (forall c, In (MSystem c) (run_of m w) -> P c)
    /\ V (val_of m w).

(** A round of [m] that is to be followed by another has taken
    something from the input. *)
Definition shrinks (input : string) (m : W round) : Prop :=
  forall w,
    rest_of (stdin w) input ->
    val_of m w = Continue ->
    (String.length (stdin (end_of m w)) < String.length (stdin w))%nat.

(** The commands of a table, and the lines a user may have typed. *)
Definition known (table : list menu_entry_t) (input : string) (c : string)
  : Prop :=
  In c (map command table) \/ (c <> EmptyString /\ occurs_in c input).

End Menu.

(** ** Further concrete inputs *)

Module Samples.
Import CStr Scan ProcFiles Overlay.

(** A C library that saturates an [unsigned long long] conversion and
    wraps a signed one to 32 bits. *)
Definition sample_policy : overflow_policy :=
  fun t v =>
    match t with
    | TULLong => Proc.two64 - 1
    | _ => (v + 2 ^ 31) mod 2 ^ 32 - 2 ^ 31
    end.

(** A [stat] line of a running ffmpeg. *)
Definition ffmpeg_stat : string :=
  "11 (ffmpeg) S 1 11 11 34816 11 4194304 500 0 2 0 150 30 0 0 "
  ++ "20 0 5 0 12345 100000000 2000 18446744073709551615" ++ nl.

(** A [stat] line of a process whose name has blanks and parentheses. *)
Definition odd_stat : string :=
  "12 (my (odd) prog) R 1 12 12 0 -1 4194304 9 0 0 0 7 3 0 0 20 0 1 0 5"
  ++ nl.

Definition ffmpeg_status : string :=
  "Name:  ffmpeg" ++ nl ++ "VmRSS:      2048 kB" ++ nl.

Definition kernel_proc : Z -> pid_files :=
  fun pid =>
    if pid =? 11 then mk_pid_files (Some ffmpeg_stat) "" (Some ffmpeg_status)
    else if pid =? 12 then mk_pid_files (Some odd_stat) "" None
    else mk_pid_files None "" None.

(** The same two processes one sampling interval later: ffmpeg has
    used 100 more ticks in user and 10 more in system mode, the other
    process 10 and 1. *)
Definition ffmpeg_stat_later : string :=
  "11 (ffmpeg) S 1 11 11 34816 11 4194304 500 0 2 0 250 40 0 0 "
  ++ "20 0 5 0 12345 100000000 2000 18446744073709551615" ++ nl.
Definition odd_stat_later : string :=
  "12 (my (odd) prog) R 1 12 12 0 -1 4194304 9 0 0 0 17 4 0 0 20 0 1 0 5"
  ++ nl.
Definition odd_status : string :=
  "Name:  my (odd) prog" ++ nl ++ "VmRSS:      1024 kB" ++ nl.

(** The files at the first read point, at the second one, and at the
    second one when process 11 has exited in between. *)
Definition sampled0 : Z -> pid_files :=
  fun pid =>
    if pid =? 11 then mk_pid_files (Some ffmpeg_stat) "" (Some ffmpeg_status)
    else if pid =? 12 then mk_pid_files (Some odd_stat) "" (Some odd_status)
    else mk_pid_files None "" None.
Definition sampled1 : Z -> pid_files :=
  fun pid =>
    if pid =? 11
    then mk_pid_files (Some ffmpeg_stat_later) "" (Some ffmpeg_status)
    else if pid =? 12
    then mk_pid_files (Some odd_stat_later) "" (Some odd_status)
    else mk_pid_files None "" None.
Definition sampled1_exited : Z -> pid_files :=
  fun pid =>
    if pid =? 12
    then mk_pid_files (Some odd_stat_later) "" (Some odd_status)
    else mk_pid_files None "" None.

(** [/proc/stat] at the two read points: 220 ticks apart. *)
Definition proc_stat0 : string :=
  cpu_line 4705 0 1325 88377 12 0 7 " 0 0 0" ++ nl ++ "cpu0 1 2 3" ++ nl.
Definition proc_stat1 : string :=
  cpu_line 4805 0 1345 88477 12 0 7 " 0 0 0" ++ nl ++ "cpu0 1 2 3" ++ nl.

Definition stale : Proc.cpu_tot_t := Proc.mk_cpu_tot 9 9 9 9 9 9 9.

(** Two progress lines of ffmpeg, the first closed by a carriage
    return, and two ways [read] may deliver them. *)
Definition log_lines : list (string * ascii) :=
  [ ("frame= 10 fps= 25 q=1.0 bitrate= 12.5kbits/s", CR);
    ("frame= 35 fps= 24 q=1.0 bitrate= 900.0kbits/s speed=1x", LF) ].

Definition log_reads : list string :=
  [ "frame= 10 fps= 25 q=1.0 bitr";
    "ate= 12.5kbits/s" ++ String CR "frame= 35 fps= 24 q=1.0 bitrate=";
    " 900.0kbits/s speed=1x" ++ nl ].

Definition log_reads_whole : list string :=
  [ "frame= 10 fps= 25 q=1.0 bitrate= 12.5kbits/s" ++ String CR ""
    ++ "frame= 35 fps= 24 q=1.0 bitrate= 900.0kbits/s speed=1x" ++ nl ].

(** A [%lf] conversion that knows two numerals. *)
Definition sample_scan_lf (s : string) : option Q :=
  if has_prefix " 25" s then Some (25 # 1)
  else if has_prefix " 24" s then Some (24 # 1)
  else None.

(** A system for the launcher in which every call succeeds and every
    command exits with status 0 without reading any input. *)
Definition menu_env : Menu.menv :=
  Menu.mk_menv (fun _ => Some "/home/pi/picam") (Some "menu.log")
    (fun _ => true) (fun _ => "12:00:00") (fun _ => true) (fun _ => true)
    (fun _ _ => (0, 0%nat)).

(** A session: a custom command, the third entry, then quit. *)
Definition menu_input : string :=
  "c" ++ nl ++ "uname -a" ++ nl ++ nl ++ "3" ++ nl ++ nl ++ "q" ++ nl.

Definition menu_trace : list Menu.mevent :=
  match Menu.main 40 menu_env sample_policy menu_input with
  | Some (t, _) => t
  | None => []
  end.

(** A command line that is accepted. *)
Definition argv_usb : list string :=
  [ "picam_bench"; "--resolution"; "640x480"; "--fps"; "25";
    "--source"; "/dev/video0" ].

(** The configuration it gives. *)
Definition parsed_usb : Cli.parsed :=
  Cli.mk_parsed
    (Config.mk_cfg "h264_sdl_preview" 640 480 25 4000000 "top-left"
       Config.SRC_USBNODE "/dev/video0" Config.ENC_AUTO 1)
    false false.

End Samples.

(** * Properties *)

Import CStr Config V4L2 Overlay Pipeline Detect Session StatusFile.

(** ** CPU percentage and resident memory *)

Section Sampler.
Import Proc.

Lemma u64_range z : 0 <= u64 z < two64.
Proof. unfold u64. apply Z.mod_pos_bound. reflexivity. Qed.

Lemma u64_small z : 0 <= z < two64 -> u64 z = z.
Proof. intros H. unfold u64. now apply Z.mod_small. Qed.

Lemma cpu_total_range t : 0 <= cpu_total t < two64.
Proof. unfold cpu_total. apply u64_range. Qed.

(** Equal totals at both read points: the guard returns 0. *)
Lemma cpu_percent_zero_delta fs0 fs1 pids t0 t1 :
  read_proc_stat_total fs0 = Some t0 ->
  read_proc_stat_total fs1 = Some t1 ->
  cpu_total t1 = cpu_total t0 ->
  cpu_percent_for_pids fs0 fs1 pids = 0%Q.
Proof.
  intros H0 H1 E. unfold cpu_percent_for_pids.
  rewrite H0, H1, E, Z.sub_diag. reflexivity.
Qed.

(** A total that has advanced: the quotient of the spec. *)
Lemma cpu_percent_positive_delta fs0 fs1 pids t0 t1 :
  read_proc_stat_total fs0 = Some t0 ->
  read_proc_stat_total fs1 = Some t1 ->
  cpu_total t0 < cpu_total t1 ->
  cpu_percent_for_pids fs0 fs1 pids
  = ((100 * inject_Z (sum_deltas fs0 fs1 pids))
     / inject_Z (cpu_total t1 - cpu_total t0))%Q.
Proof.
  intros H0 H1 L. unfold cpu_percent_for_pids. rewrite H0, H1.
  pose proof (cpu_total_range t0). pose proof (cpu_total_range t1).
  cbv zeta. rewrite u64_small by lia.
  destruct (Z.leb_spec (cpu_total t1 - cpu_total t0) 0); [lia | reflexivity].
Qed.

(** A failed read of the system-wide counters gives 0. *)
Lemma cpu_percent_unreadable_total fs0 fs1 pids :
  read_proc_stat_total fs0 = None \/ read_proc_stat_total fs1 = None ->
  cpu_percent_for_pids fs0 fs1 pids = 0%Q.
Proof.
  unfold cpu_percent_for_pids. intros [H | H]; rewrite H.
  - reflexivity.
  - now destruct (read_proc_stat_total fs0).
Qed.

(** A process that cannot be read at either point adds nothing to the
    tick sum. *)
Lemma add_delta_unreadable fs0 fs1 sum pid :
  0 <= sum < two64 ->
  read_proc_pid_stat fs0 pid = None ->
  read_proc_pid_stat fs1 pid = None ->
  add_delta fs0 fs1 sum pid = sum.
Proof.
  intros R H0 H1. unfold add_delta, read_ticks. rewrite H0, H1.
  destruct (0 <? pid); cbn; now rewrite Z.add_0_r, u64_small.
Qed.

(** A process that is read at both points, with counters that have not
    gone back, adds its user and system tick deltas. *)
Lemma add_delta_readable fs0 fs1 sum pid a b :
  0 < pid ->
  read_proc_pid_stat fs0 pid = Some a ->
  read_proc_pid_stat fs1 pid = Some b ->
  0 <= utime a <= utime b -> 0 <= stime a <= stime b ->
  0 <= sum ->
  sum + (utime b - utime a) + (stime b - stime a) < two64 ->
  add_delta fs0 fs1 sum pid
  = sum + (utime b - utime a) + (stime b - stime a).
Proof.
  intros P H0 H1 Hu Hs Hz Hb. unfold add_delta, read_ticks.
  apply Z.ltb_lt in P. rewrite P, H0, H1.
  rewrite (u64_small (utime b - utime a)) by lia.
  rewrite (u64_small (stime b - stime a)) by lia.
  rewrite (u64_small (utime b - utime a + (stime b - stime a))) by lia.
  rewrite u64_small by lia. lia.
Qed.

(** A process that cannot be read adds nothing to the memory sum. *)
Lemma add_rss_unreadable fs sumkb pid :
  read_proc_pid_stat fs pid = None -> add_rss fs sumkb pid = sumkb.
Proof.
  intros H. unfold add_rss. rewrite H. now destruct (pid <=? 0).
Qed.

Lemma rss_mb_unreadable_first fs a rest :
  read_proc_pid_stat fs a = None ->
  rss_mb_for_pids fs (a :: rest) = rss_mb_for_pids fs rest.
Proof.
  intros H. unfold rss_mb_for_pids. cbn [fold_left].
  now rewrite add_rss_unreadable.
Qed.

(** C1 (code defect): ffmpeg, process 11, uses 110 ticks (100 in user
    and 10 in system mode) while the system-wide total advances by 220
    ticks, so the percentage is 100 * 110 / 220 = 50.  The function
    returns 0: [read_proc_pid_stat] looks for the first number at the
    state letter of the [stat] file, returns -1 at both read points,
    and the tick sum stays 0.  With the two readings of [/proc/stat]
    exchanged, a delta of -220, the result is 0 as well. *)
Theorem cpu_percent_misses_process_ticks :
  let pol := Samples.sample_policy in
  let fs0 := ProcFiles.mount pol (Some Samples.proc_stat0) Samples.stale
               Samples.sampled0 in
  let fs1 := ProcFiles.mount pol (Some Samples.proc_stat1) Samples.stale
               Samples.sampled1 in
  ProcFiles.documented_ticks pol Samples.ffmpeg_stat = Some (150, 30)
  /\ ProcFiles.documented_ticks pol Samples.ffmpeg_stat_later
     = Some (250, 40)
  /\ (exists t0 t1,
         read_proc_stat_total fs0 = Some t0
         /\ read_proc_stat_total fs1 = Some t1
         /\ cpu_total t1 - cpu_total t0 = 220)
  /\ read_proc_pid_stat fs0 11 = None
  /\ read_proc_pid_stat fs1 11 = None
  /\ Qeq (cpu_percent_for_pids fs0 fs1 [11]) 0%Q
  /\ Qeq ((100 * inject_Z ((250 - 150) + (40 - 30))) / inject_Z 220)%Q
         (50 # 1)%Q
  /\ Qeq (cpu_percent_for_pids fs1 fs0 [11]) 0%Q.
Proof.
  cbv zeta.
  split; [vm_compute; reflexivity|].
  split; [vm_compute; reflexivity|].
  split; [eexists _, _; split; [vm_compute; reflexivity|];
          split; [vm_compute; reflexivity|]; vm_compute; reflexivity|].
  split; [vm_compute; reflexivity|].
  split; [vm_compute; reflexivity|].
  split; [vm_compute; reflexivity|].
  split; vm_compute; reflexivity.
Qed.

(** C4 (code defect): process 11 exits during the sleep and process 12
    uses 11 of the 220 elapsed ticks and holds 1024 kB.  The exited
    process adds nothing, as it should; but process 12 adds nothing
    either: its [stat] file is not parsed, so the cycle reports 0
    percent instead of 100 * 11 / 220 = 5, and 0 MB instead of 1. *)
Theorem sampler_misses_surviving_process :
  let pol := Samples.sample_policy in
  let fs0 := ProcFiles.mount pol (Some Samples.proc_stat0) Samples.stale
               Samples.sampled0 in
  let fs1 := ProcFiles.mount pol (Some Samples.proc_stat1) Samples.stale
               Samples.sampled1_exited in
  ProcFiles.f_stat (Samples.sampled1_exited 11) = None
  /\ read_proc_pid_stat fs1 11 = None
  /\ ProcFiles.documented_ticks pol Samples.odd_stat = Some (7, 3)
  /\ ProcFiles.documented_ticks pol Samples.odd_stat_later = Some (17, 4)
  /\ ProcFiles.vmrss pol (Some Samples.odd_status) = 1024
  /\ sum_deltas fs0 fs1 [11; 12] = 0
  /\ Qeq (cpu_percent_for_pids fs0 fs1 [11; 12]) 0%Q
  /\ Qeq ((100 * inject_Z ((17 - 7) + (4 - 3))) / inject_Z 220)%Q (5 # 1)%Q
  /\ Qeq (rss_mb_for_pids fs1 [11; 12]) 0%Q
  /\ Qeq (inject_Z 1024 / 1024)%Q (1 # 1)%Q.
Proof.
  cbv zeta.
  do 9 (split; [vm_compute; reflexivity|]).
  vm_compute; reflexivity.
Qed.

End Sampler.

(** ** Onboard-sensor availability *)

Section CsiDetection.

Lemma strstr_found h n p :
  strstr h n = Some p ->
  String.prefix n p = true /\ (String.length p <= String.length h)%nat.
Proof.
  induction h as [|c h IH]; cbn [strstr]; intros H.
  - destruct (String.prefix n "") eqn:E; [|discriminate].
    injection H as <-. now split.
  - destruct (String.prefix n (String c h)) eqn:E.
    + injection H as <-. now split.
    + destruct (IH H) as [P L]. split; [exact P | cbn; lia].
Qed.

Lemma strchr_found s c e :
  strchr s c = Some e ->
  (String.length e <= String.length s)%nat
  /\ exists rest, e = String c rest.
Proof.
  induction s as [|d s IH]; cbn [strchr]; intros H; [discriminate|].
  destruct (Ascii.eqb_spec d c) as [->|N].
  - injection H as <-. split; [lia | now eexists].
  - destruct (IH H) as [L X]. split; [cbn; lia | exact X].
Qed.

(** The pointer the loop continues from lies strictly after an
    occurrence of "Index". *)
Lemma line_end_shorter p :
  String.prefix "Index" p = true ->
  (String.length
     (match strchr p LF with Some e => e | None => EmptyString end)
   < String.length p)%nat.
Proof.
  intros P. destruct p as [|c p]; [discriminate|].
  cbn [strchr].
  destruct (Ascii.eqb_spec c LF) as [->|N]; [discriminate|].
  destruct (strchr p LF) eqn:E.
  - apply strchr_found in E as [L _]. cbn. lia.
  - cbn. lia.
Qed.

(** The loop of [detect_csi_available] terminates: fuel beyond the
    length of the text is enough. *)
Lemma scan_index_total fuel pn :
  (String.length pn < fuel)%nat -> exists b, scan_index fuel pn = Some b.
Proof.
  revert pn. induction fuel as [|fuel IH]; intros pn L; [lia|].
  cbn [scan_index].
  destruct (strstr pn "Index") as [p|] eqn:E; [|now eexists].
  destruct (strstr p "usb@"); [|now eexists].
  apply strstr_found in E as [P Lp].
  apply IH. pose proof (line_end_shorter p P). lia.
Qed.

(** [detect_csi_available] always returns. *)
Lemma detect_csi_available_total cmd pipe_ok rd :
  exists b, detect_csi_available cmd pipe_ok rd = Some b.
Proof.
  unfold detect_csi_available.
  destruct cmd; [|now eexists].
  destruct pipe_ok; cbn [negb]; [|now eexists].
  destruct (strstr _ "Available cameras"); [|now eexists].
  destruct (strstr _ "usb@"); [|now eexists].
  apply scan_index_total. lia.
Qed.

(** A listing without any USB tag that declares the available cameras
    is accepted. *)
Lemma detect_csi_no_usb_tag cmd rd p :
  let buf := c_str (String.substring 0 (Z.to_nat 8191) rd) in
  strstr buf "Available cameras" = Some p ->
  strstr buf "usb@" = None ->
  detect_csi_available (Some cmd) true rd = Some true.
Proof.
  cbv zeta. intros A U. unfold detect_csi_available. cbn [negb].
  now rewrite A, U.
Qed.

(** C2 (code defect): a listing that declares the available cameras and
    has an onboard entry followed by a USB-tagged entry is reported as
    having no onboard sensor, because the search for the USB tag runs
    from the entry to the end of the buffer and not to the end of its
    line.  With the same two entries in the other order the answer is
    true, and with USB-tagged entries only it is false. *)
Theorem detect_csi_depends_on_entry_order :
  detect_csi_available (Some "rpicam-vid") true
    Examples.listing_csi_then_usb = Some false
  /\ detect_csi_available (Some "rpicam-vid") true
       Examples.listing_usb_then_csi = Some true
  /\ detect_csi_available (Some "rpicam-vid") true
       Examples.listing_usb_only = Some false.
Proof. repeat split; vm_compute; reflexivity. Qed.

End CsiDetection.

(** ** Formatting *)

Section Formatting.

Lemma all_chars_app P a b :
  all_chars P (a ++ b) = (all_chars P a && all_chars P b)%bool.
Proof.
  induction a as [|c a IH]; cbn; [reflexivity|].
  now rewrite IH, andb_assoc.
Qed.

Lemma all_chars_weaken (P R : ascii -> bool) s :
  (forall c, P c = true -> R c = true) ->
  all_chars P s = true -> all_chars R s = true.
Proof.
  intros W. induction s as [|c s IH]; cbn; [reflexivity|].
  intros H. apply andb_true_iff in H as [Hc Hs].
  now rewrite (W _ Hc), IH.
Qed.

Lemma uint_numeric d :
  all_chars numeric_char (NilEmpty.string_of_uint d) = true.
Proof. induction d; cbn; auto. Qed.

(** ["%d"] prints digits and possibly a minus sign. *)
Lemma fmt_d_numeric z : all_chars numeric_char (fmt_d z) = true.
Proof.
  unfold fmt_d, NilZero.string_of_int, NilZero.string_of_uint.
  destruct (Z.to_int z) as [d|d]; destruct d; cbn;
    try reflexivity; apply uint_numeric.
Qed.

Lemma digit_numeric z : 0 <= z < 10 -> numeric_char (digit z) = true.
Proof.
  intros H.
  assert (z = 0 \/ z = 1 \/ z = 2 \/ z = 3 \/ z = 4 \/ z = 5 \/ z = 6
          \/ z = 7 \/ z = 8 \/ z = 9) as C by lia.
  repeat (destruct C as [-> | C]; [reflexivity|]). now subst.
Qed.

(** ["%.1f"] prints digits, a decimal point and possibly a minus
    sign. *)
Lemma fmt_1f_numeric x : all_chars numeric_char (fmt_1f x) = true.
Proof.
  unfold fmt_1f. rewrite !all_chars_app, fmt_d_numeric.
  cbn [all_chars]. rewrite digit_numeric.
  - now destruct (Qnum x <? 0).
  - apply Z.mod_pos_bound. reflexivity.
Qed.

Lemma numeric_not_lf c : numeric_char c = true -> negb (Ascii.eqb c LF) = true.
Proof.
  intros H. destruct (Ascii.eqb_spec c LF) as [->|]; [discriminate|reflexivity].
Qed.

End Formatting.

(** ** Producer command line for a USB source *)

Section UsbProducer.




(** [main] turns the mode [auto] into [hardware] before it builds the
    producer. *)
Lemma decide_encoding_auto cfg :
  encode_mode cfg = ENC_AUTO -> decide_encoding cfg = ENC_HARDWARE.
Proof. unfold decide_encoding. now intros ->. Qed.

End UsbProducer.

(** ** Progress-log parser *)

Section LogParser.

Variable scan : string -> option Q.

Lemma take_word_length w s : (String.length (take_word w s) <= w)%nat.
Proof.
  revert s. induction w as [|w IH]; intros [|c s]; cbn; try lia.
  destruct (isspace c); cbn; [lia|]. specialize (IH s). lia.
Qed.

Lemma take_word_not_space w s :
  all_chars not_space (take_word w s) = true.
Proof.
  revert s. induction w as [|w IH]; intros [|c s]; cbn; try reflexivity.
  destruct (isspace c) eqn:E; cbn; [reflexivity|].
  unfold not_space at 1. now rewrite E, IH.
Qed.

Lemma substring_whole s n :
  (String.length s <= n)%nat -> String.substring 0 n s = s.
Proof.
  revert n. induction s as [|c s IH]; intros [|n] L; cbn in *;
    try reflexivity; try lia.
  rewrite IH; [reflexivity | lia].
Qed.

(** Storing a scanned token into [latest_bitrate] never truncates it. *)
Lemma snprintf_token s : snprintf_s 64 (scan_s63 s) = scan_s63 s.
Proof.
  unfold snprintf_s, scan_s63. apply substring_whole.
  exact (take_word_length 63 (skip_space s)).
Qed.

(** The bitrate kept behind the mutex never contains white space. *)
Lemma parse_line_bitrate_not_space st l :
  all_chars not_space (latest_bitrate st) = true ->
  all_chars not_space (latest_bitrate (parse_line scan st l)) = true.
Proof.
  intros H. unfold parse_line.
  destruct (strstr l "bitrate=") as [p|]; cbn [latest_bitrate].
  - rewrite snprintf_token. apply take_word_not_space.
  - now destruct (strstr l "fps=").
Qed.

Lemma feed_byte_bitrate_not_space r c :
  all_chars not_space (latest_bitrate (shared r)) = true ->
  all_chars not_space (latest_bitrate (shared (feed_byte scan r c))) = true.
Proof.
  intros H. unfold feed_byte.
  destruct (_ || _)%bool; cbn [shared].
  - now apply parse_line_bitrate_not_space.
  - now destruct (_ <? _).
Qed.

Lemma feed_bytes_bitrate_not_space buf r :
  all_chars not_space (latest_bitrate (shared r)) = true ->
  all_chars not_space (latest_bitrate (shared (feed_bytes scan r buf))) = true.
Proof.
  revert r. induction buf as [|c buf IH]; intros r H; cbn; [exact H|].
  apply IH. now apply feed_byte_bitrate_not_space.
Qed.

(** Whatever the preview prints, the log reader leaves a bitrate without
    white space behind the mutex. *)
Lemma ffmpeg_log_reader_bitrate_not_space reads st :
  all_chars not_space (latest_bitrate st) = true ->
  all_chars not_space (latest_bitrate (ffmpeg_log_reader scan reads st))
  = true.
Proof.
  intros H. unfold ffmpeg_log_reader.
  assert (forall r,
             all_chars not_space (latest_bitrate (shared r)) = true ->
             all_chars not_space
               (latest_bitrate (shared (fold_left (feed_bytes scan) reads r)))
             = true) as G.
  { induction reads as [|b reads IH]; intros r Hr; cbn; [exact Hr|].
    apply IH. now apply feed_bytes_bitrate_not_space. }
  now apply G.
Qed.


End LogParser.


(** ** Status file *)

Section StatusRoundTrip.

Lemma append_assoc (a b c : string) : (a ++ b) ++ c = a ++ (b ++ c).
Proof. induction a as [|x a IH]; cbn; [reflexivity | now rewrite IH]. Qed.

(** A text that starts with a complete line. *)
Lemma lines_first a rest :
  all_chars no_lf a = true -> lines (a ++ nl ++ rest) = a :: lines rest.
Proof.
  induction a as [|c a IH]; intros H; [reflexivity|].
  cbn in H. apply andb_true_iff in H as [Hc Ha].
  cbn [append lines]. unfold no_lf in Hc.
  destruct (Ascii.eqb c LF); [discriminate|]. now rewrite (IH Ha).
Qed.

Lemma lines_last a : all_chars no_lf a = true -> lines (a ++ nl) = [a].
Proof.
  intros H. exact (lines_first a "" H).
Qed.

Lemma numeric_no_lf s :
  all_chars numeric_char s = true -> all_chars no_lf s = true.
Proof. apply all_chars_weaken. exact numeric_not_lf. Qed.

Lemma not_space_no_lf s :
  all_chars not_space s = true -> all_chars no_lf s = true.
Proof.
  apply all_chars_weaken. intros c H. unfold no_lf.
  destruct (Ascii.eqb_spec c LF) as [->|]; [discriminate|reflexivity].
Qed.

Lemma substring_not_space n m s :
  all_chars not_space s = true ->
  all_chars not_space (String.substring n m s) = true.
Proof.
  revert n m. induction s as [|c s IH]; intros n m H.
  - now destruct n, m.
  - cbn in H. apply andb_true_iff in H as [Hc Hs].
    destruct n, m; cbn; try reflexivity; try (now apply IH).
    now rewrite Hc, IH.
Qed.

Lemma shown_bitrate_not_space st :
  all_chars not_space (latest_bitrate st) = true ->
  all_chars not_space (shown_bitrate st) = true.
Proof.
  intros H. unfold shown_bitrate, snprintf_s.
  apply substring_not_space. now destruct (latest_bitrate st).
Qed.

(** The text of a status file, line by line. *)
Lemma stats_text_lines fps w h br cpu mem :
  all_chars not_space br = true ->
  lines (stats_text fps w h br cpu mem)
  = [ "FPS: " ++ fmt_1f fps;
      "RES: " ++ fmt_d w ++ "x" ++ fmt_d h;
      "BitRate: " ++ br;
      "CPU: " ++ fmt_1f cpu ++ "%";
      "MEM: 0.0%";
      "MEM_MB: " ++ fmt_1f mem ].
Proof.
  intros B.
  pose proof (numeric_no_lf _ (fmt_1f_numeric fps)) as Hf.
  pose proof (numeric_no_lf _ (fmt_1f_numeric cpu)) as Hc.
  pose proof (numeric_no_lf _ (fmt_1f_numeric mem)) as Hm.
  pose proof (numeric_no_lf _ (fmt_d_numeric w)) as Hw.
  pose proof (numeric_no_lf _ (fmt_d_numeric h)) as Hh.
  pose proof (not_space_no_lf _ B) as Hb.
  assert (stats_text fps w h br cpu mem
          = ("FPS: " ++ fmt_1f fps) ++ nl
            ++ ("RES: " ++ fmt_d w ++ "x" ++ fmt_d h) ++ nl
            ++ ("BitRate: " ++ br) ++ nl
            ++ ("CPU: " ++ fmt_1f cpu ++ "%") ++ nl
            ++ "MEM: 0.0%" ++ nl
            ++ ("MEM_MB: " ++ fmt_1f mem) ++ nl) as ->.
  { unfold stats_text. rewrite !append_assoc. reflexivity. }
  rewrite !lines_first, lines_last; try reflexivity;
    rewrite ?all_chars_app, ?Hf, ?Hc, ?Hm, ?Hw, ?Hh, ?Hb; reflexivity.
Qed.

(** C6 (amended): the text that one cycle of the stats writer puts into
    the status file parses, label by label, to the values as written:
    frame rate, CPU percentage (with its percent sign) and memory in
    megabytes with one decimal, the resolution as WxH, and the latest
    bitrate token, or [N/A] while there is none; the file consists of
    these five labeled lines and the constant line [MEM: 0.0%] between
    the CPU and the MEM_MB line. *)
Theorem status_file_round_trip
  (ctx : ctx_t) (st : overlay_state_t) (fs0 fs1 fs2 : Proc.procfs) :
  all_chars not_space (latest_bitrate st) = true ->
  let pids := [cam_pid ctx; prev_pid ctx] in
  let cpu := fmt_1f (Proc.cpu_percent_for_pids fs0 fs1 pids) in
  let mem := fmt_1f (Proc.rss_mb_for_pids fs2 pids) in
  let res := fmt_d (width ctx) ++ "x" ++ fmt_d (height ctx) in
  let text := stats_cycle ctx st fs0 fs1 fs2 in
  parse_status text
  = mk_labeled (Some (fmt_1f (latest_fps st))) (Some res)
      (Some (shown_bitrate st)) (Some (cpu ++ "%")) (Some mem)
  /\ lines text
     = [ "FPS: " ++ fmt_1f (latest_fps st);
         "RES: " ++ res;
         "BitRate: " ++ shown_bitrate st;
         "CPU: " ++ cpu ++ "%";
         "MEM: 0.0%";
         "MEM_MB: " ++ mem ]
  /\ shown_bitrate st
     = match latest_bitrate st with
       | EmptyString => "N/A"
       | String _ _ => snprintf_s 64 (latest_bitrate st)
       end.
Proof.
  intros B. cbv zeta.
  pose proof (stats_text_lines (latest_fps st) (width ctx) (height ctx)
                (shown_bitrate st)
                (Proc.cpu_percent_for_pids fs0 fs1 [cam_pid ctx; prev_pid ctx])
                (Proc.rss_mb_for_pids fs2 [cam_pid ctx; prev_pid ctx])
                (shown_bitrate_not_space st B)) as L.
  unfold parse_status, stats_cycle. rewrite L.
  repeat split. unfold shown_bitrate. now destruct (latest_bitrate st).
Qed.

End StatusRoundTrip.

Lemma status_file_round_trip_witness :
  parse_status
    (stats_cycle Examples.sample_ctx Examples.sample_state
       Examples.busy0 Examples.busy1 Examples.busy1)
  = mk_labeled (Some "25.0") (Some "1280x720") (Some "12.5kbits/s")
      (Some "20.0%") (Some "3.0").
Proof.
  exact (proj1 (status_file_round_trip Examples.sample_ctx
                  Examples.sample_state Examples.busy0 Examples.busy1
                  Examples.busy1 eq_refl)).
Defined.

(** C6, as stated, fails: the written file has six lines, not the five
    labeled ones; two different frame rates (959/32 = 29.96875 and 30)
    give the same file, so the value cannot be recovered exactly; and an
    empty bitrate is written as [N/A]. *)
Lemma status_file_not_five_lines :
  lines (stats_text 30 1280 720 "N/A" (25 # 2) 3)
  <> five_labeled_lines 30 1280 720 "N/A" (25 # 2) 3
  /\ stats_text (959 # 32) 1280 720 "N/A" (25 # 2) 3
     = stats_text 30 1280 720 "N/A" (25 # 2) 3
  /\ shown_bitrate (mk_ost 0 "") = "N/A".
Proof.
  split; [|split].
  - vm_compute. discriminate.
  - vm_compute. reflexivity.
  - reflexivity.
Qed.

(** ** Overlay corner *)

Section OverlayCorner.

(** [overlay_coords] itself knows the four corners. *)
Lemma overlay_coords_corners :
  overlay_coords "top-left" = ("10", "10")
  /\ overlay_coords "top-right" = ("w-tw-10", "10")
  /\ overlay_coords "bottom-left" = ("10", "h-th-10")
  /\ overlay_coords "bottom-right" = ("w-tw-10", "h-th-10").
Proof. repeat split. Qed.

(** C7 (code defect): the preview is always built with the coordinates
    of the top-left corner.  [start_preview] passes [DEFAULT_CORNER] to
    [overlay_coords], so the filter has [x=10:y=10] for every context,
    and [main] behaves the same for any two configurations that differ
    only in the corner; with corner [top-right] the specification asks for
    [x=w-tw-10:y=10]. *)
Theorem preview_overlay_ignores_corner :
  (forall ctx title,
      nth 18 (start_preview_argv ctx title) ""
      = "drawtext=fontfile=/usr/share/fonts/truetype/dejavu/DejaVuSans.ttf:"
        ++ "textfile=" ++ stats_path ctx
        ++ ":reload=1:x=10:y=10:fontcolor=white:fontsize=28:"
        ++ "box=1:boxcolor=0x000000AA:boxborderw=8:line_spacing=6")
  /\ (forall e m w h f b c1 c2 sm sn em sk lo no,
         main e (mk_cfg m w h f b c1 sm sn em sk) lo no
         = main e (mk_cfg m w h f b c2 sm sn em sk) lo no)
  /\ corner Examples.cfg_top_right = "top-right"
  /\ overlay_coords "top-right" = ("w-tw-10", "10")
  /\ In (EvSpawn
           (start_preview_argv Examples.sample_ctx "USB Camera Preview") 12)
        (trace_of (main Examples.env_ok Examples.cfg_top_right false false)).
Proof.
  split; [|split; [|split; [|split]]]; try reflexivity.
  vm_compute. tauto.
Qed.

End OverlayCorner.

(** ** Session: threads, status file and cleanup *)

Section SessionFacts.



Lemma holds_die {A} (P : event -> Prop) (Q : A -> Prop) msg :
  P (EvStderr ("picam_bench: " ++ msg ++ nl)) -> holds P Q (die msg).
Proof. intros H. split; [repeat constructor; exact H | exact I]. Qed.



Lemma holds_weaken {A} (P : event -> Prop) (Q Q' : A -> Prop) m :
  holds P Q m -> (forall a, Q a -> Q' a) -> holds P Q' m.
Proof.
  intros [Ht Hq] W. split; [exact Ht|].
  destruct (snd m); [now apply W | exact I].
Qed.

Lemma ends_removed_bind {A B} d (Q : A -> Prop) (P : event -> Prop)
  (m : M A) (f : A -> M B) :
  holds P Q m -> (forall a, Q a -> ends_removed d (f a)) ->
  ends_removed d (bind m f).
Proof.
  destruct m as [t [a|c]]; intros [_ Hq] Hf; cbn in *; [|exact I].
  specialize (Hf a Hq). unfold ends_removed in *.
  destruct (f a) as [t' [b|c]]; cbn in *; [|exact I].
  destruct Hf as [t0 ->]. exists (t ++ t0)%list. now rewrite app_assoc.
Qed.

Lemma holds_any_event {A} (P : event -> Prop) (Q : A -> Prop) m :
  holds P Q m -> holds (fun _ => True) Q m.
Proof.
  intros [_ Hq]. split; [|exact Hq].
  induction (fst m); constructor; auto.
Qed.

Lemma holds_trivial {A} (m : M A) :
  holds (fun _ => True) (fun _ => True) m.
Proof.
  split; [induction (fst m); constructor; auto | now destruct (snd m)].
Qed.

Lemma same_session_refl ctx : same_session ctx ctx.
Proof. now repeat split. Qed.

Lemma same_session_trans a b c :
  same_session a b -> same_session b c -> same_session a c.
Proof.
  intros (H1 & H2 & H3) (K1 & K2 & K3). repeat split; congruence.
Qed.

Ltac by_cases :=
  unfold holds, same_session; cbn;
  repeat split; repeat constructor; cbn; auto.

Lemma start_preview_holds sp e ctx title :
  holds (benign sp) (same_session ctx) (start_preview e ctx title).
Proof.
  unfold start_preview, spawn_child.
  destruct (preview_pipe_ok e), (preview_fork e <? 0); by_cases.
Qed.

Lemma start_csi_camera_holds sp e ctx w h f b :
  holds (benign sp) (same_session ctx) (start_csi_camera e ctx w h f b).
Proof.
  unfold start_csi_camera, spawn_child.
  destruct (camera_cmd e), (fifo_open_ok e), (cam_fork e <? 0); by_cases.
Qed.

Lemma start_usb_ffmpeg_holds sp e ctx node fs enc :
  holds (benign sp) (same_session ctx) (start_usb_ffmpeg e ctx node fs enc).
Proof.
  unfold start_usb_ffmpeg, spawn_child.
  destruct (cam_fork e <? 0); by_cases.
Qed.

Lemma terminate_children_holds sp ctx :
  holds (benign sp) (same_session ctx) (terminate_children ctx).
Proof.
  unfold terminate_children.
  destruct (0 <? cam_pid ctx), (0 <? prev_pid ctx); by_cases.
Qed.

Lemma deliver_holds sp e pt ctx :
  holds (benign sp) (same_session ctx) (deliver e pt ctx).
Proof.
  unfold deliver.
  destruct (signal e) as [[|]|], pt;
    try apply terminate_children_holds; by_cases.
Qed.

Lemma set_paths_fields ctx dir :
  tmpdir (set_paths ctx dir) = dir
  /\ stats_path (set_paths ctx dir) = dir ++ "/stats.txt"
  /\ fifo_path (set_paths ctx dir) = dir ++ "/video.h264"
  /\ overlay_disabled (set_paths ctx dir) = overlay_disabled ctx.
Proof. now repeat split. Qed.

Lemma length_append (a b : string) :
  String.length (a ++ b) = (String.length a + String.length b)%nat.
Proof. induction a as [|c a IH]; cbn; [reflexivity | now rewrite IH]. Qed.








(** A session that returns has removed its directory as its last
    action, provided [rm] does its work: this covers the normal end and
    the end after a termination signal. *)
Lemma session_ends_removed e cfg have use_csi usbnode usbfmt enc ctx0 dir :
  rm_ok e = true ->
  mkdtemp_res e = Some dir ->
  ends_removed dir (session e cfg have use_csi usbnode usbfmt enc ctx0).
Proof.
  intros R D. unfold session. rewrite D, R.
  eapply ends_removed_bind; [apply holds_trivial|]. intros _ _.
  eapply ends_removed_bind; [apply holds_trivial|]. intros _ _.
  eapply ends_removed_bind; [apply holds_trivial|]. intros _ _.
  eapply ends_removed_bind; [apply (start_preview_holds "")|].
  intros ctx2 S2.
  eapply ends_removed_bind with (Q := same_session ctx2)
                                (P := benign "").
  { destruct use_csi.
    - destruct have; cbn [negb];
        [apply start_csi_camera_holds | now apply holds_die].
    - apply start_usb_ffmpeg_holds. }
  intros ctx3 S3.
  eapply ends_removed_bind; [apply holds_trivial|]. intros _ _.
  eapply ends_removed_bind; [apply (deliver_holds "")|].
  intros ctx4 S4.
  eapply ends_removed_bind; [apply holds_trivial|]. intros _ _.
  eapply ends_removed_bind; [apply holds_trivial|]. intros _ _.
  eapply ends_removed_bind; [apply holds_trivial|]. intros _ _.
  assert (tmpdir ctx4 = dir) as ->.
  { destruct S2 as (E2 & _), S3 as (E3 & _), S4 as (E4 & _).
    rewrite E4, E3, E2. reflexivity. }
  now exists [].
Qed.

Lemma main_ends_removed e cfg no dir :
  rm_ok e = true ->
  mkdtemp_res e = Some dir ->
  ends_removed dir (main e cfg false no).
Proof.
  intros R D. unfold main.
  destruct (ffmpeg_exists e); cbn [negb]; [|exact I].
  eapply ends_removed_bind; [apply holds_trivial|].
  intros [[use_csi usbnode] usbfmt] _.
  eapply ends_removed_bind; [apply holds_trivial|].
  intros ctx0 _. now apply session_ends_removed.
Qed.

Lemma removed_after f t d p :
  under d p = true -> fs_after f (t ++ [EvRemoveDir d]) p = None.
Proof.
  intros U. unfold fs_after. rewrite fold_left_app. cbn. now rewrite U.
Qed.

(** When [main] returns, the session directory and everything below it
    are gone. *)
Lemma returning_session_removes_directory e cfg no dir c :
  rm_ok e = true ->
  mkdtemp_res e = Some dir ->
  snd (main e cfg false no) = Ret c ->
  forall p, under dir p = true ->
            fs_after empty_fs (trace_of (main e cfg false no)) p = None.
Proof.
  intros R D E p U.
  pose proof (main_ends_removed e cfg no dir R D) as H.
  unfold ends_removed in H. rewrite E in H. destruct H as [t H].
  unfold trace_of. rewrite H. now apply removed_after.
Qed.

(** Every failure after the directory exists leaves through [die]: if
    [mkfifo] fails, the process exits with status 1 and the directory is
    still there. *)
Lemma session_mkfifo_failure e cfg have use_csi usbnode usbfmt enc ctx0 dir :
  mkdtemp_res e = Some dir ->
  mkfifo_ok e = false ->
  let m := session e cfg have use_csi usbnode usbfmt enc ctx0 in
  status_of m = 1
  /\ fs_after empty_fs (trace_of m) dir = Some Dir.
Proof.
  intros D F. unfold session. rewrite D, F. cbn.
  unfold put. now rewrite String.eqb_refl.
Qed.

(** C8 (code defect): on the example system, when [mkfifo] fails after
    the temporary directory has been created, [main] prints the
    diagnostic and exits with status 1; no removal happens and the
    directory still exists at exit.  The same system without the failure
    ends with the directory and its contents removed. *)
Theorem mkfifo_failure_leaves_directory :
  let m := main Examples.env_mkfifo_fails Examples.cfg_top_right
             false false in
  let ok := main Examples.env_ok Examples.cfg_top_right false false in
  status_of m = 1
  /\ trace_of m
     = [ EvMkdtemp "/tmp/picamc.a1b2c3";
         EvStderr ("picam_bench: mkfifo(/tmp/picamc.a1b2c3/video.h264)"
                   ++ nl) ]
  /\ fs_after empty_fs (trace_of m) "/tmp/picamc.a1b2c3" = Some Dir
  /\ status_of ok = 0
  /\ fs_after empty_fs (trace_of ok) "/tmp/picamc.a1b2c3" = None
  /\ fs_after empty_fs (trace_of ok) "/tmp/picamc.a1b2c3/stats.txt" = None.
Proof. cbv zeta. repeat split; vm_compute; reflexivity. Qed.

(** *** The placeholder is written before any process is started *)









(** An overlay-disabled run on the example system. *)
Lemma no_overlay_run_example :
  trace_of (main Examples.env_ok Examples.cfg_top_right false true)
  = [ EvMkdtemp "/tmp/picamc.a1b2c3";
      EvMkfifo "/tmp/picamc.a1b2c3/video.h264";
      EvWriteFile "/tmp/picamc.a1b2c3/stats.txt" placeholder;
      EvSpawn (start_preview_argv Examples.sample_ctx "USB Camera Preview")
        12;
      EvSpawn (start_usb_ffmpeg_argv Examples.sample_ctx "/dev/video0"
                 (mk_fmt false true true) ENC_HARDWARE) 11;
      EvWait 11; EvWait 12;
      EvRemoveDir "/tmp/picamc.a1b2c3" ].
Proof. vm_compute. reflexivity. Qed.

End SessionFacts.

(** ** The producer that a run starts *)

Section ProducerInRun.










End ProducerInRun.

(** ** Device capability filter and scan *)

Section DeviceScan.

Variable devs : devices.

(** The scan stops at the first entry the filter accepts and returns it
    through the caller's buffer. *)
Lemma first_capture_node_accepts outsz pathv out :
  first_capture_node devs outsz pathv = Some out ->
  exists n, In n pathv
            /\ v4l2_supports_capture devs n = true
            /\ out = snprintf_s outsz n.
Proof.
  induction pathv as [|n pathv IH]; cbn; intros H; [discriminate|].
  destruct (v4l2_supports_capture devs n) eqn:E.
  - injection H as <-. exists n. auto.
  - destruct (IH H) as (m & I & A & O). exists m. auto.
Qed.

(** The filter does refuse a path whose capability query fails, whose
    driver or card names an internal node, or whose driver is not
    [uvcvideo]. *)
Lemma filter_refuses p :
  match v4l2_querycap devs p with
  | None => True
  | Some cap => isp_or_codec_node cap = true \/ uvc_driver cap = false
  end ->
  v4l2_supports_capture devs p = false.
Proof.
  unfold v4l2_supports_capture.
  destruct (v4l2_querycap devs p) as [cap|]; [|reflexivity].
  unfold isp_or_codec_node, uvc_driver.
  intros [-> | ->]; [reflexivity|].
  now destruct (_ || _ || _ || _)%bool.
Qed.

End DeviceScan.

(** C9 (code defect): a webcam has two device paths, one for pictures
    and one for metadata, here with the numbers 9 and 10.  The policy
    rejects the metadata path, which advertises no video capture; the
    filter accepts it, because after the capabilities of the path it
    also looks at those of the physical device; and the scan, which
    gets [/dev/video10] before [/dev/video9], selects it.  The filter
    does refuse a path whose query fails, whose driver or card names
    an internal node, or whose driver is not [uvcvideo]. *)
Theorem metadata_node_is_selected :
  rejected Examples.webcam_9_10 "/dev/video10"
  /\ v4l2_supports_capture Examples.webcam_9_10 "/dev/video10" = true
  /\ pick_usb_node Examples.webcam_9_10 (Some Examples.glob_9_10) 128
     = Some "/dev/video10"
  /\ v4l2_supports_capture Examples.webcam_9_10 "/dev/video9" = true
  /\ advertises_capture
       (mk_cap "uvcvideo" "HD Webcam" 0x84a00001 0x04200001) = true
  /\ (forall devs p,
         match v4l2_querycap devs p with
         | None => True
         | Some cap => isp_or_codec_node cap = true \/ uvc_driver cap = false
         end ->
         rejected devs p /\ v4l2_supports_capture devs p = false).
Proof.
  split; [right; right; reflexivity|].
  do 4 (split; [reflexivity|]).
  intros devs p H. split; [|now apply filter_refuses].
  unfold rejected. destruct (v4l2_querycap devs p); [|exact I].
  destruct H; auto.
Qed.


(** * Further properties of the code *)

Import Scan ProcFiles.

(** ** Decimal numerals: printing and scanning *)

Section Numerals.

Lemma scan_digits_stop acc s :
  ends_numeral s = true -> scan_digits acc s = (acc, s).
Proof.
  destruct s as [|c s]; cbn; [reflexivity|].
  now destruct (is_digit c).
Qed.

Lemma scan_digits_uint d acc rest :
  scan_digits acc (NilEmpty.string_of_uint d ++ rest)
  = scan_digits (accum d acc) rest.
Proof.
  revert acc. induction d; intros acc; cbn [NilEmpty.string_of_uint append];
    [reflexivity | ..]; cbn [scan_digits]; apply IHd.
Qed.

Lemma accum_value d acc :
  accum d acc
  = acc * 10 ^ Z.of_N (DecimalPos.Unsigned.usize d)
    + Z.of_N (DecimalPos.Unsigned.of_lu (Decimal.rev d)).
Proof.
  revert acc.
  induction d; intros acc; cbn [accum DecimalPos.Unsigned.usize];
    [cbn; lia | ..];
    rewrite IHd;
    match goal with
    | |- context [Decimal.rev (?f d)] =>
        change (Decimal.rev (f d)) with (Decimal.revapp d (f Decimal.Nil))
    end;
    rewrite (DecimalPos.Unsigned.of_lu_revapp d _);
    rewrite N2Z.inj_succ, Z.pow_succ_r by apply N2Z.is_nonneg;
    rewrite N2Z.inj_add, N2Z.inj_mul, N2Z.inj_pow;
    cbn [DecimalPos.Unsigned.of_lu];
    change (Z.of_N 10) with 10; cbn [Z.of_N N.mul N.add]; ring.
Qed.

(** Printing a natural number and reading the digits back. *)
Lemma accum_to_uint v :
  0 <= v ->
  exists d, Z.to_int v = Decimal.Pos d /\ d <> Decimal.Nil /\ accum d 0 = v.
Proof.
  intros H. pose proof (DecimalZ.of_to v) as E.
  destruct v as [|p|p]; [| |lia].
  - exists (Decimal.D0 Decimal.Nil). repeat split. discriminate.
  - exists (Pos.to_uint p). cbn in *. split; [reflexivity|]. split.
    + apply DecimalPos.Unsigned.to_uint_nonnil.
    + rewrite accum_value, Z.mul_0_l, Z.add_0_l, <- DecimalPos.Unsigned.of_uint_alt.
      exact E.
Qed.

Lemma digit_not_space c : is_digit c = true -> isspace c = false.
Proof.
  unfold is_digit, isspace. intros H.
  apply andb_true_iff in H as [H1 H2].
  apply Nat.leb_le in H1. apply Nat.leb_le in H2.
  destruct (Nat.eqb_spec (nat_of_ascii c) 32); [lia|].
  destruct (Nat.leb_spec 9 (nat_of_ascii c)); cbn; [|reflexivity].
  destruct (Nat.leb_spec (nat_of_ascii c) 13); [lia|reflexivity].
Qed.

Lemma digit_not_sign c :
  is_digit c = true -> Ascii.eqb c "-" = false /\ Ascii.eqb c "+" = false.
Proof.
  intros H. split.
  - destruct (Ascii.eqb_spec c "-") as [->|]; [discriminate|reflexivity].
  - destruct (Ascii.eqb_spec c "+") as [->|]; [discriminate|reflexivity].
Qed.

Lemma scan_numeral_unsigned s :
  starts_numeral s = true ->
  scan_numeral s
  = Some (false, fst (scan_digits 0 s), snd (scan_digits 0 s)).
Proof.
  destruct s as [|c s]; [discriminate|]. cbn [starts_numeral]. intros D.
  unfold scan_numeral. cbn [skip_space].
  rewrite (digit_not_space c D).
  destruct (digit_not_sign c D) as [-> ->]. rewrite D.
  now destruct (scan_digits 0 (String c s)).
Qed.

Lemma scan_numeral_negative s :
  starts_numeral s = true ->
  scan_numeral (String "-" s)
  = Some (true, fst (scan_digits 0 s), snd (scan_digits 0 s)).
Proof.
  destruct s as [|c s]; [discriminate|]. cbn [starts_numeral]. intros D.
  unfold scan_numeral. cbn [skip_space].
  change (isspace "-") with false. cbv iota.
  change (Ascii.eqb "-" "-") with true. cbv iota. rewrite D.
  now destruct (scan_digits 0 (String c s)).
Qed.

Lemma uint_starts_numeral d rest :
  d <> Decimal.Nil ->
  starts_numeral (NilEmpty.string_of_uint d ++ rest) = true.
Proof. destruct d; [congruence | ..]; reflexivity. Qed.

Lemma nilzero_uint d :
  d <> Decimal.Nil ->
  NilZero.string_of_uint d = NilEmpty.string_of_uint d.
Proof. now destruct d. Qed.

Lemma scan_digits_fmt_uint d rest :
  ends_numeral rest = true ->
  scan_digits 0 (NilEmpty.string_of_uint d ++ rest) = (accum d 0, rest).
Proof.
  intros E. rewrite scan_digits_uint. now apply scan_digits_stop.
Qed.

(** Scanning what ["%d"] printed gives back sign and magnitude. *)
Lemma scan_numeral_fmt_d v rest :
  ends_numeral rest = true ->
  scan_numeral (fmt_d v ++ rest) = Some (v <? 0, Z.abs v, rest).
Proof.
  intros E. unfold fmt_d.
  destruct (accum_to_uint (Z.abs v)) as (d & Hd & Hn & Hv); [lia|].
  destruct v as [|p|p]; cbn [Z.abs] in *.
  - cbn in Hd. injection Hd as <-. cbn [Z.to_int NilZero.string_of_int].
    rewrite nilzero_uint by exact Hn.
    rewrite scan_numeral_unsigned by now apply uint_starts_numeral.
    rewrite scan_digits_fmt_uint by exact E. now rewrite Hv.
  - cbn in Hd. injection Hd as <-. cbn [Z.to_int NilZero.string_of_int].
    rewrite nilzero_uint by exact Hn.
    rewrite scan_numeral_unsigned by now apply uint_starts_numeral.
    rewrite scan_digits_fmt_uint by exact E. now rewrite Hv.
  - cbn in Hd. injection Hd as <-. cbn [Z.to_int NilZero.string_of_int].
    rewrite nilzero_uint by exact Hn. cbn [append].
    rewrite scan_numeral_negative by now apply uint_starts_numeral.
    rewrite scan_digits_fmt_uint by exact E. now rewrite Hv.
Qed.

(** ["%d"] reads back what ["%d"] printed, for every [int]. *)
Lemma scan_d_fmt_d pol t v rest :
  INT_MIN <= v <= INT_MAX ->
  ends_numeral rest = true ->
  scan_d pol t (fmt_d v ++ rest) = Some (v, rest).
Proof.
  intros R E. unfold scan_d. rewrite scan_numeral_fmt_d by exact E.
  assert ((if v <? 0 then - Z.abs v else Z.abs v) = v) as ->.
  { destruct (Z.ltb_spec v 0); lia. }
  unfold store_signed.
  destruct (Z.leb_spec INT_MIN v); [|lia].
  destruct (Z.leb_spec v INT_MAX); [|lia]. reflexivity.
Qed.

(** ["%llu"] reads back a printed value below 2^64. *)
Lemma scan_llu_fmt_d pol v rest :
  0 <= v < Proc.two64 ->
  ends_numeral rest = true ->
  scan_llu pol (fmt_d v ++ rest) = Some (v, rest).
Proof.
  intros R E. unfold scan_llu. rewrite scan_numeral_fmt_d by exact E.
  unfold store_ull. rewrite Z.abs_eq by lia.
  destruct (Z.ltb_spec v Proc.two64); [|lia].
  destruct (Z.ltb_spec v 0); [lia|reflexivity].
Qed.

Lemma scan_numeral_blank s : scan_numeral (String " " s) = scan_numeral s.
Proof. reflexivity. Qed.

End Numerals.

(** ** Reading [/proc/<pid>/stat] and [/proc/stat] *)

Section ProcText.

Variable pol : overflow_policy.

Lemma strrchr_absent b tl c :
  all_chars (fun x => negb (Ascii.eqb x c)) b = true ->
  strrchr (b ++ String NUL tl) c = None.
Proof.
  induction b as [|d b IH]; intros H; [reflexivity|].
  cbn in H. apply andb_true_iff in H as [Hd Hb].
  cbn [append strrchr]. rewrite (IH Hb).
  destruct (Ascii.eqb d NUL); [reflexivity|].
  apply negb_true_iff in Hd. now rewrite Hd.
Qed.

Lemma strrchr_last a b c :
  all_chars not_nul a = true ->
  Ascii.eqb c NUL = false ->
  strrchr b c = None ->
  strrchr (a ++ String c b) c = Some (String c b).
Proof.
  intros Ha Hc Hb. induction a as [|d a IH].
  - cbn [append strrchr]. now rewrite Hc, Hb, Ascii.eqb_refl.
  - cbn in Ha. apply andb_true_iff in Ha as [Hd Ha].
    cbn [append strrchr]. unfold not_nul in Hd.
    apply negb_true_iff in Hd. now rewrite Hd, (IH Ha).
Qed.

Lemma letter_bounds c :
  is_letter c = true -> (65 <= nat_of_ascii c)%nat.
Proof.
  unfold is_letter. intros H. apply orb_true_iff in H as [H|H];
    apply andb_true_iff in H as [H1 H2];
    apply Nat.leb_le in H1; lia.
Qed.

Lemma letter_class c :
  is_letter c = true ->
  isspace c = false /\ is_digit c = false
  /\ Ascii.eqb c "-" = false /\ Ascii.eqb c "+" = false
  /\ Ascii.eqb c NUL = false /\ not_rparen c = true.
Proof.
  intros H. pose proof (letter_bounds c H) as B.
  assert (forall d, (nat_of_ascii d < 65)%nat -> Ascii.eqb c d = false) as N.
  { intros d L. destruct (Ascii.eqb_spec c d) as [->|]; [lia|reflexivity]. }
  repeat split.
  - unfold isspace.
    destruct (Nat.eqb_spec (nat_of_ascii c) 32); [lia|].
    destruct (Nat.leb_spec (nat_of_ascii c) 13); [lia|].
    now rewrite andb_false_r.
  - unfold is_digit.
    destruct (Nat.leb_spec (nat_of_ascii c) 57); [lia|].
    now rewrite andb_false_r.
  - apply N. cbn. lia.
  - apply N. cbn. lia.
  - apply N. cbn. lia.
  - unfold not_rparen. rewrite N; [reflexivity | cbn; lia].
Qed.

(** No number can be read where a letter stands. *)
Lemma scan_llus_letter n c s :
  is_letter c = true -> scan_llus pol n (String c s) = [].
Proof.
  intros H. destruct (letter_class c H) as (S & D & M & P & _).
  destruct n; [reflexivity|]. cbn [scan_llus]. unfold scan_llu, scan_numeral.
  cbn [skip_space]. now rewrite S, M, P, D.
Qed.

(** The text of a [stat] file, or its absence, as [fopen] gives it. *)
Lemma kernel_layout_unparsed (stat : option string) (tail : string)
  (status : option string) :
  match stat with Some text => kernel_stat text | None => True end ->
  read_proc_pid_stat pol stat tail status = None.
Proof.
  destruct stat as [text|]; [|reflexivity].
  intros (head & st & rest & -> & Hh & Hs & Hr & Hl).
  destruct (letter_class st Hs) as (_ & _ & _ & _ & Hn & Hp).
  unfold read_proc_pid_stat.
  rewrite substring_whole by exact Hl.
  rewrite !append_assoc. cbn [append].
  assert (strrchr (String " " (String st (rest ++ String NUL tail))) ")"
          = None) as A.
  { apply (strrchr_absent (String " " (String st rest)) tail ")").
    cbn [all_chars]. unfold not_rparen in Hp. rewrite Hp. exact Hr. }
  rewrite (strrchr_last head _ ")" Hh eq_refl A).
  cbn [advance c_str]. rewrite Hn.
  now rewrite scan_llus_letter.
Qed.

(** X1: a [stat] file in the kernel's layout is never parsed: the
    function looks for the first number two characters after the last
    closing parenthesis, where the kernel puts the state letter, so it
    returns -1 whatever the process is. *)
Theorem kernel_stat_is_never_parsed (text tail : string)
  (status : option string) :
  kernel_stat text ->
  read_proc_pid_stat pol (Some text) tail status = None.
Proof. exact (kernel_layout_unparsed (Some text) tail status). Qed.

End ProcText.

Section ProcLoad.

Variable pol : overflow_policy.

Lemma kernel_files_unreadable f :
  kernel_files f ->
  read_proc_pid_stat pol (f_stat f) (f_tail f) (f_status f) = None.
Proof.
  unfold kernel_files. apply kernel_layout_unparsed.
Qed.

Lemma sum_deltas_unreadable fs0 fs1 pids :
  (forall pid, Proc.read_proc_pid_stat fs0 pid = None) ->
  (forall pid, Proc.read_proc_pid_stat fs1 pid = None) ->
  Proc.sum_deltas fs0 fs1 pids = 0.
Proof.
  intros H0 H1. unfold Proc.sum_deltas.
  induction pids as [|p pids IH]; [reflexivity|].
  cbn [fold_left]. rewrite add_delta_unreadable; auto.
  cbv. split; [discriminate|reflexivity].
Qed.

Lemma rss_sum_unreadable fs pids :
  (forall pid, Proc.read_proc_pid_stat fs pid = None) ->
  fold_left (Proc.add_rss fs) pids 0 = 0.
Proof.
  intros H. induction pids as [|p pids IH]; [reflexivity|].
  cbn [fold_left]. now rewrite add_rss_unreadable.
Qed.

Lemma fmt_1f_zero x : Qnum x = 0 -> fmt_1f x = "0.0".
Proof. destruct x as [n d]. cbn [Qnum]. intros ->. reflexivity. Qed.

Lemma cpu_percent_unreadable fs0 fs1 pids :
  (forall pid, Proc.read_proc_pid_stat fs0 pid = None) ->
  (forall pid, Proc.read_proc_pid_stat fs1 pid = None) ->
  Qnum (Proc.cpu_percent_for_pids fs0 fs1 pids) = 0.
Proof.
  intros H0 H1. unfold Proc.cpu_percent_for_pids.
  destruct (Proc.read_proc_stat_total fs0); [|reflexivity].
  destruct (Proc.read_proc_stat_total fs1); [|reflexivity].
  cbv zeta. destruct (_ <=? 0); [reflexivity|].
  now rewrite sum_deltas_unreadable.
Qed.

(** X2: on a system whose [stat] files have the kernel's layout, every
    cycle of the stats writer publishes a CPU load of 0.0 percent and a
    memory use of 0.0 MB, whatever the two processes do. *)
Theorem kernel_procfs_shows_zero_load
  (ctx : ctx_t) (st : overlay_state_t)
  (s0 s1 s2 : option string) (t0 t1 t2 : Proc.cpu_tot_t)
  (files0 files1 files2 : Z -> pid_files) :
  (forall pid, kernel_files (files0 pid)) ->
  (forall pid, kernel_files (files1 pid)) ->
  (forall pid, kernel_files (files2 pid)) ->
  all_chars not_space (latest_bitrate st) = true ->
  let text := stats_cycle ctx st (mount pol s0 t0 files0)
                (mount pol s1 t1 files1) (mount pol s2 t2 files2) in
  l_cpu (parse_status text) = Some "0.0%"
  /\ l_mem_mb (parse_status text) = Some "0.0".
Proof.
  intros K0 K1 K2 B. cbv zeta. unfold stats_cycle, parse_status.
  rewrite stats_text_lines by now apply shown_bitrate_not_space.
  rewrite (fmt_1f_zero (Proc.cpu_percent_for_pids _ _ _)).
  2:{ apply cpu_percent_unreadable; intros pid;
        apply kernel_files_unreadable; auto. }
  rewrite (fmt_1f_zero (Proc.rss_mb_for_pids _ _)).
  2:{ unfold Proc.rss_mb_for_pids. rewrite rss_sum_unreadable; [reflexivity|].
      intros pid. apply kernel_files_unreadable; auto. }
  split; reflexivity.
Qed.

End ProcLoad.

Lemma kernel_stat_is_never_parsed_witness :
  read_proc_pid_stat Samples.sample_policy (Some Samples.ffmpeg_stat) ""
    (Some Samples.ffmpeg_status) = None
  /\ read_proc_pid_stat Samples.sample_policy (Some Samples.odd_stat) ""
       None = None.
Proof.
  split; apply kernel_stat_is_never_parsed.
  - exists "11 (ffmpeg", "S"%char,
      (" 1 11 11 34816 11 4194304 500 0 2 0 150 30 0 0 "
       ++ "20 0 5 0 12345 100000000 2000 18446744073709551615" ++ nl).
    repeat split. apply Nat.leb_le. reflexivity.
  - exists "12 (my (odd) prog", "R"%char,
      (" 1 12 12 0 -1 4194304 9 0 0 0 7 3 0 0 20 0 1 0 5" ++ nl).
    repeat split. apply Nat.leb_le. reflexivity.
Defined.

Lemma sample_kernel_files pid : kernel_files (Samples.kernel_proc pid).
Proof.
  unfold Samples.kernel_proc, kernel_files.
  destruct (pid =? 11); [|destruct (pid =? 12); [|exact I]].
  - exists "11 (ffmpeg", "S"%char,
      (" 1 11 11 34816 11 4194304 500 0 2 0 150 30 0 0 "
       ++ "20 0 5 0 12345 100000000 2000 18446744073709551615" ++ nl).
    repeat split. apply Nat.leb_le. reflexivity.
  - exists "12 (my (odd) prog", "R"%char,
      (" 1 12 12 0 -1 4194304 9 0 0 0 7 3 0 0 20 0 1 0 5" ++ nl).
    repeat split. apply Nat.leb_le. reflexivity.
Defined.

Lemma kernel_procfs_shows_zero_load_witness :
  let text :=
    stats_cycle Examples.sample_ctx Examples.sample_state
      (mount Samples.sample_policy (Some Samples.proc_stat0) Samples.stale
         Samples.kernel_proc)
      (mount Samples.sample_policy (Some Samples.proc_stat1) Samples.stale
         Samples.kernel_proc)
      (mount Samples.sample_policy (Some Samples.proc_stat1) Samples.stale
         Samples.kernel_proc) in
  l_cpu (parse_status text) = Some "0.0%"
  /\ l_mem_mb (parse_status text) = Some "0.0".
Proof.
  exact (kernel_procfs_shows_zero_load Samples.sample_policy
           Examples.sample_ctx Examples.sample_state _ _ _ _ _ _ _ _ _
           sample_kernel_files sample_kernel_files sample_kernel_files
           eq_refl).
Defined.

Section ProcStatTotal.

Variable pol : overflow_policy.

Lemma fgets_from_line room a more :
  all_chars no_lf a = true ->
  (String.length a < room)%nat ->
  fgets_from room (a ++ String LF more) = (a ++ String LF "", more).
Proof.
  revert room. induction a as [|c a IH]; intros room H L.
  - destruct room; [cbn in L; lia | reflexivity].
  - cbn in H. apply andb_true_iff in H as [Hc Ha].
    destruct room; [cbn in L; lia|]. cbn [append fgets_from].
    unfold no_lf in Hc. apply negb_true_iff in Hc. rewrite Hc.
    rewrite IH; [reflexivity | exact Ha | cbn in L; lia].
Qed.

Lemma fgets_nonempty size a more :
  fgets size (a ++ String LF more)
  = Some (fgets_from (size - 1) (a ++ String LF more)).
Proof. now destruct a. Qed.

Lemma c_str_whole s : all_chars not_nul s = true -> c_str s = s.
Proof.
  induction s as [|c s IH]; cbn; [reflexivity|]. intros H.
  apply andb_true_iff in H as [Hc Hs]. unfold not_nul in Hc.
  apply negb_true_iff in Hc. now rewrite Hc, IH.
Qed.

Lemma numeric_not_nul s :
  all_chars numeric_char s = true -> all_chars not_nul s = true.
Proof.
  apply all_chars_weaken. intros c H. unfold not_nul.
  destruct (Ascii.eqb_spec c NUL) as [->|]; [discriminate|reflexivity].
Qed.

(** One counter of the line, preceded by a blank. *)
Lemma scan_llu_blank_fmt v rest :
  0 <= v < Proc.two64 ->
  ends_numeral rest = true ->
  scan_llu pol (String " " (fmt_d v ++ rest)) = Some (v, rest).
Proof.
  intros R E. unfold scan_llu. rewrite scan_numeral_blank.
  now apply scan_llu_fmt_d.
Qed.

Lemma scan_llu_blank s : scan_llu pol (String " " s) = scan_llu pol s.
Proof. reflexivity. Qed.

Lemma scan_llus_step k x v rest :
  scan_llu pol x = Some (v, rest) ->
  scan_llus pol (S k) x = v :: scan_llus pol k rest.
Proof. intros H. cbn [scan_llus]. now rewrite H. Qed.

Lemma scan_seven_counters u n s i w q sq rest :
  0 <= u < Proc.two64 -> 0 <= n < Proc.two64 -> 0 <= s < Proc.two64 ->
  0 <= i < Proc.two64 -> 0 <= w < Proc.two64 -> 0 <= q < Proc.two64 ->
  0 <= sq < Proc.two64 ->
  ends_numeral rest = true ->
  scan_llus pol 7
    (String " " (String " "
       (fmt_d u ++ String " " (fmt_d n ++ String " " (fmt_d s ++ String " "
          (fmt_d i ++ String " " (fmt_d w ++ String " " (fmt_d q
             ++ String " " (fmt_d sq ++ rest)))))))))
  = [u; n; s; i; w; q; sq].
Proof.
  intros Hu Hn Hs Hi Hw Hq Hsq E.
  rewrite (scan_llus_step _ _ u _)
    by (rewrite scan_llu_blank; now apply scan_llu_blank_fmt).
  rewrite (scan_llus_step _ _ n _) by now apply scan_llu_blank_fmt.
  rewrite (scan_llus_step _ _ s _) by now apply scan_llu_blank_fmt.
  rewrite (scan_llus_step _ _ i _) by now apply scan_llu_blank_fmt.
  rewrite (scan_llus_step _ _ w _) by now apply scan_llu_blank_fmt.
  rewrite (scan_llus_step _ _ q _) by now apply scan_llu_blank_fmt.
  rewrite (scan_llus_step _ _ sq _) by now apply scan_llu_blank_fmt.
  reflexivity.
Qed.

(** X3: the first line of [/proc/stat], as the kernel prints it, is
    read back exactly: the seven counters user, nice, system, idle,
    iowait, irq and softirq are stored, whatever further counters follow
    on the line and whatever the structure held before. *)
Theorem read_proc_stat_total_cpu_line
  (u n s i w q sq : Z) (rest more : string) (t : Proc.cpu_tot_t) :
  0 <= u < Proc.two64 -> 0 <= n < Proc.two64 -> 0 <= s < Proc.two64 ->
  0 <= i < Proc.two64 -> 0 <= w < Proc.two64 -> 0 <= q < Proc.two64 ->
  0 <= sq < Proc.two64 ->
  ends_numeral rest = true ->
  all_chars no_lf rest = true ->
  all_chars not_nul rest = true ->
  (String.length (cpu_line u n s i w q sq rest) < Z.to_nat 511)%nat ->
  read_proc_stat_total pol
    (Some (cpu_line u n s i w q sq rest ++ String LF more)) t
  = Some (Proc.mk_cpu_tot u n s i w q sq).
Proof.
  intros Hu Hn Hs Hi Hw Hq Hsq E L N Len.
  assert (forall v, all_chars no_lf (fmt_d v) = true) as F1.
  { intros v. apply numeric_no_lf, fmt_d_numeric. }
  assert (forall v, all_chars not_nul (fmt_d v) = true) as F2.
  { intros v. apply numeric_not_nul, fmt_d_numeric. }
  assert (all_chars no_lf (cpu_line u n s i w q sq rest) = true) as A1.
  { unfold cpu_line. rewrite !all_chars_app, !F1, L. reflexivity. }
  assert (all_chars not_nul (cpu_line u n s i w q sq rest) = true) as A2.
  { unfold cpu_line. rewrite !all_chars_app, !F2, N. reflexivity. }
  unfold read_proc_stat_total. rewrite fgets_nonempty.
  change (Z.to_nat 512 - 1)%nat with (Z.to_nat 511).
  rewrite fgets_from_line by assumption.
  rewrite c_str_whole.
  2:{ rewrite all_chars_app, A2. reflexivity. }
  unfold cpu_line. rewrite !append_assoc.
  cbn [append StatusFile.strip_prefix Ascii.eqb Bool.eqb].
  assert (ends_numeral (rest ++ String LF "") = true) as E'.
  { destruct rest; [reflexivity | exact E]. }
  rewrite (scan_seven_counters u n s i w q sq _ Hu Hn Hs Hi Hw Hq Hsq E').
  reflexivity.
Qed.

(** A first line that is no [cpu] line is accepted all the same, and
    the structure keeps what it held. *)
Lemma read_proc_stat_total_other_line content buf rest t :
  fgets (Z.to_nat 512) content = Some (buf, rest) ->
  StatusFile.strip_prefix "cpu" (c_str buf) = None ->
  read_proc_stat_total pol (Some content) t = Some t.
Proof.
  intros F S. unfold read_proc_stat_total. rewrite F, S. now destruct t.
Qed.

End ProcStatTotal.

(** ** Command line *)

Section CommandLine.

Import Cli.

Variable pol : overflow_policy.

Lemma bind_ret_inv {A B} (m : M A) (f : A -> M B) t b :
  bind m f = (t, Ret b) ->
  exists t1 a t2, m = (t1, Ret a) /\ f a = (t2, Ret b) /\ t = (t1 ++ t2)%list.
Proof.
  destruct m as [t1 [a|c]]; cbn; [|discriminate].
  destruct (f a) as [t2 r] eqn:E. intros H. injection H as <- ->.
  now exists t1, a, t2.
Qed.

Lemma bind_exit_inv {A B} (m : M A) (f : A -> M B) t c :
  bind m f = (t, Exit c) ->
  m = (t, Exit c)
  \/ exists t1 a t2, m = (t1, Ret a) /\ f a = (t2, Exit c)
                     /\ t = (t1 ++ t2)%list.
Proof.
  destruct m as [t1 [a|c1]]; cbn.
  - destruct (f a) as [t2 r] eqn:E. intros H. injection H as <- ->.
    right. now exists t1, a, t2.
  - intros H. injection H as <- <-. now left.
Qed.

(** [parse_res] returns only positive dimensions, silently. *)
Lemma parse_res_positive s t w h :
  parse_res pol s = (t, Ret (w, h)) -> t = [] /\ 0 < w /\ 0 < h.
Proof.
  unfold parse_res.
  destruct (scan_d pol TInt s) as [[w0 [|c r]]|]; try discriminate.
  destruct (Ascii.eqb c "x"); [|discriminate].
  destruct (scan_d pol TInt r) as [[h0 r']|]; [|discriminate].
  destruct (Z.leb_spec w0 0) as [|Lw]; [discriminate|].
  destruct (Z.leb_spec h0 0) as [|Lh]; [discriminate|].
  cbn. intros E. injection E as <- <- <-. auto.
Qed.

(** When [parse_res] fails it leaves through [die]. *)
Lemma parse_res_exit s t c :
  parse_res pol s = (t, Exit c) ->
  c = 1 /\ exists text, t = [EvStderr text].
Proof.
  unfold parse_res, die.
  destruct (scan_d pol TInt s) as [[w0 [|c0 r]]|];
    try (intros H; injection H as <- <-; eauto).
  destruct (Ascii.eqb c0 "x");
    [|intros H; injection H as <- <-; eauto].
  destruct (scan_d pol TInt r) as [[h0 r']|];
    [|intros H; injection H as <- <-; eauto].
  destruct ((w0 <=? 0) || (h0 <=? 0))%bool;
    [intros H; injection H as <- <-; eauto | discriminate].
Qed.

(** X4: [parse_res] reads back a resolution printed as WxH, whatever
    follows the height, exactly when both dimensions are positive;
    a non-positive dimension is rejected with exit status 1. *)
Theorem parse_res_round_trip (w h : Z) (junk : string) :
  INT_MIN <= w <= INT_MAX ->
  INT_MIN <= h <= INT_MAX ->
  ends_numeral junk = true ->
  let s := fmt_d w ++ "x" ++ fmt_d h ++ junk in
  (0 < w -> 0 < h -> parse_res pol s = ret (w, h))
  /\ (w <= 0 \/ h <= 0 ->
      parse_res pol s = die ("Invalid resolution '" ++ s ++ "'")).
Proof.
  intros Rw Rh E. cbv zeta. unfold parse_res.
  rewrite (scan_d_fmt_d pol TInt w ("x" ++ fmt_d h ++ junk) Rw eq_refl).
  cbn [append]. change (Ascii.eqb "x" "x") with true. cbv iota.
  rewrite (scan_d_fmt_d pol TInt h _ Rh E).
  split.
  - intros Hw Hh.
    destruct (Z.leb_spec w 0); [lia|]. destruct (Z.leb_spec h 0); [lia|].
    reflexivity.
  - intros [Hw|Hh].
    + destruct (Z.leb_spec w 0); [reflexivity|lia].
    + destruct (Z.leb_spec h 0); [now rewrite orb_true_r|lia].
Qed.

Lemma substring_length n s : (String.length (String.substring 0 n s) <= n)%nat.
Proof.
  revert s. induction n as [|n IH]; intros [|c s]; cbn; try lia.
  specialize (IH s). lia.
Qed.

Lemma snprintf_s_fits k s :
  (0 < k)%nat -> (String.length (snprintf_s k s) < k)%nat.
Proof.
  intros H. unfold snprintf_s.
  pose proof (substring_length (k - 1) s). lia.
Qed.

Lemma prefix_substring p n s :
  String.prefix p s = true ->
  (String.length p <= n)%nat ->
  String.prefix p (String.substring 0 n s) = true.
Proof.
  revert n s. induction p as [|a p IH]; intros n s H L.
  - now destruct (String.substring 0 n s).
  - destruct s as [|b s]; [discriminate|]. cbn in H.
    destruct n; [cbn in L; lia|]. cbn.
    destruct (Ascii.ascii_dec a b); [|discriminate].
    apply IH; [exact H | cbn in L; lia].
Qed.

Lemma defaults_well_formed : well_formed (p_cfg defaults).
Proof.
  unfold well_formed. cbn.
  repeat split; try lia; try discriminate.
Qed.

Ltac ret_case :=
  let E := fresh "E" in
  intros ? ? E; injection E as <- <-; split; [reflexivity|];
  intros (W1 & W2 & W3 & W4 & W5 & W6); unfold well_formed; cbn;
  repeat split; auto.

(** A step of the option loop that returns has printed nothing and
    keeps the configuration well formed. *)
Lemma with_value_ret a v st m :
  with_value pol a v st = Some m ->
  forall t st', m = (t, Ret st') ->
    t = []
    /\ (well_formed (p_cfg st) -> well_formed (p_cfg st')).
Proof.
  unfold with_value.
  destruct (is_one_of a "-m" "--method").
  { intros H; injection H as <-. ret_case. apply snprintf_s_fits; lia. }
  destruct (is_one_of a "-r" "--resolution").
  { intros H; injection H as <-. intros t st' E.
    apply bind_ret_inv in E as (t1 & [w h] & t2 & E1 & E2 & ->).
    apply parse_res_positive in E1 as (-> & Hw & Hh).
    cbn in E2. injection E2 as <- <-. split; [reflexivity|].
    intros (W1 & W2 & W3 & W4 & W5 & W6). unfold well_formed; cbn.
    repeat split; auto. }
  destruct (is_one_of a "-f" "--fps").
  { intros H; injection H as <-. ret_case. }
  destruct (is_one_of a "-b" "--bitrate").
  { intros H; injection H as <-. ret_case. }
  destruct (is_one_of a "-c" "--corner").
  { intros H; injection H as <-. ret_case. apply snprintf_s_fits; lia. }
  destruct (is_one_of a "-s" "--source").
  { intros H; injection H as <-.
    destruct (streq v "auto"); [ret_case; discriminate|].
    destruct (streq v "csi"); [ret_case; discriminate|].
    destruct (has_prefix "/dev/video" v) eqn:P; [|discriminate].
    ret_case.
    - apply snprintf_s_fits; lia.
    - intros _. unfold has_prefix, snprintf_s in *.
      apply prefix_substring; [exact P | cbn; lia]. }
  destruct (is_one_of a "-e" "--encode").
  { intros H; injection H as <-.
    destruct (streq v "auto"); [ret_case|].
    destruct (streq v "software"); [ret_case|].
    destruct (streq v "hardware"); [ret_case|discriminate]. }
  discriminate.
Qed.

(** A step that does not return has left through [die]. *)
Lemma with_value_exit a v st m :
  with_value pol a v st = Some m ->
  forall t c, m = (t, Exit c) ->
    c = 1 /\ exists text, t = [EvStderr text].
Proof.
  unfold with_value.
  destruct (is_one_of a "-m" "--method");
    [intros H; injection H as <-; discriminate|].
  destruct (is_one_of a "-r" "--resolution").
  { intros H; injection H as <-. intros t c E.
    apply bind_exit_inv in E as [E | (t1 & wh & t2 & _ & E2 & _)];
      [now apply parse_res_exit in E | discriminate]. }
  destruct (is_one_of a "-f" "--fps");
    [intros H; injection H as <-; discriminate|].
  destruct (is_one_of a "-b" "--bitrate");
    [intros H; injection H as <-; discriminate|].
  destruct (is_one_of a "-c" "--corner");
    [intros H; injection H as <-; discriminate|].
  destruct (is_one_of a "-s" "--source").
  { intros H; injection H as <-.
    destruct (streq v "auto"); [discriminate|].
    destruct (streq v "csi"); [discriminate|].
    destruct (has_prefix "/dev/video" v); [discriminate|].
    unfold die. intros t c E. injection E as <- <-. eauto. }
  destruct (is_one_of a "-e" "--encode").
  { intros H; injection H as <-.
    destruct (streq v "auto"); [discriminate|].
    destruct (streq v "software"); [discriminate|].
    destruct (streq v "hardware"); [discriminate|].
    unfold die. intros t c E. injection E as <- <-. eauto. }
  discriminate.
Qed.

Lemma parse_args_ret prog n :
  forall args st t st',
    (List.length args <= n)%nat ->
    parse_args pol prog st args = (t, Ret st') ->
    t = [] /\ (well_formed (p_cfg st) -> well_formed (p_cfg st')).
Proof.
  induction n as [|n IH]; intros [|a rest] st t st' L; cbn in L;
    try lia; cbn [parse_args].
  - intros E. injection E as <- <-. auto.
  - intros E. injection E as <- <-. auto.
  - destruct (is_one_of a "-h" "--help"); [discriminate|].
    destruct (takes_value a).
    + destruct rest as [|v rest']; [discriminate|].
      destruct (with_value pol a v st) as [m|] eqn:W; [|discriminate].
      intros E. apply bind_ret_inv in E as (t1 & st1 & t2 & E1 & E2 & ->).
      destruct (with_value_ret _ _ _ _ W _ _ E1) as [-> K1].
      apply IH in E2 as [-> K2]; [|cbn in L; lia]. auto.
    + destruct (streq a "--list-cameras");
        [intros E; apply IH in E; [exact E | lia]|].
      destruct (streq a "--no-menu");
        [intros E; apply IH in E; [exact E | lia]|].
      destruct (streq a "--no-overlay");
        [intros E; apply IH in E; [exact E | lia]|].
      discriminate.
Qed.

(** X5: a configuration that [parse_cfg] returns is well formed: width
    and height are positive, the texts fit their buffers, and a source
    of kind USB node names a path that starts with [/dev/video];
    nothing has been printed. *)
Theorem parse_cfg_well_formed (argv : list string) t st :
  parse_cfg pol argv = (t, Ret st) ->
  t = [] /\ well_formed (p_cfg st).
Proof.
  unfold parse_cfg. destruct argv as [|prog args].
  - intros E. injection E as <- <-. split; [reflexivity|].
    apply defaults_well_formed.
  - intros E. apply (parse_args_ret prog (List.length args)) in E as [-> K];
      [|lia].
    split; [reflexivity | apply K, defaults_well_formed].
Qed.

Lemma parse_cfg_silent (argv : list string) t st :
  parse_cfg pol argv = (t, Ret st) -> t = [].
Proof.
  unfold parse_cfg. destruct argv as [|prog args].
  - intros E. now injection E as <- <-.
  - intros E. now apply (parse_args_ret prog (List.length args)) in E as [-> _].
Qed.

Lemma bind_ret_nil {A B} (a : A) (f : A -> M B) : bind ([], Ret a) f = f a.
Proof. cbn. now destruct (f a). Qed.

(** The option loop works from left to right: after an accepted
    prefix it goes on with the state the prefix left. *)
Lemma parse_args_app prog n :
  forall a1 st st1 a2,
    (List.length a1 <= n)%nat ->
    parse_args pol prog st a1 = ([], Ret st1) ->
    parse_args pol prog st (a1 ++ a2) = parse_args pol prog st1 a2.
Proof.
  induction n as [|n IH]; intros [|a rest] st st1 a2 L; cbn in L;
    try lia; cbn [parse_args app].
  - intros E. now injection E as <-.
  - intros E. now injection E as <-.
  - destruct (is_one_of a "-h" "--help"); [discriminate|].
    destruct (takes_value a).
    + destruct rest as [|v rest']; [discriminate|]. cbn [app].
      destruct (with_value pol a v st) as [m|] eqn:W; [|discriminate].
      intros E. apply bind_ret_inv in E as (t1 & st' & t2 & E1 & E2 & E3).
      destruct (with_value_ret _ _ _ _ W _ _ E1) as [-> _].
      cbn in E3. subst t2. rewrite E1, bind_ret_nil.
      apply IH; [cbn in L; lia | exact E2].
    + destruct (streq a "--list-cameras"); [apply IH; lia|].
      destruct (streq a "--no-menu"); [apply IH; lia|].
      destruct (streq a "--no-overlay"); [apply IH; lia|].
      discriminate.
Qed.

Lemma parse_cfg_app prog args st extra :
  parse_cfg pol (prog :: args) = ([], Ret st) ->
  parse_cfg pol ((prog :: args) ++ extra) = parse_args pol prog st extra.
Proof.
  cbn [parse_cfg app]. apply (parse_args_app prog (List.length args)). lia.
Qed.

(** X6: options are applied from left to right and the numbers are
    not validated: appending [--fps v] or [--bitrate v] to an accepted
    command line gives the same configuration with that field replaced
    by [atoi(v)], which is 0 when [v] does not start with a number. *)
Theorem later_option_overrides (prog : string) (args : list string)
  (st : parsed) (v : string) :
  parse_cfg pol (prog :: args) = ([], Ret st) ->
  parse_cfg pol ((prog :: args) ++ ["--fps"; v])
  = ([], Ret (on_cfg (fun c => set_fps c (atoi pol v)) st))
  /\ parse_cfg pol ((prog :: args) ++ ["--bitrate"; v])
     = ([], Ret (on_cfg (fun c => set_bitrate c (atoi pol v)) st))
  /\ (scan_numeral v = None -> atoi pol v = 0).
Proof.
  intros E. rewrite !(parse_cfg_app _ _ _ _ E).
  repeat split. unfold atoi, scan_d. now intros ->.
Qed.

(** X7: an accepted command line followed by an option that lacks its
    value, or by an argument that is no option, is rejected: the
    program prints one diagnostic and exits with status 1 before it
    looks at any camera. *)
Theorem incomplete_command_line (e : env) (prog : string)
  (args : list string) (st : parsed) (a : string) :
  parse_cfg pol (prog :: args) = ([], Ret st) ->
  (takes_value a = true ->
   picam_bench e pol ((prog :: args) ++ [a]) = die "missing value")
  /\ (takes_value a = false ->
      is_one_of a "-h" "--help" = false ->
      streq a "--list-cameras" = false ->
      streq a "--no-menu" = false ->
      streq a "--no-overlay" = false ->
      picam_bench e pol ((prog :: args) ++ [a])
      = die ("unknown arg: " ++ a)).
Proof.
  intros E. unfold picam_bench. rewrite (parse_cfg_app _ _ _ _ E).
  cbn [parse_args]. split.
  - intros T.
    assert (is_one_of a "-h" "--help" = false) as ->.
    { unfold takes_value, is_one_of, streq in *.
      destruct (String.eqb_spec a "-h") as [->|]; [discriminate|].
      destruct (String.eqb_spec a "--help") as [->|]; [discriminate|].
      reflexivity. }
    now rewrite T.
  - intros T H L M O. now rewrite H, T, L, M, O.
Qed.

Lemma parse_args_exit prog n :
  forall args st t c,
    (List.length args <= n)%nat ->
    parse_args pol prog st args = (t, Exit c) ->
    (c = 0 \/ c = 1) /\ exists text, t = [EvStderr text].
Proof.
  induction n as [|n IH]; intros [|a rest] st t c L; cbn in L;
    try lia; cbn [parse_args]; try discriminate.
  destruct (is_one_of a "-h" "--help").
  { intros E. injection E as <- <-. eauto. }
  destruct (takes_value a).
  - destruct rest as [|v rest'].
    { unfold die. intros E. injection E as <- <-. eauto. }
    destruct (with_value pol a v st) as [m|] eqn:W.
    2:{ unfold die. intros E. injection E as <- <-. eauto. }
    intros E. apply bind_exit_inv in E as [E | (t1 & st' & t2 & E1 & E2 & ->)].
    + destruct (with_value_exit _ _ _ _ W _ _ E) as [-> X]. auto.
    + destruct (with_value_ret _ _ _ _ W _ _ E1) as [-> _].
      apply IH in E2; [exact E2 | cbn in L; lia].
  - destruct (streq a "--list-cameras"); [apply IH; lia|].
    destruct (streq a "--no-menu"); [apply IH; lia|].
    destruct (streq a "--no-overlay"); [apply IH; lia|].
    unfold die. intros E. injection E as <- <-. eauto.
Qed.

Lemma rejected_command_line_trace argv t c :
  parse_cfg pol argv = (t, Exit c) -> exists text, t = [EvStderr text].
Proof.
  destruct argv as [|prog args]; [discriminate|]. cbn [parse_cfg].
  intros E. now apply (parse_args_exit prog (List.length args)) in E.
Qed.

(** X8: when the command line is not accepted, the program stops
    there: it has printed exactly one text on stderr (the usage text
    and status 0 for [-h], a diagnostic and status 1 otherwise) and has
    neither probed a camera nor created a file or a process. *)
Theorem rejected_command_line (e : env) (argv : list string) t c :
  parse_cfg pol argv = (t, Exit c) ->
  picam_bench e pol argv = (t, Exit c)
  /\ (c = 0 \/ c = 1)
  /\ exists text, t = [EvStderr text].
Proof.
  intros E. unfold picam_bench. rewrite E. split; [reflexivity|].
  destruct argv as [|prog args]; [discriminate|].
  cbn [parse_cfg] in E.
  now apply (parse_args_exit prog (List.length args)) in E.
Qed.

End CommandLine.

(** ** Formats and device choice *)

Section Devices.

Variable devs : devices.

Lemma note_formats_flags l fs :
  let r := fold_left note_format l fs in
  h264 r = (h264 fs || existsb (fun p => p =? V4L2_PIX_FMT_H264) l)%bool
  /\ mjpg r = (mjpg fs || existsb (fun p => p =? V4L2_PIX_FMT_MJPEG) l)%bool
  /\ yuyv r = (yuyv fs || existsb (fun p => p =? V4L2_PIX_FMT_YUYV) l)%bool.
Proof.
  cbv zeta. revert fs. induction l as [|p l IH]; intros fs; cbn [fold_left existsb].
  - now rewrite !orb_false_r.
  - destruct (IH (note_format fs p)) as (-> & -> & ->). cbn [note_format h264 mjpg yuyv].
    repeat split.
    + destruct (p =? V4L2_PIX_FMT_H264), (h264 fs); reflexivity.
    + destruct (p =? V4L2_PIX_FMT_MJPEG), (mjpg fs); reflexivity.
    + destruct (p =? V4L2_PIX_FMT_YUYV), (yuyv fs); reflexivity.
Qed.

Lemma existsb_eqb_in x l : existsb (fun p => p =? x) l = true <-> In x l.
Proof.
  rewrite existsb_exists. split.
  - intros (p & I & E). apply Z.eqb_eq in E. now subst.
  - intros I. exists x. split; [exact I | apply Z.eqb_refl].
Qed.

(** X9: after [v4l2_enum_formats] a flag is set exactly when the node
    could be opened and the format is enumerated on the single-plane or
    on the multi-plane capture queue; formats the program does not know
    change nothing. *)
Theorem enum_formats_flags (node : string) :
  let d := devs node in
  let all := (dev_fmts d ++ dev_fmts_mplane d)%list in
  let fs := v4l2_enum_formats devs node in
  (h264 fs = true <-> dev_open d = true /\ In V4L2_PIX_FMT_H264 all)
  /\ (mjpg fs = true <-> dev_open d = true /\ In V4L2_PIX_FMT_MJPEG all)
  /\ (yuyv fs = true <-> dev_open d = true /\ In V4L2_PIX_FMT_YUYV all).
Proof.
  cbv zeta. unfold v4l2_enum_formats.
  destruct (dev_open (devs node)).
  - rewrite <- fold_left_app.
    destruct (note_formats_flags
                (dev_fmts (devs node) ++ dev_fmts_mplane (devs node))
                no_formats) as (-> & -> & ->).
    cbn [no_formats h264 mjpg yuyv orb].
    rewrite !existsb_eqb_in. tauto.
  - cbn. repeat split; intros; try discriminate; tauto.
Qed.

Lemma first_capture_node_none outsz pathv :
  first_capture_node devs outsz pathv = None
  <-> forall n, In n pathv -> v4l2_supports_capture devs n = false.
Proof.
  induction pathv as [|m pathv IH]; cbn.
  - split; [intros _ n [] | reflexivity].
  - destruct (v4l2_supports_capture devs m) eqn:E.
    + split; [discriminate|]. intros H. specialize (H m (or_introl eq_refl)).
      congruence.
    + rewrite IH. split.
      * intros H n [<-|I]; auto.
      * intros H n I. apply H. now right.
Qed.

(** X10: the scan takes the first path, in the order of [glob], that
    the capability filter accepts, and it fails exactly when [glob]
    fails or the filter accepts none of the paths. *)
Theorem pick_usb_node_first_accepted (outsz : nat) :
  (forall pre n post,
      (forall m, In m pre -> v4l2_supports_capture devs m = false) ->
      v4l2_supports_capture devs n = true ->
      pick_usb_node devs (Some (pre ++ n :: post)%list) outsz
      = Some (snprintf_s outsz n))
  /\ (forall glob_res,
         pick_usb_node devs glob_res outsz = None
         <-> glob_res = None
             \/ exists pathv,
                 glob_res = Some pathv
                 /\ forall n, In n pathv ->
                              v4l2_supports_capture devs n = false).
Proof.
  split.
  - intros pre n post R A. cbn [pick_usb_node].
    induction pre as [|m pre IH]; cbn [app first_capture_node].
    + now rewrite A.
    + rewrite (R m (or_introl eq_refl)). apply IH.
      intros k I. apply R. now right.
  - intros [pathv|]; cbn [pick_usb_node].
    + rewrite first_capture_node_none. split.
      * intros H. right. now exists pathv.
      * intros [E | (p & E & H)]; [discriminate|]. now injection E as <-.
    + split; [now left | reflexivity].
Qed.

End Devices.

(** ** The source that [main] settles on *)

Section SourceChoice.

(** X11: the source that [main] decides on has always passed its
    check, and an explicit request is never replaced: with source [csi]
    the onboard sensor is used and was reported available; with a
    device path that path is used and passed the capability filter; in
    automatic mode the onboard sensor is used exactly when it is
    available, and otherwise the first accepted path of the scan. *)
Theorem decide_source_checked (e : env) (cfg : cfg_t) t
  (use_csi : bool) (node : string) (fs : fmt_support_t) :
  decide_source e cfg = (t, Ret (use_csi, node, fs)) ->
  t = []
  /\ match source_mode cfg with
     | SRC_CSI => use_csi = true /\ csi_available e = true
     | SRC_USBNODE =>
         use_csi = false
         /\ node = snprintf_s 128 (source_node cfg)
         /\ v4l2_supports_capture (devs e) (source_node cfg) = true
         /\ fs = v4l2_enum_formats (devs e) node
     | SRC_AUTO =>
         use_csi = csi_available e
         /\ (use_csi = false ->
             pick_usb_node (devs e) (glob_res e) 128 = Some node
             /\ fs = v4l2_enum_formats (devs e) node)
     end.
Proof.
  unfold decide_source. destruct (source_mode cfg).
  - destruct (csi_available e).
    + intros E. injection E as <- <- <- <-.
      split; [reflexivity|]. split; [reflexivity|]. discriminate.
    + unfold detect_usb.
      destruct (pick_usb_node (devs e) (glob_res e) 128) as [n|];
        [|discriminate].
      intros E. injection E as <- <- <- <-.
      split; [reflexivity|]. split; [reflexivity|]. intros _. now split.
  - destruct (csi_available e); cbn [negb]; [|discriminate].
    intros E. injection E as <- <- <- <-. repeat split.
  - destruct (v4l2_supports_capture (devs e) (source_node cfg));
      cbn [negb]; [|discriminate].
    intros E. injection E as <- <- <- <-. repeat split.
Qed.

End SourceChoice.

(** ** The log reader as a whole *)

Section LogStream.

Import LogLines.

Variable scan : string -> option Q.

Lemma feed_bytes_app r a b :
  feed_bytes scan r (a ++ b) = feed_bytes scan (feed_bytes scan r a) b.
Proof.
  revert r. induction a as [|c a IH]; intros r; cbn; [reflexivity|].
  apply IH.
Qed.

Lemma fold_feed_bytes reads r :
  fold_left (feed_bytes scan) reads r
  = feed_bytes scan r (String.concat "" reads).
Proof.
  revert r. induction reads as [|a reads IH]; intros r; [reflexivity|].
  cbn [fold_left]. rewrite IH.
  destruct reads as [|b reads]; [reflexivity|].
  change (String.concat "" (a :: b :: reads))
    with (a ++ "" ++ String.concat "" (b :: reads)).
  cbn [append]. now rewrite feed_bytes_app.
Qed.

(** X14: the result of the log reader depends only on the bytes of the
    stream, not on how [read] happened to cut them into pieces. *)
Theorem log_reader_ignores_read_boundaries
  (reads1 reads2 : list string) (st : overlay_state_t) :
  String.concat "" reads1 = String.concat "" reads2 ->
  ffmpeg_log_reader scan reads1 st = ffmpeg_log_reader scan reads2 st.
Proof.
  intros E. unfold ffmpeg_log_reader. now rewrite !fold_feed_bytes, E.
Qed.

Lemma substring_app_full n a b :
  String.length a = n -> String.substring 0 n (a ++ b) = a.
Proof.
  revert a. induction n as [|n IH]; intros [|c a] H; cbn in *;
    try discriminate.
  - now destruct b.
  - rewrite IH; [reflexivity | lia].
Qed.

Lemma append_empty_r (a : string) : a ++ "" = a.
Proof. induction a as [|c a IH]; cbn; [reflexivity | now rewrite IH]. Qed.

(** Bytes that end no line pile up in the buffer until it is full. *)
Lemma feed_bytes_line l buf st :
  all_chars not_eol l = true ->
  (String.length buf <= LINE_MAX)%nat ->
  feed_bytes scan (mk_reader buf st) l
  = mk_reader (String.substring 0 LINE_MAX (buf ++ l)) st.
Proof.
  revert buf. induction l as [|c l IH]; intros buf H L.
  - cbn [feed_bytes]. rewrite append_empty_r.
    now rewrite substring_whole.
  - cbn in H. apply andb_true_iff in H as [Hc Hl].
    cbn [feed_bytes]. unfold feed_byte at 1. cbn [line shared].
    unfold not_eol in Hc. apply negb_true_iff in Hc. rewrite Hc.
    destruct (Z.ltb_spec (Z.of_nat (String.length buf)) 8191) as [B|B].
    + rewrite IH; [| exact Hl | rewrite length_append; cbn; unfold LINE_MAX; lia].
      now rewrite append_assoc.
    + assert (String.length buf = LINE_MAX) as F by (unfold LINE_MAX in *; lia).
      rewrite IH by (exact Hl || lia).
      now rewrite !substring_app_full.
Qed.

Lemma feed_line l term buf st :
  all_chars not_eol l = true ->
  not_eol term = false ->
  feed_bytes scan (mk_reader "" st) (l ++ String term buf)
  = feed_bytes scan (mk_reader "" (parse_line scan st (kept l))) buf.
Proof.
  intros H T. rewrite feed_bytes_app, feed_bytes_line; [|exact H|cbn; lia].
  cbn [append feed_bytes]. unfold feed_byte at 1. cbn [line shared].
  unfold not_eol in T. apply negb_false_iff in T. now rewrite T.
Qed.

(** X15: the log reader reassembles the lines of the stream: for a
    stream of lines, each closed by a carriage return or a line feed,
    its result is that of parsing the lines one after the other, each
    cut to the 8191 characters the buffer holds and to its first NUL. *)
Theorem log_reader_parses_each_line
  (ls : list (string * ascii)) (reads : list string) (st : overlay_state_t) :
  proper ls = true ->
  String.concat "" reads = stream ls ->
  ffmpeg_log_reader scan reads st
  = fold_left (fun s l => parse_line scan s (kept (fst l))) ls st.
Proof.
  intros P E. unfold ffmpeg_log_reader. rewrite fold_feed_bytes, E. clear E.
  revert st P. induction ls as [|[l term] ls IH]; intros st P.
  - reflexivity.
  - cbn in P. apply andb_true_iff in P as [P P3].
    apply andb_true_iff in P as [P1 P2]. apply negb_true_iff in P2.
    cbn [stream fold_left fst]. rewrite feed_line by assumption.
    now apply IH.
Qed.

Lemma take_word_length_le w s : (String.length (take_word w s) <= w)%nat.
Proof.
  revert s. induction w as [|w IH]; intros [|c s]; cbn; try lia.
  destruct (isspace c); cbn; [lia|]. specialize (IH s). lia.
Qed.

Lemma parse_line_bitrate_short st l :
  (String.length (latest_bitrate st) <= 63)%nat ->
  (String.length (latest_bitrate (parse_line scan st l)) <= 63)%nat.
Proof.
  intros H. unfold parse_line.
  destruct (strstr l "bitrate=") as [p|]; cbn [latest_bitrate].
  - rewrite snprintf_token. apply take_word_length_le.
  - now destruct (strstr l "fps=").
Qed.

Lemma feed_bytes_bitrate_short buf r :
  (String.length (latest_bitrate (shared r)) <= 63)%nat ->
  (String.length (latest_bitrate (shared (feed_bytes scan r buf))) <= 63)%nat.
Proof.
  revert r. induction buf as [|c buf IH]; intros r H; cbn; [exact H|].
  apply IH. unfold feed_byte.
  destruct (_ || _)%bool; cbn [shared].
  - now apply parse_line_bitrate_short.
  - now destruct (_ <? _).
Qed.

(** X16: whatever the preview prints, the bitrate that the log reader
    leaves for the stats writer is a single token: it has no white
    space and at most 63 characters, so the stats writer shows it
    unchanged, or [N/A] when it is empty. *)
Theorem shared_bitrate_is_token (reads : list string) :
  let st := ffmpeg_log_reader scan reads (mk_ost 0 "") in
  all_chars not_space (latest_bitrate st) = true
  /\ (String.length (latest_bitrate st) <= 63)%nat
  /\ shown_bitrate st
     = match latest_bitrate st with
       | EmptyString => "N/A"
       | String _ _ => latest_bitrate st
       end.
Proof.
  cbv zeta.
  assert (String.length
            (latest_bitrate (ffmpeg_log_reader scan reads (mk_ost 0 "")))
          <= 63)%nat as L.
  { unfold ffmpeg_log_reader. rewrite fold_feed_bytes.
    apply feed_bytes_bitrate_short. cbn. lia. }
  split; [now apply ffmpeg_log_reader_bitrate_not_space|].
  split; [exact L|].
  unfold shown_bitrate, snprintf_s.
  destruct (latest_bitrate _) eqn:E; [reflexivity|].
  rewrite <- E in *. apply substring_whole. cbn. lia.
Qed.

End LogStream.

(** ** The order of the effects of a run *)

Section RunOrder.

Import Protocol.

Lemma accepts_app s t1 t2 :
  accepts s (t1 ++ t2)
  = match accepts s t1 with
    | Some s' => accepts s' t2
    | None => None
    end.
Proof.
  revert s. induction t1 as [|ev t1 IH]; intros s; cbn; [reflexivity|].
  destruct (step s ev); [apply IH | reflexivity].
Qed.

Lemma triple_ret {A} (P : mstate -> Prop) (Q : mstate -> A -> Prop) a :
  (forall s, P s -> Q s a) -> triple P (ret a) Q.
Proof. intros H s Hs. exists s. split; [reflexivity | now apply H]. Qed.

Lemma triple_emit (P : mstate -> Prop) (Q : mstate -> unit -> Prop) ev :
  (forall s, P s -> exists s', step s ev = Some s' /\ Q s' tt) ->
  triple P (emit ev) Q.
Proof.
  intros H s Hs. destruct (H s Hs) as (s' & E & Hq).
  exists s'. cbn. now rewrite E.
Qed.

Lemma triple_die {A} (P : mstate -> Prop) (Q : mstate -> A -> Prop) msg :
  triple P (die msg) Q.
Proof. intros s _. exists s. now split. Qed.

Lemma triple_bind {A B} (P : mstate -> Prop) (Q : mstate -> A -> Prop)
  (R : mstate -> B -> Prop) (m : M A) (f : A -> M B) :
  triple P m Q ->
  (forall a, triple (fun s => Q s a) (f a) R) ->
  triple P (bind m f) R.
Proof.
  intros Hm Hf s Hs. destruct (Hm s Hs) as (s1 & E1 & Hq).
  destruct m as [t1 [a|c]]; cbn in *.
  - destruct (Hf a s1 Hq) as (s2 & E2 & Hr).
    destruct (f a) as [t2 r]; cbn in *.
    exists s2. rewrite accepts_app, E1. now split.
  - exists s1. now split.
Qed.

Lemma triple_when (P : mstate -> Prop) (Q : mstate -> unit -> Prop) b m :
  (b = true -> triple P m Q) ->
  (b = false -> forall s, P s -> Q s tt) ->
  triple P (when b m) Q.
Proof.
  intros H1 H2. destruct b; [now apply H1 | apply triple_ret; now apply H2].
Qed.

Lemma triple_pre {A} (P P' : mstate -> Prop) (Q : mstate -> A -> Prop) m :
  triple P' m Q -> (forall s, P s -> P' s) -> triple P m Q.
Proof. intros H W s Hs. apply H, W, Hs. Qed.

Lemma triple_post {A} (P : mstate -> Prop) (Q Q' : mstate -> A -> Prop) m :
  triple P m Q -> (forall s a, Q s a -> Q' s a) -> triple P m Q'.
Proof.
  intros H W s Hs. destruct (H s Hs) as (s' & E & Hq). exists s'.
  split; [exact E|]. destruct (snd m); [now apply W | exact I].
Qed.

Ltac open_state :=
  let s := fresh "s" in
  intros s; destruct s as [? ? ? ? ?]; unfold running_with; cbn;
  intros (-> & -> & -> & ->).

Lemma start_preview_order dir e ctx title :
  triple (running_with dir []) (start_preview e ctx title)
    (fun s ctx' =>
       running_with dir [prev_pid ctx'] s
       /\ tmpdir ctx' = tmpdir ctx /\ stats_path ctx' = stats_path ctx
       /\ cam_pid ctx' = cam_pid ctx).
Proof.
  unfold start_preview, spawn_child. open_state.
  destruct (preview_pipe_ok e), (preview_fork e <? 0); cbn;
    eexists; (split; [reflexivity|]); cbn; auto; repeat split.
Qed.

Lemma start_csi_camera_order dir p e ctx w h f b :
  triple (running_with dir [p]) (start_csi_camera e ctx w h f b)
    (fun s ctx' =>
       running_with dir [cam_pid ctx'; p] s
       /\ tmpdir ctx' = tmpdir ctx /\ stats_path ctx' = stats_path ctx
       /\ prev_pid ctx' = prev_pid ctx).
Proof.
  unfold start_csi_camera, spawn_child. open_state.
  destruct (camera_cmd e), (fifo_open_ok e), (cam_fork e <? 0); cbn;
    eexists; (split; [reflexivity|]); cbn; auto; repeat split.
Qed.

Lemma start_usb_ffmpeg_order dir p e ctx node fs enc :
  triple (running_with dir [p]) (start_usb_ffmpeg e ctx node fs enc)
    (fun s ctx' =>
       running_with dir [cam_pid ctx'; p] s
       /\ tmpdir ctx' = tmpdir ctx /\ stats_path ctx' = stats_path ctx
       /\ prev_pid ctx' = prev_pid ctx).
Proof.
  unfold start_usb_ffmpeg, spawn_child. open_state.
  destruct (cam_fork e <? 0); cbn;
    eexists; (split; [reflexivity|]); cbn; auto; repeat split.
Qed.

(** The signal handler signals the recorded children only. *)
Lemma terminate_children_order dir ctx :
  triple (running_with dir [cam_pid ctx; prev_pid ctx])
    (terminate_children ctx)
    (fun s ctx' =>
       running_with dir [cam_pid ctx; prev_pid ctx] s
       /\ tmpdir ctx' = tmpdir ctx
       /\ cam_pid ctx' = cam_pid ctx /\ prev_pid ctx' = prev_pid ctx).
Proof.
  unfold terminate_children. open_state.
  destruct (0 <? cam_pid ctx) eqn:C, (0 <? prev_pid ctx) eqn:P; cbn;
    unfold is_child; cbn;
    repeat (progress (rewrite ?C, ?P, ?Z.eqb_refl, ?orb_true_r; cbn));
    eexists; (split; [reflexivity|]); cbn; repeat split.
Qed.

Lemma deliver_running_order dir e ctx :
  triple (running_with dir [cam_pid ctx; prev_pid ctx])
    (deliver e SigRunning ctx)
    (fun s ctx' =>
       running_with dir [cam_pid ctx; prev_pid ctx] s
       /\ tmpdir ctx' = tmpdir ctx
       /\ cam_pid ctx' = cam_pid ctx /\ prev_pid ctx' = prev_pid ctx).
Proof.
  unfold deliver. destruct (signal e) as [[|]|];
    try apply terminate_children_order;
    apply triple_ret; intros s H; repeat split; apply H.
Qed.

(** Before any process is started the handler signals nobody. *)
Lemma deliver_starting_order e ctx :
  cam_pid ctx = 0 -> prev_pid ctx = 0 ->
  triple (fun s => s = initial) (deliver e SigStarting ctx)
    (fun s ctx' => s = initial /\ cam_pid ctx' = 0 /\ prev_pid ctx' = 0).
Proof.
  intros C P. unfold deliver, terminate_children.
  destruct (signal e) as [[|]|]; rewrite ?C, ?P; cbn;
    intros s ->; eexists; (split; [reflexivity|]); cbn; auto.
Qed.

(** The threads touch nothing but the status file. *)
Lemma run_threads_order dir ch e ctx steps r :
  stats_path ctx = dir ++ "/stats.txt" ->
  triple (running_with dir ch) (run_threads e ctx steps r)
    (fun s _ => running_with dir ch s).
Proof.
  intros S. revert r. induction steps as [|[bytes|fs0 fs1 fs2 ok] steps IH];
    intros r; cbn [run_threads].
  - apply triple_ret. auto.
  - apply IH.
  - apply triple_bind with (Q := fun s _ => running_with dir ch s);
      [|intros _; apply IH].
    apply triple_when; [intros _ | auto].
    apply triple_emit. intros s H. exists s. split; [|exact H].
    destruct H as (Hd & _ & _ & Hr). cbn. rewrite Hd, Hr, S.
    now rewrite String.eqb_refl.
Qed.

Lemma triple_pure {A} (F : Prop) (P : mstate -> Prop) (m : M A)
  (Q : mstate -> A -> Prop) :
  (F -> triple P m Q) -> triple (fun s => P s /\ F) m Q.
Proof. intros H s [Hp Hf]. now apply (H Hf s). Qed.

Lemma wait_order dir c p (W : mstate -> Prop) x :
  (x = c \/ x = p) ->
  (forall s v, W s ->
     W (mk_mstate (m_dir s) (m_fifo s) (m_children s) (v :: m_waited s)
          (m_removed s))) ->
  triple (fun s => running_with dir [c; p] s /\ W s)
    (when (0 <? x) (emit (EvWait x)))
    (fun s _ =>
       (running_with dir [c; p] s /\ W s)
       /\ ((x <=? 0) || existsb (Z.eqb x) (m_waited s))%bool = true).
Proof.
  intros X Wk. apply triple_when.
  - intros Pos. apply triple_emit. intros s [R Hw].
    destruct R as (Hd & Hf & Hc & Hr).
    assert (is_child s x = true) as I.
    { unfold is_child. rewrite Hc. cbn.
      destruct X as [-> | ->]; rewrite Z.eqb_refl; [reflexivity|].
      now rewrite orb_true_r. }
    cbn. rewrite Pos, I. cbn. eexists. split; [reflexivity|].
    cbn. rewrite Z.eqb_refl, orb_true_r.
    repeat split; auto.
  - intros Neg s H. split; [exact H|].
    apply Z.ltb_ge in Neg. apply Z.leb_le in Neg. now rewrite Neg.
Qed.

(** A session keeps its effects in order. *)
Lemma session_order e cfg have use_csi usbnode usbfmt enc ctx0 :
  cam_pid ctx0 = 0 -> prev_pid ctx0 = 0 ->
  triple (fun s => s = initial)
    (session e cfg have use_csi usbnode usbfmt enc ctx0)
    (fun _ _ => True).
Proof.
  intros C0 P0. unfold session.
  destruct (mkdtemp_res e) as [dir|]; [|apply triple_die].
  apply triple_bind
    with (Q := fun s _ => s = mk_mstate (Some dir) false [] [] false).
  { apply triple_emit. intros s ->. eexists. split; reflexivity. }
  intros _.
  apply triple_bind with (Q := fun s _ => running_with dir [] s).
  { destruct (mkfifo_ok e); [|apply triple_die].
    apply triple_emit. intros s ->. cbn. rewrite String.eqb_refl. cbn.
    eexists. split; [reflexivity|]. repeat split. }
  intros _.
  apply triple_bind with (Q := fun s _ => running_with dir [] s).
  { apply triple_when; [intros _ | auto].
    apply triple_emit. intros s H. exists s. split; [|exact H].
    destruct H as (Hd & _ & _ & Hr). cbn. rewrite Hd, Hr, String.eqb_refl.
    reflexivity. }
  intros _.
  eapply triple_bind; [apply (start_preview_order dir)|].
  intros ctx2. cbv beta. apply triple_pure. intros (T2 & S2 & C2).
  apply triple_bind
    with (Q := fun s ctx3 =>
                 running_with dir [cam_pid ctx3; prev_pid ctx2] s
                 /\ (tmpdir ctx3 = tmpdir ctx2
                     /\ stats_path ctx3 = stats_path ctx2
                     /\ prev_pid ctx3 = prev_pid ctx2)).
  { destruct use_csi.
    - destruct have; cbn [negb]; [|apply triple_die].
      eapply triple_post; [apply start_csi_camera_order|].
      cbv beta. intros s a (H1 & H2 & H3 & H4). auto.
    - eapply triple_post; [apply start_usb_ffmpeg_order|].
      cbv beta. intros s a (H1 & H2 & H3 & H4). auto. }
  intros ctx3. cbv beta. apply triple_pure. intros (T3 & S3 & P3).
  rewrite <- P3.
  assert (stats_path ctx3 = dir ++ "/stats.txt") as SP.
  { rewrite S3, S2. reflexivity. }
  assert (tmpdir ctx3 = dir) as TD.
  { rewrite T3, T2. reflexivity. }
  set (ch := [cam_pid ctx3; prev_pid ctx3]).
  apply triple_bind with (Q := fun s _ => running_with dir ch s).
  { apply triple_when; [intros _ | auto].
    apply triple_bind with (Q := fun s _ => running_with dir ch s).
    { apply triple_emit. intros s H. exists s. split; [|exact H].
      destruct H as (_ & _ & Hc & Hr). cbn. now rewrite Hr, Hc. }
    intros _.
    apply triple_bind with (Q := fun s _ => running_with dir ch s).
    { apply triple_emit. intros s H. exists s. split; [|exact H].
      destruct H as (_ & _ & Hc & Hr). cbn. now rewrite Hr, Hc. }
    intros _. destruct (running ctx3); [|apply triple_ret; auto].
    now apply run_threads_order. }
  intros _.
  eapply triple_bind; [apply deliver_running_order|].
  intros ctx4. cbv beta. apply triple_pure. intros (T4 & C4 & P4).
  fold ch. rewrite C4, P4.
  eapply triple_bind.
  { eapply triple_pre.
    - apply (wait_order dir (cam_pid ctx3) (prev_pid ctx3)
               (fun _ => True) (cam_pid ctx3)); auto.
    - cbv beta. auto. }
  intros ?. cbv beta.
  eapply triple_bind.
  { eapply triple_pre.
    - apply (wait_order dir (cam_pid ctx3) (prev_pid ctx3)
               (fun s => ((cam_pid ctx3 <=? 0)
                          || existsb (Z.eqb (cam_pid ctx3)) (m_waited s))%bool
                         = true)
               (prev_pid ctx3)); [auto|].
      intros s v H. cbn. rewrite orb_assoc, (orb_comm (_ <=? _)).
      rewrite <- orb_assoc, H. apply orb_true_r.
    - cbv beta. intros s ((R & _) & H). auto. }
  intros ?. cbv beta.
  apply triple_bind
    with (Q := fun s _ =>
                 running_with dir ch s /\ all_waited s = true).
  { apply triple_when.
    - intros _.
      apply triple_bind
        with (Q := fun s _ =>
                     running_with dir ch s /\ all_waited s = true).
      + apply triple_emit. intros s ((R & Hc) & Hp). exists s.
        split; [reflexivity|]. split; [exact R|].
        unfold all_waited. destruct R as (_ & _ & -> & _). cbn.
        now rewrite Hc, Hp.
      + intros _. apply triple_emit. intros s H. exists s. now split.
    - intros _ s ((R & Hc) & Hp). split; [exact R|].
      unfold all_waited. destruct R as (_ & _ & -> & _). cbn.
      now rewrite Hc, Hp. }
  intros _.
  apply triple_bind with (Q := fun _ _ => True).
  { apply triple_when; [intros _ | auto].
    apply triple_emit. intros s ((Hd & _ & _ & Hr) & Hw).
    cbn. rewrite Hd, Hr, Hw, T4, TD, String.eqb_refl. cbn.
    eexists. now split. }
  intros _. apply triple_ret. auto.
Qed.

Lemma decide_source_order e cfg :
  triple (fun s => s = initial) (decide_source e cfg)
    (fun s _ => s = initial).
Proof.
  unfold decide_source. intros s ->.
  destruct (source_mode cfg).
  - destruct (csi_available e); [now exists initial|].
    destruct (detect_usb _ _ _) as [[n fs]|]; now exists initial.
  - destruct (csi_available e); now exists initial.
  - destruct (v4l2_supports_capture _ _); now exists initial.
Qed.

Lemma main_order e cfg lo no :
  triple (fun s => s = initial) (main e cfg lo no) (fun _ _ => True).
Proof.
  unfold main.
  destruct (ffmpeg_exists e); cbn [negb]; [|apply triple_die].
  destruct lo.
  - unfold list_cameras. intros s ->.
    destruct (detect_usb _ _ _) as [[n fs]|]; now exists initial.
  - eapply triple_bind; [apply decide_source_order|].
    intros [[use_csi usbnode] usbfmt]. cbv beta.
    eapply triple_bind; [now apply deliver_starting_order|].
    intros ctx0. cbv beta.
    intros s (-> & C & P). now apply session_order.
Qed.

Lemma parse_cfg_order pol argv :
  triple (fun s => s = initial) (Cli.parse_cfg pol argv)
    (fun s _ => s = initial).
Proof.
  intros s ->. destruct (Cli.parse_cfg pol argv) as [t [st|c]] eqn:E.
  - apply parse_cfg_silent in E as ->. now exists initial.
  - apply (rejected_command_line_trace pol) in E as (text & ->).
    now exists initial.
Qed.

(** The effects of every run come in order, whatever the command line
    and whatever the system calls return. *)
Lemma run_keeps_order (e : env) (pol : overflow_policy)
  (argv : list string) :
  exists s,
    accepts initial (trace_of (Cli.picam_bench e pol argv)) = Some s.
Proof.
  assert (triple (fun s => s = initial) (Cli.picam_bench e pol argv)
            (fun _ _ => True)) as T.
  { unfold Cli.picam_bench. eapply triple_bind; [apply parse_cfg_order|].
    intros st. apply main_order. }
  destruct (T initial eq_refl) as (s & E & _). now exists s.
Qed.

(** What one accepted effect changes. *)
Lemma step_fields s ev s' :
  step s ev = Some s' ->
  (m_dir s' = m_dir s
   \/ exists d, ev = EvMkdtemp d /\ m_dir s' = Some d)
  /\ (m_fifo s' = m_fifo s
      \/ exists d, ev = EvMkfifo (d ++ "/video.h264")
                   /\ m_dir s' = Some d)
  /\ (is_spawn ev = false /\ m_children s' = m_children s
      \/ exists a p, ev = EvSpawn a p /\ m_children s' = p :: m_children s)
  /\ ((forall d, ev <> EvRemoveDir d) \/ m_removed s' = true)
  /\ (m_removed s' = false -> m_removed s = false)
  /\ ((forall p, ev <> EvWait p) /\ m_waited s' = m_waited s
      \/ exists p, ev = EvWait p /\ m_waited s' = p :: m_waited s).
Proof.
  assert (forall b : bool, b = false -> b = false) as Keep by auto.
  destruct ev; cbn; intros E;
    repeat match type of E with
      | match ?c with _ => _ end = _ => destruct c eqn:?; try discriminate E
      | (if ?c then _ else _) = _ => destruct c eqn:?; try discriminate E
      end;
    injection E as <-; cbn;
    (split; [|split; [|split; [|split; [|split]]]]);
    try (left; reflexivity); try (apply Keep);
    try (left; split; [reflexivity | congruence]);
    try (left; split; [intros ? X; discriminate X | reflexivity]);
    try (left; intros ? X; discriminate X);
    try (left; congruence);
    try (right; eauto; fail); try discriminate.
  all: match goal with H : (String.eqb ?p _ && _)%bool = true |- _ =>
    apply andb_prop in H as (H & _); apply String.eqb_eq in H; subst p end.
  all: right; eauto.
Qed.

Lemma step_backed s ev s' h :
  step s ev = Some s' -> backed s h -> backed s' (h ++ [ev]).
Proof.
  intros E (B1 & B2 & B3 & B4).
  destruct (step_fields _ _ _ E) as (F1 & F2 & F3 & F4 & F5 & _).
  assert (forall x, In x h -> In x (h ++ [ev])) as Old.
  { intros x I. apply in_or_app. now left. }
  assert (In ev (h ++ [ev])) as New.
  { apply in_or_app. right. now left. }
  repeat split.
  - intros d Hd. destruct F1 as [F1 | (d' & -> & F1)].
    + apply Old, B1. congruence.
    + rewrite F1 in Hd. injection Hd as <-. exact New.
  - intros Hf. destruct F2 as [F2 | (d' & -> & F2)].
    + rewrite F2 in Hf. destruct (B2 Hf) as (d & Hd & I).
      exists d. split; [|auto].
      destruct F1 as [F1 | (d' & -> & F1)]; [congruence|].
      cbn in E. rewrite Hd in E. discriminate.
    + exists d'. auto.
  - intros p I. destruct F3 as [[_ F3] | (a & q & -> & F3)].
    + rewrite F3 in I. destruct (B3 p I) as (a & Ia). exists a. auto.
    + rewrite F3 in I. destruct I as [<- | I]; [exists a; exact New|].
      destruct (B3 p I) as (a' & Ia). exists a'. auto.
  - intros Hr d I. apply in_app_or in I as [I | [X | []]].
    + exact (B4 (F5 Hr) d I).
    + destruct F4 as [F4 | F4]; [now apply (F4 d) | congruence].
Qed.

Lemma step_reaped s ev s' h :
  step s ev = Some s' -> reaped s h -> reaped s' (h ++ [ev]).
Proof.
  intros E (R1 & R2 & R3).
  destruct (step_fields _ _ _ E) as (_ & _ & F3 & _ & _ & F6).
  repeat split.
  - intros a p I. apply in_app_or in I as [I | [X | []]].
    + destruct F3 as [[_ F3] | (a' & q & _ & F3)]; rewrite F3;
        [|right]; exact (R1 a p I).
    + subst ev. destruct F3 as [[N _] | (a' & q & X & F3)];
        [discriminate N|].
      injection X as <- <-. rewrite F3. now left.
  - intros p I. apply in_or_app.
    destruct F6 as [[_ F6] | (q & -> & F6)]; rewrite F6 in I.
    + left. exact (R2 p I).
    + destruct I as [<- | I]; [right; now left | left; exact (R2 p I)].
  - rewrite filter_app, length_app. cbn [filter].
    destruct F3 as [[N F3] | (a & q & -> & F3)]; rewrite F3.
    + rewrite N. cbn. lia.
    + cbn. lia.
Qed.

Lemma accepts_backed t s s' h :
  accepts s t = Some s' -> backed s h -> reaped s h ->
  backed s' (h ++ t) /\ reaped s' (h ++ t).
Proof.
  revert s h. induction t as [|ev t IH]; intros s h E B R; cbn in E.
  - injection E as <-. now rewrite app_nil_r.
  - destruct (step s ev) as [s1|] eqn:S; [|discriminate].
    replace (h ++ ev :: t)%list with ((h ++ [ev]) ++ t)%list
      by now rewrite <- app_assoc.
    apply (IH s1); [exact E | |].
    + now apply step_backed with s.
    + now apply step_reaped with s.
Qed.

Lemma initial_backed : backed initial [] /\ reaped initial [].
Proof.
  repeat split; cbn; intros; try discriminate; tauto.
Qed.

(** An accepted trace, cut before one of its events. *)
Lemma accepts_split s t1 ev t2 s' :
  accepts s (t1 ++ ev :: t2) = Some s' ->
  exists s1 s2,
    accepts s t1 = Some s1 /\ step s1 ev = Some s2
    /\ accepts s2 t2 = Some s'.
Proof.
  rewrite accepts_app. destruct (accepts s t1) as [s1|]; [|discriminate].
  cbn. destruct (step s1 ev) as [s2|] eqn:E; [|discriminate].
  intros A. now exists s1, s2.
Qed.

(** The history of a run up to one of its events. *)
Lemma run_prefix (e : env) (pol : overflow_policy) (argv : list string)
  t1 ev t2 :
  trace_of (Cli.picam_bench e pol argv) = (t1 ++ ev :: t2)%list ->
  exists s1 s2 s3,
    backed s1 t1 /\ reaped s1 t1 /\ step s1 ev = Some s2
    /\ accepts s2 t2 = Some s3.
Proof.
  intros E. destruct (run_keeps_order e pol argv) as (s & A).
  rewrite E in A.
  destruct (accepts_split _ _ _ _ _ A) as (s1 & s2 & A1 & S & A2).
  destruct initial_backed as [B0 R0].
  destruct (accepts_backed _ _ _ _ A1 B0 R0) as [B R].
  now exists s1, s2, s.
Qed.

(** Once the directory is removed, nothing that needs it is accepted. *)
Lemma accepts_after_removal t s s' :
  accepts s t = Some s' -> m_removed s = true ->
  forallb (fun ev => negb (uses_dir ev)) t = true.
Proof.
  revert s. induction t as [|ev t IH]; intros s E R; [reflexivity|].
  cbn in E. destruct (step s ev) as [s1|] eqn:S; [|discriminate].
  cbn [forallb]. apply andb_true_intro. split.
  - destruct ev; try reflexivity; exfalso; cbn in S; rewrite R in S;
      cbn in S; rewrite ?andb_false_r in S; cbn in S;
      destruct (m_dir s); try discriminate S;
      rewrite ?andb_false_r in S; cbn in S; try discriminate S.
    all: destruct (m_fifo s); discriminate S.
  - apply (IH s1 E).
    destruct (step_fields _ _ _ S) as (_ & _ & _ & _ & F5 & _).
    destruct (m_removed s1); [reflexivity|]. rewrite F5 in R; auto.
Qed.

(** No accepted effect takes the number of children beyond two. *)
Lemma accepts_children_bound t s0 s :
  accepts s0 t = Some s ->
  (List.length (m_children s0) <= 2)%nat ->
  (List.length (m_children s) <= 2)%nat.
Proof.
  revert s0. induction t as [|ev t IH]; intros s0 A L; cbn in A.
  - now injection A as <-.
  - destruct (step s0 ev) as [s1|] eqn:S; [|discriminate].
    apply (IH s1 A).
    destruct (step_fields _ _ _ S) as (_ & _ & F3 & _).
    destruct F3 as [[_ F3] | (a & p & -> & F3)]; rewrite F3; [exact L|].
    unfold step in S.
    destruct (m_fifo s0), (m_removed s0); cbn [andb negb] in S;
      try discriminate S.
    destruct (Nat.ltb_spec (List.length (m_children s0)) 2);
      [|discriminate S].
    cbn. lia.
Qed.

(** X12: in every run, [spawn_child] starts a process of the pipeline
    (the preview or the producer) only after the temporary directory
    and the named pipe in it have been made and before the directory is
    removed, and it starts at most two; the threads of the overlay are
    created only when both have been started.  The helper processes of
    [command_exists], [detect_csi_available] and [ensure_dir_remove]
    are not meant: they are no events of the trace. *)
Theorem children_only_after_setup (e : env) (pol : overflow_policy)
  (argv : list string) :
  let t := trace_of (Cli.picam_bench e pol argv) in
  (forall t1 a p t2,
      t = (t1 ++ EvSpawn a p :: t2)%list ->
      exists d, In (EvMkdtemp d) t1
                /\ In (EvMkfifo (d ++ "/video.h264")) t1
                /\ forall d', ~ In (EvRemoveDir d') t1)
  /\ (List.length (filter is_spawn t) <= 2)%nat
  /\ (forall t1 f t2,
         t = (t1 ++ EvThreadCreate f :: t2)%list ->
         List.length (filter is_spawn t1) = 2%nat).
Proof.
  cbv zeta. split; [|split].
  - intros t1 a p t2 E.
    destruct (run_prefix _ _ _ _ _ _ E)
      as (s1 & s2 & s3 & (B1 & B2 & _ & B4) & _ & S & _).
    cbn in S. destruct (m_fifo s1) eqn:F; [|discriminate].
    destruct (m_removed s1) eqn:R; [discriminate|].
    destruct (B2 eq_refl) as (d & Hd & I). exists d.
    repeat split; [apply B1, Hd | exact I | apply B4; reflexivity].
  - destruct (run_keeps_order e pol argv) as (s & A).
    destruct initial_backed as [B0 R0].
    destruct (accepts_backed _ _ _ _ A B0 R0) as [_ (_ & _ & R3)].
    cbn [app] in R3. rewrite R3.
    apply (accepts_children_bound _ _ _ A). cbn. lia.
  - intros t1 f t2 E.
    destruct (run_prefix _ _ _ _ _ _ E)
      as (s1 & s2 & s3 & _ & (_ & _ & R3) & S & _).
    rewrite R3. unfold step in S.
    destruct (m_removed s1); cbn [andb negb] in S; [discriminate S|].
    destruct (Nat.eqb_spec (List.length (m_children s1)) 2);
      [assumption | discriminate S].
Qed.

(** X13: in every run, [kill] in [terminate_children] and [waitpid]
    at the end of [main] are called only with a positive process id
    that an earlier [spawn_child] of this run returned: never with 0 or
    -1, which would address a whole process group or every process.
    The [waitpid] calls of [detect_csi_available] and
    [ensure_dir_remove] on their own helper processes, which get the
    result of [fork] unchecked, are not meant: they are no events of
    the trace. *)
Theorem signals_only_to_own_children (e : env) (pol : overflow_policy)
  (argv : list string) :
  let t := trace_of (Cli.picam_bench e pol argv) in
  (forall t1 p t2,
      t = (t1 ++ EvKill p :: t2)%list ->
      0 < p /\ exists a, In (EvSpawn a p) t1)
  /\ (forall t1 p t2,
         t = (t1 ++ EvWait p :: t2)%list ->
         0 < p /\ exists a, In (EvSpawn a p) t1).
Proof.
  cbv zeta. split; intros t1 p t2 E;
    destruct (run_prefix _ _ _ _ _ _ E)
      as (s1 & s2 & s3 & (_ & _ & B3 & _) & _ & S & _);
    cbn in S; destruct (Z.ltb_spec 0 p); try discriminate S;
    (split; [assumption|]);
    unfold is_child in S; destruct (existsb _ _) eqn:X;
    try discriminate S;
    apply existsb_exists in X as (q & I & Q); apply Z.eqb_eq in Q;
    subst q; exact (B3 p I).
Qed.

(** X17: in every run, the temporary directory that is removed is the
    one the run made; it is removed at most once, only after [waitpid]
    has been called for every process the run started, and nothing that
    needs the directory (pipe, status file, process, thread, a second
    removal) comes after. *)
Theorem directory_removed_after_children_reaped (e : env)
  (pol : overflow_policy) (argv : list string) :
  forall t1 d t2,
    trace_of (Cli.picam_bench e pol argv)
    = (t1 ++ EvRemoveDir d :: t2)%list ->
    In (EvMkdtemp d) t1
    /\ (forall a p, In (EvSpawn a p) t1 -> 0 < p -> In (EvWait p) t1)
    /\ (forall d', ~ In (EvRemoveDir d') t1)
    /\ forallb (fun ev => negb (uses_dir ev)) t2 = true.
Proof.
  intros t1 d t2 E.
  destruct (run_prefix _ _ _ _ _ _ E)
    as (s1 & s2 & s3 & (B1 & _ & _ & B4) & (R1 & R2 & _) & S & A2).
  pose proof S as S'. cbn in S.
  destruct (m_dir s1) as [d'|] eqn:D; [|discriminate S].
  destruct (String.eqb_spec d d') as [->|]; [|discriminate S].
  destruct (m_removed s1) eqn:R; [discriminate S|].
  cbn [andb negb] in S.
  destruct (all_waited s1) eqn:W; [|discriminate S].
  injection S as <-.
  repeat split.
  - apply B1, eq_refl.
  - intros a p I P. unfold all_waited in W.
    rewrite forallb_forall in W. specialize (W p (R1 a p I)).
    apply orb_prop in W as [W | W]; [apply Z.leb_le in W; lia|].
    apply existsb_exists in W as (q & Iq & Q). apply Z.eqb_eq in Q.
    subst q. exact (R2 p Iq).
  - apply B4, eq_refl.
  - apply (accepts_after_removal _ _ _ A2). reflexivity.
Qed.

End RunOrder.

(** ** The statements at the sample inputs *)

Lemma read_proc_stat_total_cpu_line_witness :
  ProcFiles.read_proc_stat_total Samples.sample_policy
    (Some Samples.proc_stat0) Samples.stale
  = Some (Proc.mk_cpu_tot 4705 0 1325 88377 12 0 7).
Proof.
  apply (read_proc_stat_total_cpu_line Samples.sample_policy
           4705 0 1325 88377 12 0 7 " 0 0 0" ("cpu0 1 2 3" ++ Overlay.nl)
           Samples.stale);
    try (unfold Proc.two64; lia); try reflexivity.
  apply Nat.ltb_lt. reflexivity.
Defined.

Lemma parse_res_round_trip_witness :
  Cli.parse_res Samples.sample_policy "1280x720" = ret (1280, 720)
  /\ Cli.parse_res Samples.sample_policy "0x720p"
     = die "Invalid resolution '0x720p'".
Proof.
  split.
  - apply (proj1 (parse_res_round_trip Samples.sample_policy 1280 720 ""
                    ltac:(cbv; split; discriminate)
                    ltac:(cbv; split; discriminate) eq_refl));
      reflexivity.
  - apply (proj2 (parse_res_round_trip Samples.sample_policy 0 720 "p"
                    ltac:(cbv; split; discriminate)
                    ltac:(cbv; split; discriminate) eq_refl)).
    left. discriminate.
Defined.

Lemma parse_cfg_well_formed_witness :
  Cli.parse_cfg Samples.sample_policy Samples.argv_usb
  = ([], Ret Samples.parsed_usb)
  /\ Cli.well_formed (Cli.p_cfg Samples.parsed_usb).
Proof.
  split; [reflexivity|].
  apply (parse_cfg_well_formed Samples.sample_policy Samples.argv_usb []
           Samples.parsed_usb).
  reflexivity.
Defined.

Lemma later_option_overrides_witness :
  Cli.parse_cfg Samples.sample_policy
    (Samples.argv_usb ++ ["--fps"; "60"])
  = ([], Ret (Cli.on_cfg (fun c => Cli.set_fps c 60) Samples.parsed_usb))
  /\ Cli.parse_cfg Samples.sample_policy
       (Samples.argv_usb ++ ["--bitrate"; "fast"])
     = ([], Ret (Cli.on_cfg (fun c => Cli.set_bitrate c 0)
                   Samples.parsed_usb)).
Proof.
  split.
  - exact (proj1 (later_option_overrides Samples.sample_policy
                    "picam_bench" (tl Samples.argv_usb)
                    Samples.parsed_usb "60" eq_refl)).
  - exact (proj1 (proj2 (later_option_overrides Samples.sample_policy
                           "picam_bench" (tl Samples.argv_usb)
                           Samples.parsed_usb "fast" eq_refl))).
Defined.

Lemma incomplete_command_line_witness :
  Cli.picam_bench Examples.env_ok Samples.sample_policy
    (Samples.argv_usb ++ ["--bitrate"])
  = die "missing value"
  /\ Cli.picam_bench Examples.env_ok Samples.sample_policy
       (Samples.argv_usb ++ ["--duration"])
     = die "unknown arg: --duration".
Proof.
  split.
  - exact (proj1 (incomplete_command_line Samples.sample_policy
                    Examples.env_ok "picam_bench" (tl Samples.argv_usb)
                    Samples.parsed_usb "--bitrate" eq_refl) eq_refl).
  - exact (proj2 (incomplete_command_line Samples.sample_policy
                    Examples.env_ok "picam_bench" (tl Samples.argv_usb)
                    Samples.parsed_usb "--duration" eq_refl)
             eq_refl eq_refl eq_refl eq_refl eq_refl).
Defined.

Lemma rejected_command_line_witness :
  Cli.picam_bench Examples.env_ok Samples.sample_policy
    ["picam_bench"; "--encode"; "fast"]
  = die "invalid --encode 'fast'".
Proof.
  exact (proj1 (rejected_command_line Samples.sample_policy
                  Examples.env_ok ["picam_bench"; "--encode"; "fast"]
                  _ _ eq_refl)).
Defined.

Lemma decide_source_checked_witness :
  V4L2.pick_usb_node (devs Examples.env_ok) (glob_res Examples.env_ok) 128
  = Some "/dev/video0"
  /\ V4L2.v4l2_supports_capture (devs Examples.env_ok) "/dev/video0" = true.
Proof.
  split.
  - exact (proj1 (proj2 (proj2 (decide_source_checked Examples.env_ok
                                  (Cli.p_cfg Cli.defaults) [] false
                                  "/dev/video0" _ eq_refl)) eq_refl)).
  - exact (proj1 (proj2 (proj2 (proj2 (decide_source_checked Examples.env_ok
                                  (Cli.p_cfg Samples.parsed_usb) [] false
                                  "/dev/video0" _ eq_refl))))).
Defined.

Lemma log_reader_ignores_read_boundaries_witness :
  Overlay.ffmpeg_log_reader Samples.sample_scan_lf Samples.log_reads
    Examples.sample_state
  = Overlay.ffmpeg_log_reader Samples.sample_scan_lf Samples.log_reads_whole
      Examples.sample_state.
Proof.
  apply (log_reader_ignores_read_boundaries Samples.sample_scan_lf
           Samples.log_reads Samples.log_reads_whole Examples.sample_state).
  reflexivity.
Defined.

Lemma log_reader_parses_each_line_witness :
  Overlay.ffmpeg_log_reader Samples.sample_scan_lf Samples.log_reads
    Examples.sample_state
  = Overlay.mk_ost (24 # 1) "900.0kbits/s".
Proof.
  rewrite (log_reader_parses_each_line Samples.sample_scan_lf
             Samples.log_lines Samples.log_reads Examples.sample_state
             eq_refl eq_refl).
  reflexivity.
Defined.

Lemma directory_removed_after_children_reaped_witness :
  In (EvMkdtemp "/tmp/picamc.a1b2c3")
    (removelast
       (trace_of (Cli.picam_bench Examples.env_ok Samples.sample_policy
                    ["picam_bench"])))
  /\ In (EvWait 11)
       (removelast
          (trace_of (Cli.picam_bench Examples.env_ok Samples.sample_policy
                       ["picam_bench"])))
  /\ In (EvWait 12)
       (removelast
          (trace_of (Cli.picam_bench Examples.env_ok Samples.sample_policy
                       ["picam_bench"]))).
Proof.
  destruct (directory_removed_after_children_reaped Examples.env_ok
              Samples.sample_policy ["picam_bench"]
              (removelast
                 (trace_of (Cli.picam_bench Examples.env_ok
                              Samples.sample_policy ["picam_bench"])))
              "/tmp/picamc.a1b2c3" [] eq_refl) as (D & W & _).
  split; [exact D|].
  split.
  - eapply W; [eapply (nth_error_In _ 4); reflexivity | reflexivity].
  - eapply W; [eapply (nth_error_In _ 3); reflexivity | reflexivity].
Defined.

(** ** The menu launcher *)

Section MenuLauncher.
Import Menu.

Lemma advance_nil n : advance n "" = "".
Proof. now destruct n. Qed.

Lemma advance_advance n m s : advance n (advance m s) = advance (m + n) s.
Proof.
  revert s. induction m as [|m IH]; intros s; [reflexivity|].
  destruct s as [|c s]; cbn; [apply advance_nil | apply IH].
Qed.

Lemma advance_split n s : exists pre, s = pre ++ advance n s.
Proof.
  revert s. induction n as [|n IH]; intros s; [now exists ""|].
  destruct s as [|c s]; [now exists ""|].
  destruct (IH s) as (pre & E). exists (String c pre). cbn. now rewrite <- E.
Qed.

Lemma advance_length n s : (String.length (advance n s) <= String.length s)%nat.
Proof.
  revert s. induction n as [|n IH]; intros s; [reflexivity|].
  destruct s as [|c s]; [reflexivity|]. cbn. specialize (IH s). lia.
Qed.

Lemma advance_app a b : advance (String.length a) (a ++ b) = b.
Proof. induction a as [|c a IH]; [now destruct b | exact IH]. Qed.

Lemma rest_of_refl s : rest_of s s.
Proof. now exists 0%nat. Qed.

Lemma rest_of_trans a b c : rest_of a b -> rest_of b c -> rest_of a c.
Proof.
  intros (n & ->) (m & ->). exists (m + n)%nat. apply advance_advance.
Qed.

Lemma rest_of_length a b :
  rest_of a b -> (String.length a <= String.length b)%nat.
Proof. intros (n & ->). apply advance_length. Qed.

Lemma occurs_in_rest c a b : occurs_in c a -> rest_of a b -> occurs_in c b.
Proof.
  intros (pre & post & ->) (n & E). destruct (advance_split n b) as (p & ->).
  rewrite <- E. exists (p ++ pre), post. now rewrite !append_assoc.
Qed.

(** *** Rules for [sound] *)

Lemma sound_ret {A} input P (V : A -> Prop) a : V a -> sound input P V (ret a).
Proof.
  intros H w _. repeat split; [apply rest_of_refl | intros c [] | exact H].
Qed.

Lemma sound_bind {A B} input P (V : A -> Prop) (V' : B -> Prop)
  (m : W A) (f : A -> W B) :
  sound input P V m ->
  (forall a, V a -> sound input P V' (f a)) ->
  sound input P V' (bind m f).
Proof.
  intros Hm Hf w R. destruct (Hm w R) as (R1 & C1 & V1).
  unfold run_of, val_of, end_of, bind in *.
  destruct (m w) as [[t1 a] w1]. cbn in *.
  destruct (Hf a V1 w1 (rest_of_trans _ _ _ R1 R)) as (R2 & C2 & V2).
  unfold run_of, val_of, end_of in *.
  destruct (f a w1) as [[t2 b] w2]. cbn in *.
  repeat split.
  - exact (rest_of_trans _ _ _ R2 R1).
  - intros c I. apply in_app_or in I as [I | I]; auto.
  - exact V2.
Qed.

Lemma sound_weaken {A} input P (V V' : A -> Prop) m :
  sound input P V m -> (forall a, V a -> V' a) -> sound input P V' m.
Proof.
  intros H I w R. destruct (H w R) as (R1 & C1 & V1). auto.
Qed.

Lemma sound_emit input P ev :
  is_system ev = false -> sound input P (fun _ => True) (emit ev).
Proof.
  intros N w _. repeat split; [apply rest_of_refl|].
  intros c [X | []]. subst ev. discriminate N.
Qed.

Lemma sound_printf input P text : sound input P (fun _ => True) (printf text).
Proof. now apply sound_emit. Qed.

Lemma sound_ask {A} input P (f : nat -> A) :
  sound input P (fun _ => True) (ask f).
Proof. intros w _. repeat split; [apply rest_of_refl | intros c []]. Qed.

Lemma sound_seq {A B} input P (V : A -> Prop) (V' : B -> Prop)
  (m : W A) (k : W B) :
  sound input P V m -> sound input P V' k ->
  sound input P V' (bind m (fun _ => k)).
Proof. intros Hm Hk. apply (sound_bind _ _ V); auto. Qed.

Ltac quiet :=
  lazymatch goal with
  | |- sound _ _ _ (bind _ _) =>
      eapply sound_bind; [quiet | intros ? _; quiet]
  | |- sound _ _ _ (printf _) => apply sound_printf
  | |- sound _ _ _ (emit _) => apply sound_emit; reflexivity
  | |- sound _ _ _ (ask _) => apply sound_ask
  | |- sound _ _ _ (ret _) => apply sound_ret; exact I
  | _ => idtac
  end.

Lemma sound_log_to_file input P e message :
  sound input P (fun _ => True) (log_to_file e message).
Proof.
  unfold log_to_file, get_timestamp.
  destruct (getenv_LOG_FILE e) as [[|c f]|]; [quiet| |quiet].
  eapply sound_bind; [apply sound_ask|]. intros [|] _; quiet.
Qed.

Lemma sound_cwd input P e : sound input P (fun _ => True) (cwd_or_unknown e).
Proof. unfold cwd_or_unknown. quiet. Qed.

Lemma sound_menu_lines input P i table :
  sound input P (fun _ => True) (fun w => (menu_lines i table, tt, w)).
Proof.
  intros w _. repeat split; [apply rest_of_refl|]. cbn.
  revert i. induction table as [|en table IH]; intros i c; cbn; [tauto|].
  intros [X | I]; [discriminate X | exact (IH _ _ I)].
Qed.

Lemma sound_print_menu input P e table :
  sound input P (fun _ => True) (print_menu e table).
Proof.
  unfold print_menu.
  eapply sound_bind; [apply sound_cwd|]. intros cwd _.
  do 3 (eapply sound_seq; [apply sound_printf|]).
  eapply sound_seq; [apply sound_menu_lines|]. quiet.
Qed.

(** *** Reading a line *)

Lemma fgets_from_split room s :
  s = fst (fgets_from room s) ++ snd (fgets_from room s).
Proof.
  revert s. induction room as [|room IH]; intros [|c s]; try reflexivity.
  cbn [fgets_from]. destruct (Ascii.eqb c LF); [reflexivity|].
  specialize (IH s). destruct (fgets_from room s) as [l r]. cbn in *.
  now rewrite <- IH.
Qed.

Lemma fgets_split size s got rest :
  (2 <= size)%nat ->
  fgets size s = Some (got, rest) ->
  s = got ++ rest /\ got <> "".
Proof.
  intros L. unfold fgets. destruct s as [|c s]; [discriminate|].
  intros E. injection E as E.
  pose proof (fgets_from_split (size - 1) (String c s)) as X.
  rewrite E in X. split; [exact X|].
  destruct size as [|[|n]]; try lia. cbn in E.
  destruct (Ascii.eqb c LF); [now injection E as <- _|].
  destruct (fgets_from n s). now injection E as <- _.
Qed.

Lemma c_str_prefix buf : exists tail, buf = c_str buf ++ tail.
Proof.
  induction buf as [|c buf (tail & IH)]; [now exists ""|]. cbn.
  destruct (Ascii.eqb c NUL); [now exists (String c buf)|].
  exists tail. cbn. now rewrite <- IH.
Qed.

Lemma chomp_prefix s : exists tail, s = chomp s ++ tail.
Proof.
  induction s as [|c s (tail & IH)]; [now exists ""|].
  destruct s as [|d s].
  - cbn. destruct (Ascii.eqb c LF); [now exists (String c "") | now exists ""].
  - exists tail. cbn [chomp append] in *. now rewrite <- IH.
Qed.

Lemma chomp_line a : chomp (a ++ String LF "") = a.
Proof.
  induction a as [|c a IH]; [reflexivity|].
  cbn [append chomp]. rewrite IH. now destruct a.
Qed.

(** What [get_user_input] gives. *)
Lemma get_user_input_spec size w :
  (2 <= size)%nat ->
  run_of (get_user_input size) w = []
  /\ match val_of (get_user_input size) w with
     | None => end_of (get_user_input size) w = w
     | Some s =>
         exists got tail,
           stdin w = got ++ stdin (end_of (get_user_input size) w)
           /\ got = s ++ tail /\ got <> ""
     end.
Proof.
  intros L. unfold run_of, val_of, end_of, get_user_input.
  destruct (fgets size (stdin w)) as [[got rest]|] eqn:E; cbn; [|auto].
  split; [reflexivity|].
  destruct (fgets_split _ _ _ _ L E) as [S N].
  destruct (c_str_prefix got) as (t1 & E1).
  destruct (chomp_prefix (c_str got)) as (t2 & E2).
  exists got, (t2 ++ t1). repeat split; [exact S | | exact N].
  rewrite <- append_assoc, <- E2. exact E1.
Qed.

Lemma length_append_nonempty a b :
  a <> "" -> (String.length b < String.length (a ++ b))%nat.
Proof. destruct a; [congruence|]. intros _. rewrite length_append. cbn. lia. Qed.

Lemma sound_get_user_input input P size :
  (2 <= size)%nat ->
  sound input P
    (fun r => match r with Some s => occurs_in s input | None => True end)
    (get_user_input size).
Proof.
  intros L w R. destruct (get_user_input_spec size w L) as [T V].
  rewrite T. destruct (val_of (get_user_input size) w) as [s|].
  - destruct V as (got & tail & E1 & E2 & N). repeat split.
    + exists (String.length got). rewrite E1. now rewrite advance_app.
    + intros c [].
    + apply (occurs_in_rest s (stdin w)); [|exact R].
      exists "", (tail ++ stdin (end_of (get_user_input size) w)).
      cbn. rewrite E1, E2. now rewrite append_assoc.
  - rewrite V. repeat split; [apply rest_of_refl | intros c []].
Qed.

(** *** Running a command *)

Lemma WEXITSTATUS_range status : 0 <= WEXITSTATUS status <= 255.
Proof.
  unfold WEXITSTATUS. rewrite Z.shiftr_land.
  change (Z.shiftr 65280 8) with (Z.ones 8). rewrite Z.land_ones by lia.
  pose proof (Z.mod_pos_bound (Z.shiftr status 8) (2 ^ 8)). lia.
Qed.

Lemma sound_consume input P n :
  sound input P (fun _ => True)
    (fun w => ([], tt, mk_world (advance n (stdin w)) (calls w))).
Proof. intros w _. repeat split; [now exists n | intros c []]. Qed.

Lemma sound_missing input P command needle access :
  sound input P (fun _ => True) (missing command needle access).
Proof. unfold missing. destruct (strstr command needle); quiet. Qed.

Lemma sound_system input (P : string -> Prop) c :
  P c -> sound input P (fun _ => True) (emit (MSystem c)).
Proof.
  intros H w _. repeat split; [apply rest_of_refl|].
  intros c' [X | []]. now injection X as <-.
Qed.

Lemma sound_run_command input (P : string -> Prop) e c :
  P c -> sound input P (fun r => 0 <= r <= 255) (run_command e c).
Proof.
  intros H. unfold run_command.
  eapply sound_bind; [apply sound_cwd|]. intros cwd _.
  eapply sound_bind; [apply sound_ask|]. intros ts _.
  do 6 (eapply sound_seq; [apply sound_printf|]).
  eapply sound_seq; [apply sound_log_to_file|].
  eapply sound_bind; [apply sound_missing|]. intros [|] _.
  { eapply sound_seq; [apply sound_printf|]. apply sound_ret. lia. }
  eapply sound_bind; [apply sound_missing|]. intros [|] _.
  { eapply sound_seq; [apply sound_printf|]. apply sound_ret. lia. }
  eapply sound_seq; [now apply sound_system|].
  eapply sound_bind; [apply sound_ask|]. intros r _.
  eapply sound_seq; [apply sound_consume|].
  eapply (sound_bind _ _ (fun r => 0 <= r <= 255)).
  { destruct (fst r =? -1).
    - eapply sound_seq; [apply sound_printf|]. apply sound_ret. lia.
    - apply sound_ret. apply WEXITSTATUS_range. }
  intros code Hc.
  eapply sound_bind; [apply sound_ask|]. intros ts2 _.
  do 4 (eapply sound_seq; [apply sound_printf|]).
  eapply sound_seq; [apply sound_log_to_file|].
  now apply sound_ret.
Qed.

Lemma sound_press_enter input P :
  sound input P (fun _ => True) press_enter.
Proof.
  unfold press_enter.
  eapply sound_seq; [apply sound_printf|].
  eapply sound_seq; [now apply sound_emit|].
  eapply sound_seq; [apply (sound_get_user_input _ _ 256); lia|].
  eapply sound_seq; [apply sound_printf|]. now apply sound_ret.
Qed.

Lemma chosen_in pol table input en :
  chosen pol table input = Some en -> In en table.
Proof.
  unfold chosen. destruct (_ && _)%bool; [|discriminate].
  apply nth_error_In.
Qed.

(** What [main] does with a line it has read. *)
Ltac handle_input e pol table input s Hs :=
  destruct (String.length s =? 0)%nat; [now apply sound_ret|];
  destruct (is_quit s);
    [eapply sound_seq; [apply sound_printf | now apply sound_ret]|];
  destruct (strcasecmp_eq s "c");
    [ eapply sound_seq; [apply sound_printf|];
      eapply sound_seq; [now apply sound_emit|];
      eapply sound_bind; [apply (sound_get_user_input _ _ 512); lia|];
      let c := fresh "c" in let Hc := fresh "Hc" in
      intros [c|] Hc; [|now apply sound_ret];
      destruct (String.length c =? 0)%nat eqn:?; [now apply sound_ret|];
      eapply sound_seq; [|apply sound_press_enter];
      apply sound_run_command; right; split; [|exact Hc];
      intros ->; discriminate
    | let en := fresh "en" in
      destruct (chosen pol table s) as [en|] eqn:?;
        [ eapply sound_seq; [|apply sound_press_enter];
          apply sound_run_command; left; apply in_map;
          eapply chosen_in; eassumption
        | eapply sound_seq; [apply sound_printf | now apply sound_ret] ] ].

Lemma sound_menu_round e pol table input :
  sound input (known table input) (fun _ => True) (menu_round e pol table).
Proof.
  unfold menu_round.
  eapply sound_seq; [apply sound_print_menu|].
  eapply sound_seq; [apply sound_printf|].
  eapply sound_seq; [now apply sound_emit|].
  eapply sound_bind; [apply (sound_get_user_input _ _ 256); lia|].
  intros [s|] Hs; [|now apply sound_ret].
  handle_input e pol table input s Hs.
Qed.

(** *** The table *)

Lemma add_next_full t table nc :
  (MAX_COMMANDS <= List.length table)%nat ->
  add_next (t, table) nc
  = ((t ++ [MStderr ("Error: Too many menu entries" ++ nl)])%list, table).
Proof.
  intros L. unfold add_next, add_entry. cbn [fst snd].
  destruct (Nat.leb_spec MAX_COMMANDS (List.length table)); [reflexivity|lia].
Qed.

Lemma add_next_room t table nc :
  (List.length table < MAX_COMMANDS)%nat ->
  add_next (t, table) nc = (t, (table ++ [stored nc])%list).
Proof.
  intros L. unfold add_next, add_entry. cbn [fst snd].
  destruct (Nat.leb_spec MAX_COMMANDS (List.length table)); [lia|].
  now rewrite app_nil_r.
Qed.

Lemma fold_add_next_grows l :
  forall t table,
    exists more,
      fst (fold_left add_next l (t, table)) = (t ++ more)%list.
Proof.
  induction l as [|nc l IH]; intros t table.
  - exists []. cbn. now rewrite app_nil_r.
  - cbn [fold_left].
    destruct (add_next (t, table) nc) as [t1 tb1] eqn:E.
    destruct (IH t1 tb1) as (more & ->).
    unfold add_next in E. cbn [fst snd] in E.
    destruct (add_entry (fst nc) (snd nc) table) as [t2 tb2].
    injection E as <- <-. exists (t2 ++ more)%list. now rewrite app_assoc.
Qed.

Lemma fold_add_entry l :
  forall t table,
    snd (fold_left add_next l (t, table))
    = (table ++ map stored (firstn (MAX_COMMANDS - List.length table) l))%list
    /\ (fst (fold_left add_next l (t, table)) = t
        <-> (List.length l <= MAX_COMMANDS - List.length table)%nat).
Proof.
  induction l as [|nc l IH]; intros t table.
  - cbn [fold_left firstn map snd fst List.length].
    rewrite firstn_nil, app_nil_r. split; [reflexivity|]. split; [lia|auto].
  - cbn [fold_left].
    destruct (Nat.le_gt_cases MAX_COMMANDS (List.length table)) as [L|L].
    + rewrite add_next_full by exact L.
      destruct (IH (t ++ [MStderr ("Error: Too many menu entries" ++ nl)])%list
                  table) as [I1 _].
      rewrite I1. replace (MAX_COMMANDS - List.length table)%nat with 0%nat
        by lia.
      split; [reflexivity|]. cbn [List.length]. split; [|lia].
      intros E. exfalso.
      destruct (fold_add_next_grows l
                  (t ++ [MStderr ("Error: Too many menu entries" ++ nl)])%list
                  table) as (more & X).
      rewrite X in E. apply (f_equal (@List.length mevent)) in E.
      rewrite !length_app in E. cbn in E. lia.
    + rewrite add_next_room by exact L.
      destruct (IH t (table ++ [stored nc])%list) as [I1 I2].
      rewrite I1, I2. rewrite length_app. cbn [List.length].
      replace (MAX_COMMANDS - List.length table)%nat
        with (S (MAX_COMMANDS - (List.length table + 1)))%nat by lia.
      cbn [firstn map]. rewrite <- app_assoc. split; [reflexivity|]. lia.
Qed.

(** X18: the table holds the first 50 additions, each with its name
    cut to 127 and its command to 511 characters, and the later ones
    are dropped with a message; so every entry fits its arrays.  None
    of the built-in entries is cut or dropped. *)
Theorem add_entries_first_fifty (l : list (string * string)) :
  snd (add_entries l []) = map stored (firstn MAX_COMMANDS l)
  /\ table_ok (snd (add_entries l []))
  /\ (fst (add_entries l []) = [] <-> (List.length l <= MAX_COMMANDS)%nat)
  /\ init_menu_entries
     = ([], map (fun nc => mk_entry (fst nc) (snd nc)) builtin).
Proof.
  destruct (fold_add_entry l [] []) as [E1 E2].
  cbn [List.length app] in E1, E2. rewrite Nat.sub_0_r in E1, E2.
  unfold add_entries. rewrite E1.
  split; [reflexivity|]. split; [|split].
  - split.
    + rewrite length_map, length_firstn. apply Nat.le_min_l.
    + apply Forall_forall. intros en I.
      apply in_map_iff in I as (nc & <- & _). cbn.
      unfold strncpy_z, MAX_NAME_LEN, MAX_CMD_LEN.
      pose proof (substring_length (128 - 1) (fst nc)).
      pose proof (substring_length (512 - 1) (snd nc)). lia.
  - exact E2.
  - reflexivity.
Qed.

(** *** The result of a command *)

Lemma sound_ask_all {A} input P (V : A -> Prop) (f : nat -> A) :
  (forall k, V (f k)) -> sound input P V (ask f).
Proof.
  intros H w _. repeat split; [apply rest_of_refl | intros c [] | apply H].
Qed.

Lemma sound_missing_found input P command needle access :
  strstr command needle <> None ->
  (forall k, access k = false) ->
  sound input P (fun b => b = true) (missing command needle access).
Proof.
  intros F A. unfold missing. destruct (strstr command needle); [|congruence].
  eapply (sound_bind _ _ (fun ok => ok = false));
    [now apply sound_ask_all|].
  intros ok ->. now apply sound_ret.
Qed.

Ltac run_command_prefix :=
  unfold run_command;
  eapply sound_bind; [apply sound_cwd|]; intros ? _;
  eapply sound_bind; [apply sound_ask|]; intros ? _;
  do 6 (eapply sound_seq; [apply sound_printf|]);
  eapply sound_seq; [apply sound_log_to_file|].

Lemma run_command_no_picam input e c :
  strstr c "./picam " <> None ->
  (forall k, access_picam e k = false) ->
  sound input (fun _ => False) (fun r => r = 127) (run_command e c).
Proof.
  intros F A. run_command_prefix.
  eapply (sound_bind _ _ (fun b => b = true));
    [now apply sound_missing_found|].
  intros b ->. eapply sound_seq; [apply sound_printf | now apply sound_ret].
Qed.

Lemma run_command_no_script input e c :
  strstr c "./picam.sh" <> None ->
  (forall k, access_picam_sh e k = false) ->
  sound input (fun _ => False) (fun r => r = 127) (run_command e c).
Proof.
  intros F A. run_command_prefix.
  eapply sound_bind; [apply sound_missing|]. intros [|] _.
  { eapply sound_seq; [apply sound_printf | now apply sound_ret]. }
  eapply (sound_bind _ _ (fun b => b = true));
    [now apply sound_missing_found|].
  intros b ->. eapply sound_seq; [apply sound_printf | now apply sound_ret].
Qed.

Lemma run_command_status input e c status :
  strstr c "./picam " = None ->
  strstr c "./picam.sh" = None ->
  (forall k, fst (system e k c) = status) ->
  sound input (fun _ => True)
    (fun r => r = if status =? -1 then 127 else WEXITSTATUS status)
    (run_command e c).
Proof.
  intros F1 F2 S. run_command_prefix.
  unfold missing. rewrite F1, F2.
  eapply (sound_bind _ _ (fun b => b = false)); [now apply sound_ret|].
  intros b ->.
  eapply (sound_bind _ _ (fun b => b = false)); [now apply sound_ret|].
  intros b ->.
  eapply sound_seq; [now apply sound_system|].
  eapply (sound_bind _ _ (fun r => fst r = status));
    [apply sound_ask_all; intros k; apply S|].
  intros r ->.
  eapply sound_seq; [apply sound_consume|].
  eapply (sound_bind _ _
            (fun x => x = if status =? -1 then 127 else WEXITSTATUS status)).
  { destruct (status =? -1).
    - apply (sound_seq _ _ (fun _ => True)); [apply sound_printf|].
      apply sound_ret. now cbv beta.
    - apply sound_ret. now cbv beta. }
  intros code ->.
  eapply sound_bind; [apply sound_ask|]. intros ts2 _.
  do 4 (eapply sound_seq; [apply sound_printf|]).
  eapply sound_seq; [apply sound_log_to_file|].
  now apply sound_ret.
Qed.

(** X19: [run_command] gives a status from 0 to 255 and runs nothing
    but the command it was given.  A command that mentions [./picam ]
    or [./picam.sh] while that file cannot be executed is not run and
    gives 127.  A command that mentions neither gives 127 when
    [system] fails and otherwise the exit-status byte of what [system]
    returns, which is 0 for a command that a signal has killed. *)
Theorem run_command_result (e : menv) (c : string) (w : world) :
  0 <= val_of (run_command e c) w <= 255
  /\ (forall c', In (MSystem c') (run_of (run_command e c) w) -> c' = c)
  /\ (strstr c "./picam " <> None ->
      (forall k, access_picam e k = false) ->
      val_of (run_command e c) w = 127
      /\ forall c', ~ In (MSystem c') (run_of (run_command e c) w))
  /\ (strstr c "./picam.sh" <> None ->
      (forall k, access_picam_sh e k = false) ->
      val_of (run_command e c) w = 127
      /\ forall c', ~ In (MSystem c') (run_of (run_command e c) w))
  /\ (forall status,
         strstr c "./picam " = None ->
         strstr c "./picam.sh" = None ->
         (forall k, fst (system e k c) = status) ->
         val_of (run_command e c) w
         = if status =? -1 then 127 else WEXITSTATUS status)
  /\ (forall signal, 0 <= signal < 128 -> WEXITSTATUS signal = 0).
Proof.
  pose proof (rest_of_refl (stdin w)) as R.
  split; [|split; [|split; [|split; [|split]]]].
  - now destruct (sound_run_command (stdin w) (fun c' => c' = c) e c
                    eq_refl w R) as (_ & _ & V).
  - now destruct (sound_run_command (stdin w) (fun c' => c' = c) e c
                    eq_refl w R) as (_ & C & _).
  - intros F A.
    destruct (run_command_no_picam (stdin w) e c F A w R) as (_ & C & V).
    split; [exact V | intros c' I; exact (C c' I)].
  - intros F A.
    destruct (run_command_no_script (stdin w) e c F A w R) as (_ & C & V).
    split; [exact V | intros c' I; exact (C c' I)].
  - intros status F1 F2 S.
    now destruct (run_command_status (stdin w) e c status F1 F2 S w R)
      as (_ & _ & V).
  - intros signal H. unfold WEXITSTATUS. rewrite Z.shiftr_land.
    change (Z.shiftr 65280 8) with (Z.ones 8). rewrite Z.land_ones by lia.
    rewrite Z.shiftr_div_pow2 by lia.
    rewrite (Z.div_small signal (2 ^ 8)) by lia. reflexivity.
Qed.

(** *** Choosing by number *)

Lemma menu_lines_nth table :
  forall k i en,
    nth_error table i = Some en ->
    In (menu_line (k + i) en) (menu_lines k table).
Proof.
  induction table as [|x table IH]; intros k [|i] en E; try discriminate.
  - injection E as <-. rewrite Nat.add_0_r. now left.
  - right. rewrite <- Nat.add_succ_comm. now apply IH.
Qed.

(** X20: the number that the menu shows next to an entry selects that
    entry: an entry of a table of at most 50 is listed under its
    position counted from 1, and typing that number, with anything
    after it that is not a digit, chooses it.  A line in which no
    number can be read chooses nothing. *)
Theorem number_shown_selects_entry (pol : overflow_policy)
  (table : list menu_entry_t) (i : nat) (en : menu_entry_t)
  (junk : string) :
  (List.length table <= MAX_COMMANDS)%nat ->
  nth_error table i = Some en ->
  ends_numeral junk = true ->
  In (menu_line i en) (menu_lines 0 table)
  /\ chosen pol table (fmt_d (Z.of_nat i + 1) ++ junk) = Some en
  /\ (forall input,
         scan_numeral input = None -> chosen pol table input = None).
Proof.
  intros L E J.
  assert (i < List.length table)%nat as B.
  { apply nth_error_Some. congruence. }
  unfold MAX_COMMANDS in L.
  split; [exact (menu_lines_nth table 0 i en E)|]. split.
  - unfold chosen, atoi.
    rewrite scan_d_fmt_d; [|unfold INT_MIN, INT_MAX; lia | exact J].
    destruct (Z.leb_spec 1 (Z.of_nat i + 1)); [|lia].
    destruct (Z.leb_spec (Z.of_nat i + 1) (Z.of_nat (List.length table)));
      [|lia].
    cbn [andb]. replace (Z.to_nat (Z.of_nat i + 1 - 1)) with i by lia.
    exact E.
  - intros input N. unfold chosen, atoi, scan_d. rewrite N. reflexivity.
Qed.

(** *** The loop *)

Lemma bind_parts {A B} (m : W A) (f : A -> W B) w :
  run_of (bind m f) w
  = (run_of m w ++ run_of (f (val_of m w)) (end_of m w))%list
  /\ val_of (bind m f) w = val_of (f (val_of m w)) (end_of m w)
  /\ end_of (bind m f) w = end_of (f (val_of m w)) (end_of m w).
Proof.
  unfold run_of, val_of, end_of, bind.
  destruct (m w) as [[t1 a] w1]. cbn.
  destruct (f a w1) as [[t2 b] w2]. auto.
Qed.

Lemma shrinks_seq {A} input P (V : A -> Prop) (m : W A) (k : W round) :
  sound input P V m -> shrinks input k ->
  shrinks input (bind m (fun _ => k)).
Proof.
  intros Hm Hk w R. destruct (bind_parts m (fun _ => k) w) as (_ & -> & ->).
  destruct (Hm w R) as (R1 & _). intros C.
  pose proof (Hk _ (rest_of_trans _ _ _ R1 R) C).
  pose proof (rest_of_length _ _ R1). lia.
Qed.

Lemma shrinks_input input P (V : round -> Prop) size
  (K : option string -> W round) :
  (2 <= size)%nat ->
  K None = ret Break ->
  (forall s, sound input P V (K (Some s))) ->
  shrinks input (bind (get_user_input size) K).
Proof.
  intros L N S w R.
  destruct (bind_parts (get_user_input size) K w) as (_ & -> & ->).
  destruct (get_user_input_spec size w L) as [_ G].
  destruct (sound_get_user_input input P size L w R) as (R1 & _).
  destruct (val_of (get_user_input size) w) as [s|].
  - destruct G as (got & tail & E1 & _ & Hn). intros _.
    destruct (S s _ (rest_of_trans _ _ _ R1 R)) as (R2 & _).
    pose proof (rest_of_length _ _ R2).
    pose proof (length_append_nonempty got
                  (stdin (end_of (get_user_input size) w)) Hn) as X.
    rewrite <- E1 in X. lia.
  - rewrite N. discriminate.
Qed.

Lemma shrinks_menu_round e pol table input :
  shrinks input (menu_round e pol table).
Proof.
  unfold menu_round.
  apply (shrinks_seq input (fun _ => True) (fun _ => True));
    [apply sound_print_menu|].
  apply (shrinks_seq input (fun _ => True) (fun _ => True));
    [apply sound_printf|].
  apply (shrinks_seq input (fun _ => True) (fun _ => True));
    [now apply sound_emit|].
  apply (shrinks_input input (known table input) (fun _ => True));
    [lia | reflexivity|].
  intros s. handle_input e pol table input s I.
Qed.

Lemma menu_loop_returns e pol table input :
  forall fuel w,
    rest_of (stdin w) input ->
    (String.length (stdin w) < fuel)%nat ->
    exists t w1, menu_loop fuel e pol table w = Some (t, w1).
Proof.
  induction fuel as [|fuel IH]; intros w R L; [lia|].
  cbn [menu_loop].
  pose proof (shrinks_menu_round e pol table input w R) as Sh.
  destruct (sound_menu_round e pol table input w R) as (R1 & _).
  unfold val_of, end_of in *.
  destruct (menu_round e pol table w) as [[t r] w1]. cbn in *.
  destruct r; [now exists t, w1|].
  destruct (IH w1 (rest_of_trans _ _ _ R1 R)) as (t' & w2 & ->);
    [specialize (Sh eq_refl); lia|].
  now exists (t ++ t')%list, w2.
Qed.

Lemma menu_loop_more_fuel e pol table :
  forall fuel fuel' w r,
    menu_loop fuel e pol table w = Some r ->
    (fuel <= fuel')%nat ->
    menu_loop fuel' e pol table w = Some r.
Proof.
  induction fuel as [|fuel IH]; intros [|fuel'] w r E L; try discriminate;
    try lia.
  cbn [menu_loop] in *.
  destruct (menu_round e pol table w) as [[t [|]] w1]; [exact E|].
  destruct (menu_loop fuel e pol table w1) as [[t' w2]|] eqn:X;
    [|discriminate].
  rewrite (IH fuel' w1 _ X); [exact E | lia].
Qed.

Lemma menu_loop_known e pol table input :
  forall fuel w t w1,
    rest_of (stdin w) input ->
    menu_loop fuel e pol table w = Some (t, w1) ->
    forall c, In (MSystem c) t -> known table input c.
Proof.
  induction fuel as [|fuel IH]; intros w t w1 R E; [discriminate|].
  cbn [menu_loop] in E.
  destruct (sound_menu_round e pol table input w R) as (R1 & C1 & _).
  unfold run_of, end_of in *.
  destruct (menu_round e pol table w) as [[t0 r] w0]. cbn in *.
  destruct r.
  - injection E as <- <-. exact C1.
  - destruct (menu_loop fuel e pol table w0) as [[t' w2]|] eqn:X;
      [|discriminate].
    injection E as <- <-. intros c I. apply in_app_or in I as [I | I].
    + now apply C1.
    + exact (IH w0 t' w2 (rest_of_trans _ _ _ R1 R) X c I).
Qed.

Lemma sound_banner input P e : sound input P (fun _ => True) (banner e).
Proof.
  unfold banner.
  do 3 (eapply sound_seq; [apply sound_printf|]).
  eapply sound_bind; [apply sound_cwd|]. intros cwd _.
  eapply sound_seq; [apply sound_printf|].
  eapply sound_seq; [|apply sound_printf].
  destruct (getenv_LOG_FILE e); [apply sound_printf | now apply sound_ret].
Qed.

Lemma init_menu_entries_table :
  init_menu_entries
  = ([], map (fun nc => mk_entry (fst nc) (snd nc)) builtin).
Proof. reflexivity. Qed.

(** X21: on every input that ends, [main] returns, with status 0: the
    loop needs at most one round for each character of the input and
    one more, and more rounds change nothing. *)
Theorem menu_main_returns (e : menv) (pol : overflow_policy)
  (input : string) :
  exists t,
    main (S (String.length input)) e pol input = Some (t, 0)
    /\ forall fuel,
         (String.length input < fuel)%nat ->
         main fuel e pol input = Some (t, 0).
Proof.
  unfold main. rewrite init_menu_entries_table.
  pose proof (rest_of_refl input) as R0.
  destruct (sound_banner input (fun _ => True) e (mk_world input 0) R0)
    as (R1 & _).
  unfold end_of in R1.
  destruct (banner e (mk_world input 0)) as [[t1 u] w1]. cbn in R1.
  pose proof (rest_of_length _ _ R1) as L1.
  destruct (menu_loop_returns e pol
              (map (fun nc => mk_entry (fst nc) (snd nc)) builtin) input
              (S (String.length input)) w1 R1 ltac:(lia))
    as (t2 & w2 & E).
  exists ([] ++ t1 ++ t2)%list. rewrite E. split; [reflexivity|].
  intros fuel L.
  now rewrite (menu_loop_more_fuel e pol _ _ fuel w1 _ E) by lia.
Qed.

(** X22: whatever is typed, the launcher hands to [system] nothing but
    the command of one of its built-in entries or a non-empty text
    that occurs in the input (a line typed at the custom prompt). *)
Theorem menu_runs_only_known_commands (fuel : nat) (e : menv)
  (pol : overflow_policy) (input : string) (t : list mevent) (r : Z) :
  main fuel e pol input = Some (t, r) ->
  forall c,
    In (MSystem c) t ->
    In c (map snd builtin) \/ (c <> "" /\ occurs_in c input).
Proof.
  unfold main. rewrite init_menu_entries_table.
  pose proof (rest_of_refl input) as R0.
  destruct (sound_banner input (fun _ => False) e (mk_world input 0) R0)
    as (R1 & C1 & _).
  unfold end_of, run_of in *.
  destruct (banner e (mk_world input 0)) as [[t1 u] w1]. cbn in R1, C1.
  destruct (menu_loop fuel e pol _ w1) as [[t2 w2]|] eqn:E; [|discriminate].
  intros X. injection X as <- <-. intros c I. cbn [app] in I.
  apply in_app_or in I as [I | I]; [destruct (C1 c I)|].
  destruct (menu_loop_known e pol _ input fuel w1 t2 w2 R1 E c I) as [K | K];
    [left | now right].
  rewrite map_map in K. exact K.
Qed.

(** *** Leaving *)

Lemma tolower_letter c d :
  is_letter d = true ->
  Ascii.eqb (tolower c) (tolower d) = true ->
  no_lf c = true /\ not_nul c = true.
Proof.
  intros L E. unfold no_lf, not_nul.
  destruct (Ascii.eqb_spec c LF) as [->|];
    [|destruct (Ascii.eqb_spec c NUL) as [->|]; [|auto]];
    exfalso; destruct d as [[] [] [] [] [] [] [] []];
    vm_compute in L, E; congruence.
Qed.

Lemma strcasecmp_eq_letters a :
  forall b,
    strcasecmp_eq a b = true ->
    all_chars is_letter b = true ->
    all_chars no_lf a = true /\ all_chars not_nul a = true
    /\ String.length a = String.length b.
Proof.
  induction a as [|c a IH]; intros [|d b] E L; try discriminate; [auto|].
  cbn in E, L. apply andb_true_iff in E as [E1 E2].
  apply andb_true_iff in L as [L1 L2].
  destruct (tolower_letter c d L1 E1) as [N1 N2].
  destruct (IH b E2 L2) as (I1 & I2 & I3).
  cbn. now rewrite N1, N2, I1, I2, I3.
Qed.

Lemma is_quit_word word :
  is_quit word = true ->
  all_chars no_lf word = true /\ all_chars not_nul word = true
  /\ (1 <= String.length word <= 4)%nat.
Proof.
  unfold is_quit. intros H.
  apply orb_prop in H as [H | H]; [apply orb_prop in H as [H | H]|];
    apply strcasecmp_eq_letters in H as (A & B & C);
    try reflexivity; cbn in C; repeat split; auto; lia.
Qed.

(** A complete line of less than [size - 1] characters without NUL is
    what [get_user_input] gives. *)
Lemma get_user_input_line size line rest k :
  all_chars no_lf line = true ->
  all_chars not_nul line = true ->
  (String.length line + 1 < size)%nat ->
  get_user_input size (mk_world (line ++ String LF rest) k)
  = ([], Some line, mk_world rest k).
Proof.
  intros A B L. unfold get_user_input. cbn [stdin calls].
  rewrite fgets_nonempty, fgets_from_line by (auto; lia).
  rewrite c_str_whole, chomp_line; [reflexivity|].
  rewrite all_chars_app, B. reflexivity.
Qed.

Lemma print_menu_blind e table k :
  exists tr,
    (forall c, ~ In (MSystem c) tr)
    /\ forall s,
         print_menu e table (mk_world s k) = (tr, tt, mk_world s (S k)).
Proof.
  eexists. split; [|intros s; unfold print_menu, cwd_or_unknown, bind, ask,
                      printf, emit, ret; cbn; reflexivity].
  intros c I.
  repeat (destruct I as [X | I]; [discriminate X|]).
  apply in_app_or in I as [I | I].
  - revert I. generalize 0%nat. induction table as [|en table IH]; cbn;
      [tauto|]. intros n [X | I]; [discriminate X | exact (IH _ I)].
  - repeat (destruct I as [X | I]; [discriminate X|]). exact I.
Qed.

Lemma banner_blind e :
  exists tr,
    (forall c, ~ In (MSystem c) tr)
    /\ forall s, banner e (mk_world s 0) = (tr, tt, mk_world s 1).
Proof.
  destruct (getenv_LOG_FILE e) as [f|] eqn:G; eexists;
    (split; [|intros s; unfold banner, cwd_or_unknown, bind, ask,
                printf, emit, ret; rewrite G; cbn; reflexivity]);
    intros c I;
    repeat (destruct I as [X | I]; [discriminate X|]); exact I.
Qed.

Lemma menu_round_quit e pol table word k :
  is_quit word = true ->
  exists tr,
    (forall c, ~ In (MSystem c) tr)
    /\ forall rest,
         menu_round e pol table (mk_world (word ++ String LF rest) k)
         = ((tr ++ [MStdout ("Bye!" ++ nl)])%list, Break,
            mk_world rest (S k)).
Proof.
  intros Q. destruct (is_quit_word word Q) as (A & B & L).
  destruct (print_menu_blind e table k) as (tr & N & E).
  exists (tr ++ [MStdout "Enter choice: "; MFlush])%list. split.
  - intros c I. apply in_app_or in I as [I | I]; [exact (N c I)|].
    repeat (destruct I as [X | I]; [discriminate X|]). exact I.
  - intros rest. unfold menu_round.
    unfold bind at 1. rewrite E.
    unfold bind at 1. unfold printf at 1. unfold emit at 1.
    unfold bind at 1. unfold emit at 1.
    unfold bind at 1. rewrite get_user_input_line by (auto; lia).
    destruct (String.length word =? 0)%nat eqn:Z;
      [apply Nat.eqb_eq in Z; lia|].
    rewrite Q. unfold bind, printf, emit, ret. cbn [app].
    rewrite <- !app_assoc. reflexivity.
Qed.

(** X23: when the first line is [q], [quit] or [exit], in any mix of
    upper and lower case, [main] prints [Bye!] and returns 0 without
    having run anything, and what follows in the input is not read:
    the run is the same whatever follows. *)
Theorem quit_ends_session (e : menv) (pol : overflow_policy)
  (word rest : string) (fuel : nat) :
  is_quit word = true ->
  exists t,
    main (S fuel) e pol (word ++ nl ++ rest)
    = Some ((t ++ [MStdout ("Bye!" ++ nl)])%list, 0)
    /\ main 1 e pol (word ++ nl)
       = Some ((t ++ [MStdout ("Bye!" ++ nl)])%list, 0)
    /\ forall c, ~ In (MSystem c) t.
Proof.
  intros Q. unfold main. rewrite init_menu_entries_table.
  destruct (banner_blind e) as (t1 & N1 & E1).
  destruct (menu_round_quit e pol
              (map (fun nc => mk_entry (fst nc) (snd nc)) builtin) word 1 Q)
    as (t2 & N2 & E2).
  exists (t1 ++ t2)%list. rewrite !E1. cbn [menu_loop].
  unfold nl in *. cbn [append]. rewrite !E2. cbn [app].
  rewrite <- !app_assoc. repeat split.
  intros c I. apply in_app_or in I as [I | I]; [exact (N1 c I) | exact (N2 c I)].
Qed.

End MenuLauncher.

Lemma number_shown_selects_entry_witness :
  Menu.chosen Samples.sample_policy (snd Menu.init_menu_entries) "3) List"
  = Some (Menu.mk_entry "List cameras (C version)" "./picam --list-cameras").
Proof.
  refine (proj1 (proj2 (number_shown_selects_entry Samples.sample_policy
                          (snd Menu.init_menu_entries) 2
                          (Menu.mk_entry "List cameras (C version)"
                             "./picam --list-cameras")
                          ") List" _ eq_refl eq_refl))).
  apply Nat.leb_le. reflexivity.
Defined.

Lemma menu_runs_only_known_commands_witness :
  (In "uname -a" (map snd Menu.builtin)
   \/ "uname -a" <> "" /\ Menu.occurs_in "uname -a" Samples.menu_input)
  /\ (In "./picam --list-cameras" (map snd Menu.builtin)
      \/ "./picam --list-cameras" <> ""
         /\ Menu.occurs_in "./picam --list-cameras" Samples.menu_input).
Proof.
  assert (Menu.main 40 Samples.menu_env Samples.sample_policy
            Samples.menu_input = Some (Samples.menu_trace, 0)) as H
    by (vm_compute; reflexivity).
  split;
    apply (menu_runs_only_known_commands 40 Samples.menu_env
             Samples.sample_policy Samples.menu_input Samples.menu_trace 0 H);
    vm_compute; repeat (first [left; reflexivity | right]).
Defined.

Lemma quit_ends_session_witness :
  exists t,
    Menu.main 3 Samples.menu_env Samples.sample_policy
      ("Quit" ++ Overlay.nl ++ "3" ++ Overlay.nl)
    = Some ((t ++ [Menu.MStdout ("Bye!" ++ Overlay.nl)])%list, 0)
    /\ Menu.main 1 Samples.menu_env Samples.sample_policy
         ("Quit" ++ Overlay.nl)
       = Some ((t ++ [Menu.MStdout ("Bye!" ++ Overlay.nl)])%list, 0)
    /\ forall c, ~ In (Menu.MSystem c) t.
Proof.
  exact (quit_ends_session Samples.menu_env Samples.sample_policy
           "Quit" ("3" ++ Overlay.nl) 2 eq_refl).
Defined.
